(** * yt.py: pagination, batched detail fetch, credential refresh and the
      update handlers of the YouTube creator command line client.

    A shallow embedding of [skills/youtube/scripts/yt.py].  Python values
    that travel through the API client are JSON-shaped and kept in one
    inductive type; dictionaries keep their insertion order.  Effects
    (requests to the Data API, requests to the authorization server, the
    credential cache on disk, the two output streams) are threaded through a
    state-and-exception monad over an explicit [World]. *)

From Stdlib Require Import ZArith String Ascii List Lia.
From stdpp Require Import base option list strings pretty gmap.

Set Warnings "-register-all,-notation-for-abbreviation".

Open Scope string_scope.
Open Scope list_scope.
Open Scope Z_scope.

(** ** Python values *)

Inductive value : Type :=
| VNone
| VBool (b : bool)
| VInt (n : Z)
| VStr (s : string)
| VList (l : list value)
| VDict (d : list (string * value)).

(** A [dict] with string keys, in insertion order. *)
Notation dict := (list (string * value)).

(** [bool(v)]. *)
Definition truthy (v : value) : bool :=
  match v with
  | VNone => false
  | VBool b => b
  | VInt n => negb (n =? 0)
  | VStr s => negb (String.eqb s EmptyString)
  | VList l => match l with [] => false | _ => true end
  | VDict d => match d with [] => false | _ => true end
  end.

(** [d.get(k)] as an option. *)
Fixpoint dict_get (k : string) (d : dict) : option value :=
  match d with
  | [] => None
  | (k', v) :: d' => if String.eqb k k' then Some v else dict_get k d'
  end.

(** [d.get(k, dflt)]. *)
Definition dict_get_default (k : string) (dflt : value) (d : dict) : value :=
  default dflt (dict_get k d).

(** [d[k] = v]: an existing key keeps its position, a new one goes last. *)
Fixpoint dict_set (k : string) (v : value) (d : dict) : dict :=
  match d with
  | [] => [(k, v)]
  | (k', v') :: d' =>
      if String.eqb k k' then (k, v) :: d' else (k', v') :: dict_set k v d'
  end.

(** [k in d]. *)
Definition dict_mem (k : string) (d : dict) : bool :=
  match dict_get k d with Some _ => true | None => false end.

(** The characters of a string, each as a one-character string. *)
Fixpoint chars (s : string) : list string :=
  match s with
  | EmptyString => []
  | String a s' => String a EmptyString :: chars s'
  end.

(** [iter(v)]: what a [for] loop or [list.extend] walks over; [None] is
    Python's [TypeError] for a value that is not iterable. *)
Definition py_iter (v : value) : option (list value) :=
  match v with
  | VList l => Some l
  | VStr s => Some (VStr <$> chars s)
  | VDict d => Some ((fun kv => VStr kv.1) <$> d)
  | _ => None
  end.

(** [l[:k]] for a Python integer [k]: a negative bound counts from the end. *)
Definition slice_to {A : Type} (l : list A) (k : Z) : list A :=
  if 0 <=? k then take (Z.to_nat k) l
  else take (Z.to_nat (Z.of_nat (length l) + k)) l.

(** [range(0, stop, step)] for a positive [step]. *)
Definition range_step (stop step : nat) : list nat :=
  (fun j => (j * step)%nat) <$> seq 0 (Nat.div (stop + step - 1) step).

(** [sep.join(l)]. *)
Fixpoint join (sep : string) (l : list string) : string :=
  match l with
  | [] => EmptyString
  | [s] => s
  | s :: l' => s +:+ sep +:+ join sep l'
  end.

(** [str.isspace] on one character (code points below 256). *)
Definition is_space (a : ascii) : bool :=
  let n := nat_of_ascii a in
  ((9 <=? n) && (n <=? 13) || (28 <=? n) && (n <=? 32)
   || (n =? 133) || (n =? 160))%nat.

Fixpoint lstrip (s : string) : string :=
  match s with
  | EmptyString => EmptyString
  | String a s' => if is_space a then lstrip s' else s
  end.

(** [s.rstrip()]: drop the trailing run of white space. *)
Fixpoint rstrip (s : string) : string :=
  match s with
  | EmptyString => EmptyString
  | String a s' =>
      match rstrip s' with
      | EmptyString => if is_space a then EmptyString else String a EmptyString
      | r => String a r
      end
  end.

(** [s.strip()]. *)
Definition strip (s : string) : string := rstrip (lstrip s).

(** [s.split(sep)] for a one-character separator. *)
Fixpoint split (sep : ascii) (s : string) : list string :=
  match s with
  | EmptyString => [EmptyString]
  | String a s' =>
      if Ascii.eqb a sep then EmptyString :: split sep s'
      else match split sep s' with
           | [] => [String a EmptyString]
           | w :: ws => String a w :: ws
           end
  end.

(** ** Exceptions, outcomes and the world *)

Inductive exn : Type :=
| HttpError (status : Z) (content : string)
| RefreshError (msg : string)
| KeyError (k : string)
| IndexError
| TypeError
| AttributeError
| SystemExit (code : Z)
| KeyboardInterrupt
| OtherError (name : string).

Inductive outcome (A : Type) : Type :=
| Ok (a : A)
| Raise (e : exn)
| OutOfFuel.

Arguments Ok {A} a.
Arguments Raise {A} e.
Arguments OutOfFuel {A}.

(** A request built by the API client: resource, verb and keyword arguments. *)
Record Call : Type := MkCall {
  resource : string;
  verb : string;
  kwargs : dict;
}.

(** A bound method such as [youtube.playlistItems().list]. *)
Record Method : Type := MkMethod {
  m_resource : string;
  m_verb : string;
}.

Definition invoke (m : Method) (params : dict) : Call :=
  MkCall (m_resource m) (m_verb m) params.

(** [google.oauth2.credentials.Credentials], as far as [get_service] looks
    at it. *)
Record Credentials : Type := MkCredentials {
  token : option string;
  refresh_token : option string;
  expiry : option Z;
}.

Inductive AuthRequest : Type :=
| TokenRefresh (c : Credentials)
| ConsentFlow.

Record World : Type := MkWorld {
  api_log : list Call;                      (* Data API requests, oldest first *)
  auth_log : list AuthRequest;              (* authorization server requests *)
  credentials_file : option Credentials;    (* CREDENTIALS_FILE, None = absent *)
  cache_writes : list Credentials;          (* every CREDENTIALS_FILE.write_text *)
  client_secrets_file : bool;               (* CLIENT_SECRETS_FILE.exists() *)
  deps_installed : bool;                    (* the imports of _check_deps succeed *)
  stdout : list string;
  stderr : list string;
  sleeps : nat;                             (* calls of time.sleep *)
}.

(** What lies outside the program. *)
Record Env : Type := MkEnv {
  (* the Data API: the reply to a request, given the requests made before *)
  remote : list Call -> Call -> exn + dict;
  (* creds.refresh(Request()) *)
  auth_server : list AuthRequest -> Credentials -> exn + Credentials;
  (* flow.run_local_server(port=0, open_browser=True) *)
  consent : list AuthRequest -> exn + Credentials;
  (* the wall clock, in seconds *)
  now : Z;
  (* Python's str(), used by the f-strings *)
  str_of : value -> string;
  (* the message main() extracts from an HttpError *)
  describe_error : exn -> string;
  (* str(Path.home()) *)
  home : string;
}.

Definition M (A : Type) : Type := World -> outcome A * World.

Definition ret {A : Type} (a : A) : M A := fun w => (Ok a, w).

Definition bind {A B : Type} (c : M A) (k : A -> M B) : M B :=
  fun w =>
    match c w with
    | (Ok a, w') => k a w'
    | (Raise e, w') => (Raise e, w')
    | (OutOfFuel, w') => (OutOfFuel, w')
    end.

Definition raise {A : Type} (e : exn) : M A := fun w => (Raise e, w).

Definition out_of_fuel {A : Type} : M A := fun w => (OutOfFuel, w).

Declare Scope py_scope.
Delimit Scope py_scope with py.
Notation "'let*' x ':=' c 'in' k" := (bind c (fun x => k))
  (at level 10, x pattern, c at level 100, k at level 200) : py_scope.
Notation "c ;;; k" := (bind c (fun _ => k))
  (at level 100, right associativity) : py_scope.
Open Scope py_scope.

(** Lift a partial operation, raising [e] where it is undefined. *)
Definition or_raise {A : Type} (e : exn) (o : option A) : M A :=
  match o with Some a => ret a | None => raise e end.

Definition set_api_log (l : list Call) (w : World) : World :=
  MkWorld l (auth_log w) (credentials_file w) (cache_writes w)
          (client_secrets_file w) (deps_installed w) (stdout w) (stderr w) (sleeps w).

Definition set_stdout (l : list string) (w : World) : World :=
  MkWorld (api_log w) (auth_log w) (credentials_file w) (cache_writes w)
          (client_secrets_file w) (deps_installed w) l (stderr w) (sleeps w).

Definition set_stderr (l : list string) (w : World) : World :=
  MkWorld (api_log w) (auth_log w) (credentials_file w) (cache_writes w)
          (client_secrets_file w) (deps_installed w) (stdout w) l (sleeps w).

Definition set_sleeps (n : nat) (w : World) : World :=
  MkWorld (api_log w) (auth_log w) (credentials_file w) (cache_writes w)
          (client_secrets_file w) (deps_installed w) (stdout w) (stderr w) n.

Definition set_auth_log (l : list AuthRequest) (w : World) : World :=
  MkWorld (api_log w) l (credentials_file w) (cache_writes w)
          (client_secrets_file w) (deps_installed w) (stdout w) (stderr w) (sleeps w).

(** [CREDENTIALS_FILE.write_text(creds.to_json())], the directory having
    been created if need be. *)
Definition write_credentials (c : Credentials) (w : World) : World :=
  MkWorld (api_log w) (auth_log w) (Some c) (cache_writes w ++ [c])
          (client_secrets_file w) (deps_installed w) (stdout w) (stderr w) (sleeps w).

Definition print (s : string) : M unit :=
  fun w => (Ok tt, set_stdout (stdout w ++ [s]) w).

Definition eprint (s : string) : M unit :=
  fun w => (Ok tt, set_stderr (stderr w ++ [s]) w).

(** [sys.exit(code)]. *)
Definition sys_exit {A : Type} (code : Z) : M A := raise (SystemExit code).

(** [time.sleep(...)]. *)
Definition sleep : M unit := fun w => (Ok tt, set_sleeps (S (sleeps w)) w).

(** A [for] loop over a list, threading the variables it assigns. *)
Fixpoint for_each {A S : Type} (body : S -> A -> M S) (l : list A) (s : S) : M S :=
  match l with
  | [] => ret s
  | a :: l' => let* s' := body s a in for_each body l' s'
  end.

(** [v[k]] for a string key. *)
Definition getitem (v : value) (k : string) : M value :=
  match v with
  | VDict d => or_raise (KeyError k) (dict_get k d)
  | _ => raise TypeError
  end.

(** [v[0]]. *)
Definition getitem0 (v : value) : M value :=
  match v with
  | VList (x :: _) => ret x
  | VList [] => raise IndexError
  | VStr (String a _) => ret (VStr (String a EmptyString))
  | VStr EmptyString => raise IndexError
  | VDict _ => raise (KeyError "0")
  | _ => raise TypeError
  end.

(** [v[k] = x] for a string key; the updated object is returned. *)
Definition setitem (v : value) (k : string) (x : value) : M value :=
  match v with
  | VDict d => ret (VDict (dict_set k x d))
  | _ => raise TypeError
  end.

(** [v[:n]] on a value. *)
Definition slice_value (v : value) (n : nat) : M value :=
  match v with
  | VStr s => ret (VStr (String.substring 0 n s))
  | VList l => ret (VList (take n l))
  | _ => raise TypeError
  end.

Definition nl : string := String "010" EmptyString.

Definition nonempty (s : string) : bool := negb (String.eqb s EmptyString).

(** The arguments of [videos update], as argparse leaves them. *)
Module Args.
Record t : Type := Mk {
  video_id : string;
  title : option string;
  description : option string;
  tags : option string;
  category : option string;
  privacy : option string;
  publish_at : option string;
}.
End Args.

Section Program.

Variable env : Env.

(** [request.execute()]: the request is sent (and logged) whether or not the
    remote side answers with an error. *)
Definition execute (c : Call) : M dict :=
  fun w =>
    (match remote env (api_log w) c with
     | inl e => Raise e
     | inr d => Ok d
     end,
     set_api_log (api_log w ++ [c]) w).

(** ** [_paginate] *)

(** [limit is not None and len(collected) >= limit]. *)
Definition limit_reached (limit : option Z) (collected : list value) : bool :=
  match limit with
  | None => false
  | Some k => k <=? Z.of_nat (length collected)
  end.

(** One turn of the [while True] loop per unit of fuel. *)
Fixpoint _paginate_loop (fuel : nat) (method : Method) (params : dict)
    (key : string) (limit : option Z)
    (collected : list value) (next_page : value) : M (list value) :=
  match fuel with
  | O => out_of_fuel
  | S fuel' =>
      let params :=
        if truthy next_page then dict_set "pageToken" next_page params
        else params in
      let* resp := execute (invoke method params) in
      let batch := dict_get_default key (VList []) resp in
      let* items := or_raise TypeError (py_iter batch) in
      let collected := collected ++ items in
      let next_page := dict_get_default "nextPageToken" VNone resp in
      if negb (truthy next_page) || limit_reached limit collected
      then ret collected
      else _paginate_loop fuel' method params key limit collected next_page
  end.

(** [collected[:limit] if limit else collected]. *)
Definition truncate (limit : option Z) (collected : list value) : list value :=
  match limit with
  | None => collected
  | Some k => if k =? 0 then collected else slice_to collected k
  end.

Definition _paginate (fuel : nat) (method : Method) (params : dict)
    (key : string) (limit : option Z) : M (list value) :=
  let* collected := _paginate_loop fuel method params key limit [] VNone in
  ret (truncate limit collected).

(** ** [_fetch_video_details] *)

(** [youtube.videos().list(part=part, id=id)]. *)
Definition videos_list (part id : string) : Call :=
  MkCall "videos" "list" [("part", VStr part); ("id", VStr id)].

(** [youtube.videos().update(part=part, body=body)]. *)
Definition videos_update (part : string) (body : value) : Call :=
  MkCall "videos" "update" [("part", VStr part); ("body", body)].

(** [details[item["id"]] = item].  Identifiers are strings; an item whose
    ["id"] is of another type is refused. *)
Definition store_item (details : gmap string value) (item : value)
    : M (gmap string value) :=
  match item with
  | VDict d =>
      match dict_get "id" d with
      | Some (VStr i) => ret (<[i := item]> details)
      | Some _ => raise TypeError
      | None => raise (KeyError "id")
      end
  | _ => raise TypeError
  end.

(** The body of [for i in range(0, len(video_ids), 50)]. *)
Definition fetch_batch (video_ids : list string) (part : string)
    (details : gmap string value) (i : nat) : M (gmap string value) :=
  let batch := take 50 (drop i video_ids) in
  let* resp := execute (videos_list part (join "," batch)) in
  let* items := or_raise TypeError (py_iter (dict_get_default "items" (VList []) resp)) in
  for_each store_item items details.

Definition _fetch_video_details (video_ids : list string) (part : string)
    : M (gmap string value) :=
  for_each (fetch_batch video_ids part)
           (range_step (length video_ids) 50) ∅.

(** ** [get_service] *)

(** The auth library's [REFRESH_THRESHOLD], 3 min 45 s: a token counts as
    expired that long before its expiry. *)
Definition REFRESH_THRESHOLD : Z := 225.

(** [creds.expired]: [utcnow() >= expiry - REFRESH_THRESHOLD] when there is
    an expiry; a credential without one never expires. *)
Definition expired (c : Credentials) : bool :=
  match expiry c with
  | Some e => e - REFRESH_THRESHOLD <=? now env
  | None => false
  end.

(** [creds.valid]: a token is present and it has not expired. *)
Definition valid (c : Credentials) : bool :=
  match token c with
  | Some _ => negb (expired c)
  | None => false
  end.

(** [bool(creds.refresh_token)]. *)
Definition has_refresh_token (c : Credentials) : bool :=
  match refresh_token c with
  | Some s => nonempty s
  | None => false
  end.

Definition _check_deps : M unit :=
  fun w =>
    if deps_installed w then ret tt w
    else (eprint "Missing dependencies. Run:  bash scripts/setup.sh" ;;;
          sys_exit 1) w.

(** [creds.refresh(Request())]: one request to the authorization server. *)
Definition refresh (c : Credentials) : M Credentials :=
  fun w =>
    (match auth_server env (auth_log w) c with
     | inl e => Raise e
     | inr c' => Ok c'
     end,
     set_auth_log (auth_log w ++ [TokenRefresh c]) w).

(** [flow.run_local_server(port=0, open_browser=True)]. *)
Definition run_local_server : M Credentials :=
  fun w =>
    (match consent env (auth_log w) with
     | inl e => Raise e
     | inr c' => Ok c'
     end,
     set_auth_log (auth_log w ++ [ConsentFlow]) w).

Definition CLIENT_SECRETS_FILE : string :=
  home env +:+ "/.youtube-skill/client_secrets.json".

(** The [else] branch: the interactive consent flow. *)
Definition interactive_consent : M Credentials :=
  fun w =>
    (if negb (client_secrets_file w) then
       eprint (nl +:+ "No OAuth credentials found at:" +:+ nl +:+ "  "
               +:+ CLIENT_SECRETS_FILE +:+ nl) ;;;
       eprint ("Run setup first:" +:+ nl +:+ "  bash scripts/setup.sh" +:+ nl
               +:+ "or follow the manual steps in SKILL.md under 'Authentication'.") ;;;
       sys_exit 1
     else
       eprint "Opening browser for YouTube authorisation..." ;;;
       let* creds := run_local_server in
       eprint "Authorisation successful." ;;;
       ret creds) w.

(** The service object is represented by the credentials it was built with. *)
Definition get_service : M Credentials :=
  _check_deps ;;;
  fun w =>
    let creds := credentials_file w in
    (match creds with
     | Some c =>
         if valid c then ret c
         else
           let* creds' := (if expired c && has_refresh_token c then
                        eprint "Refreshing credentials..." ;;;
                        refresh c
                      else interactive_consent) in
           (fun w' => (Ok tt, write_credentials creds' w')) ;;;
           ret creds'
     | None =>
         let* creds' := interactive_consent in
         (fun w' => (Ok tt, write_credentials creds' w')) ;;;
         ret creds'
     end) w.

(** ** [cmd_videos_update] *)

(** [[t.strip() for t in s.split(sep) if t.strip()]]. *)
Definition split_tags (sep : ascii) (s : string) : value :=
  VList (VStr <$> filter (fun t => nonempty t = true) (strip <$> split sep s)).

(** [if flag is not None: obj[k] = f(flag); changed = True]. *)
Definition overlay (flag : option value) (k : string) (st : value * bool)
    : M (value * bool) :=
  match flag with
  | Some x => let* obj := setitem st.1 k x in ret (obj, true)
  | None => ret st
  end.

Definition cmd_videos_update (args : Args.t) : M unit :=
  let* resp := execute (videos_list "snippet,status" (Args.video_id args)) in
  if negb (truthy (dict_get_default "items" VNone resp)) then
    eprint ("Video not found: " +:+ Args.video_id args) ;;;
    sys_exit 1
  else
    let* items := getitem (VDict resp) "items" in
    let* item := getitem0 items in
    let* snippet := getitem item "snippet" in
    let* status := getitem item "status" in
    let changed := false in
    let* (snippet, changed) := overlay (VStr <$> Args.title args) "title" (snippet, changed) in
    let* (snippet, changed) := overlay (VStr <$> Args.description args) "description" (snippet, changed) in
    let* (snippet, changed) := overlay (split_tags "," <$> Args.tags args) "tags" (snippet, changed) in
    let* (snippet, changed) := overlay (VStr <$> Args.category args) "categoryId" (snippet, changed) in
    let* (status, changed) := overlay (VStr <$> Args.privacy args) "privacyStatus" (status, changed) in
    let* (status, changed) :=
      match Args.publish_at args with
      | Some p =>
          let* status := setitem status "publishAt" (VStr p) in
          let* status := setitem status "privacyStatus" (VStr "private") in
          ret (status, true)
      | None => ret (status, changed)
      end in
    if negb changed then
      print "Nothing to update. Provide at least one field to change." ;;;
      sys_exit 1
    else
      execute (videos_update "snippet,status"
                 (VDict [("id", VStr (Args.video_id args));
                         ("snippet", snippet); ("status", status)])) ;;;
      print ("Updated: https://youtu.be/" +:+ Args.video_id args) ;;;
      let* t := getitem snippet "title" in
      print ("  Title:  " +:+ str_of env t) ;;;
      let* p := getitem status "privacyStatus" in
      print ("  Status: " +:+ str_of env p).

(** ** [cmd_bulk_update] *)

(** The stripped cell of a column, the empty string when the row lacks the
    column; a cell that is not a string (the [None] that [csv.DictReader]
    puts in a short row) has no [strip]. *)
Definition cell (row : dict) (col : string) : M string :=
  match dict_get_default col (VStr EmptyString) row with
  | VStr s => ret (strip s)
  | _ => raise AttributeError
  end.

(** [if <stripped cell>: obj[k] = f(row[col].strip()); changed = True]. *)
Definition overlay_cell (row : dict) (col : string) (f : string -> value)
    (k : string) (st : value * bool) : M (value * bool) :=
  let* c := cell row col in
  if nonempty c then
    let* raw := cell row col in
    let* obj := setitem st.1 k (f raw) in ret (obj, true)
  else ret st.

(** The loop variables of [cmd_bulk_update]: the fetched records (mutated in
    place by the loop) and the two counters. *)
Record BulkState : Type := MkBulk {
  current : gmap string value;
  updated : nat;
  skipped : nat;
}.

(** The body of [for row in rows]. *)
Definition bulk_row (st : BulkState) (row : dict) : M BulkState :=
  let* vid_id := cell row "id" in
  match (if nonempty vid_id then current st !! vid_id else None) with
  | None =>
      print ("  Skip (not found): " +:+ vid_id) ;;;
      ret (MkBulk (current st) (updated st) (S (skipped st)))
  | Some item =>
      let* snippet := getitem item "snippet" in
      let* status := getitem item "status" in
      let changed := false in
      let* (snippet, changed) := overlay_cell row "title" VStr "title" (snippet, changed) in
      let* (snippet, changed) :=
        (if dict_mem "description" row then
           let* d := getitem (VDict row) "description" in
           overlay (Some d) "description" (snippet, changed)
         else ret (snippet, changed)) in
      let* (snippet, changed) :=
        (let* c := cell row "tags" in
         if nonempty c then
           let* raw := getitem (VDict row) "tags" in
           match raw with
           | VStr s => overlay (Some (split_tags "|" s)) "tags" (snippet, changed)
           | _ => raise AttributeError
           end
         else ret (snippet, changed)) in
      let* (snippet, changed) := overlay_cell row "category_id" VStr "categoryId" (snippet, changed) in
      let* (status, changed) := overlay_cell row "status" VStr "privacyStatus" (status, changed) in
      if negb changed then
        ret (MkBulk (current st) (updated st) (S (skipped st)))
      else
        (* snippet and status alias the record held in [current] *)
        let* item := setitem item "snippet" snippet in
        let* item := setitem item "status" status in
        let current' := <[vid_id := item]> (current st) in
        execute (videos_update "snippet,status"
                   (VDict [("id", VStr vid_id);
                           ("snippet", snippet); ("status", status)])) ;;;
        let* t := getitem snippet "title" in
        let* t := slice_value t 55 in
        print ("  Updated: " +:+ vid_id +:+ "  " +:+ str_of env t) ;;;
        sleep ;;;
        ret (MkBulk current' (S (updated st)) (skipped st))
  end.

(** [csv] is what [csv.DictReader] yields for [args.csv_file], [None] when
    the file does not exist. *)
Definition cmd_bulk_update (csv_file : string) (csv : option (list dict)) : M unit :=
  match csv with
  | None => eprint ("File not found: " +:+ csv_file) ;;; sys_exit 1
  | Some rows =>
      match rows with
      | [] => print "CSV is empty."
      | row0 :: _ =>
          if negb (dict_mem "id" row0) then
            eprint "CSV must have an 'id' column." ;;; sys_exit 1
          else
            let* ids := for_each (fun ids r =>
                               let* c := cell r "id" in
                               if nonempty c then
                                 let* raw := getitem (VDict r) "id" in
                                 match raw with
                                 | VStr s => ret (ids ++ [strip s])
                                 | _ => raise AttributeError
                                 end
                               else ret ids) rows [] in
            print ("Fetching current metadata for "
                   +:+ str_of env (VInt (Z.of_nat (length ids))) +:+ " videos...") ;;;
            let* current := _fetch_video_details ids "snippet,status" in
            let* st := for_each bulk_row rows (MkBulk current 0 0) in
            print (nl +:+ "Done. Updated "
                   +:+ str_of env (VInt (Z.of_nat (updated st)))
                   +:+ " videos, skipped "
                   +:+ str_of env (VInt (Z.of_nat (skipped st))) +:+ ".")
      end
  end.

(** ** [main] *)

(** The [try] of [main] around [get_service] and the handler. *)
Definition main (func : M unit) : M unit :=
  fun w =>
    match (get_service ;;; func) w with
    | (Raise KeyboardInterrupt, w') =>
        (eprint (nl +:+ "Interrupted.") ;;; sys_exit 130) w'
    | (Raise (HttpError s c), w') =>
        (eprint (describe_error env (HttpError s c)) ;;; sys_exit 1) w'
    | r => r
    end.

End Program.

(** The exit status of the process: [SystemExit] carries its own, any other
    uncaught exception ends the interpreter with status 1. *)
Definition exit_status {A : Type} (o : outcome A) : option Z :=
  match o with
  | Ok _ => Some 0
  | Raise (SystemExit c) => Some c
  | Raise _ => Some 1
  | OutOfFuel => None
  end.

(** ** Vocabulary of the statements *)

(** The cursor a page carries: [resp.get("nextPageToken")]. *)
Definition cursor (page : dict) : value :=
  dict_get_default "nextPageToken" VNone page.

(** The items of a page under [key], [None] when they cannot be iterated. *)
Definition page_items (key : string) (page : dict) : option (list value) :=
  py_iter (dict_get_default key (VList []) page).

(** The requests [_paginate] sends while the pages [prev] come back one
    after the other, starting from the loop variables [params] and
    [next_page]: a truthy cursor is written into the parameters, which then
    carry over to the next turn. *)
Fixpoint requests (method : Method) (params : dict) (next_page : value)
    (prev : list dict) : list Call :=
  let params :=
    if truthy next_page then dict_set "pageToken" next_page params
    else params in
  invoke method params ::
  match prev with
  | [] => []
  | p :: ps => requests method params (cursor p) ps
  end.

(** The remote side answers the requests [cs], sent in this order after
    [log], with the replies [rs]. *)
Fixpoint answers (env : Env) (log : list Call) (cs : list Call)
    (rs : list (exn + dict)) : Prop :=
  match cs, rs with
  | c :: cs', r :: rs' => remote env log c = r /\ answers env (log ++ [c]) cs' rs'
  | _, _ => True
  end.

(** The loop of [_paginate] goes on after a page: it carries a cursor and
    the limit has not been reached by what is collected so far. *)
Definition goes_on (limit : option Z) (collected : list value) (page : dict) : bool :=
  truthy (cursor page) && negb (limit_reached limit collected).

(** What is collected once the pages [pages] have come back, each of them
    letting the loop go on; [None] when one of them does not. *)
Fixpoint gather (key : string) (limit : option Z) (collected : list value)
    (pages : list dict) : option (list value) :=
  match pages with
  | [] => Some collected
  | p :: ps =>
      match page_items key p with
      | Some items =>
          if goes_on limit (collected ++ items) p
          then gather key limit (collected ++ items) ps
          else None
      | None => None
      end
  end.

(** A reply that ends the loop: an error, a page that cannot be iterated,
    or a page after which the loop does not go on. *)
Definition stops (key : string) (limit : option Z) (collected : list value)
    (reply : exn + dict) : Prop :=
  match reply with
  | inl _ => True
  | inr p =>
      match page_items key p with
      | Some items => goes_on limit (collected ++ items) p = false
      | None => True
      end
  end.

(** What the loop hands back when such a reply ends it. *)
Definition final (key : string) (collected : list value) (reply : exn + dict)
    : outcome (list value) :=
  match reply with
  | inl e => Raise e
  | inr p =>
      match page_items key p with
      | Some items => Ok (collected ++ items)
      | None => Raise TypeError
      end
  end.

(** The batches [_fetch_video_details] cuts [video_ids] into. *)
Definition batches (video_ids : list string) : list (list string) :=
  (fun i => take 50 (drop i video_ids)) <$> range_step (length video_ids) 50.

(** An item together with the identifier it is filed under. *)
Definition keyed (item : value) : option (string * value) :=
  match item with
  | VDict d =>
      match dict_get "id" d with
      | Some (VStr i) => Some (i, item)
      | _ => None
      end
  | _ => None
  end.

(** The keyed items of a detail response. *)
Definition keyed_items (resp : dict) : option (list (string * value)) :=
  items ← page_items "items" resp; mapM keyed items.

(** Filing items into a mapping, a later one replacing an earlier one with
    the same identifier. *)
Definition file_items (m : gmap string value) (kvs : list (string * value))
    : gmap string value :=
  foldl (fun m kv => <[kv.1 := kv.2]> m) m kvs.

(** Requests that change remote state. *)
Definition is_write (c : Call) : bool :=
  String.eqb (verb c) "update" || String.eqb (verb c) "insert"
  || String.eqb (verb c) "delete".

Definition writes (log : list Call) : list Call :=
  filter (fun c => is_write c = true) log.

(** What the specification calls [NoOpUpdateError]: the handler prints its
    nothing-to-update message and exits with status 1. *)
Definition NoOpUpdateError (w : World) (r : outcome unit * World) : Prop :=
  r.1 = Raise (SystemExit 1) /\
  stdout r.2 = stdout w ++ ["Nothing to update. Provide at least one field to change."].

(** A cell of a CSV row that counts as empty: the column is missing, or the
    cell is blank once stripped. *)
Definition blank_cell (row : dict) (col : string) : Prop :=
  match dict_get col row with
  | None => True
  | Some (VStr s) => strip s = EmptyString
  | Some _ => False
  end.

(** All cells of the columns the bulk update reads are strings. *)
Definition text_row (row : dict) : Prop :=
  forall col v, dict_get col row = Some v -> exists s, v = VStr s.

(** ** Test doubles *)

(** A remote side that answers the i-th request it receives with the i-th
    entry of a script, whatever the request. *)
Definition scripted (script : list (exn + dict)) : list Call -> Call -> exn + dict :=
  fun log _ => default (inl (OtherError "StopIteration")) (script !! length log).

(** An environment around a scripted remote side; the authorization server
    hands back a fresh token that expires an hour from now. *)
Definition mock_env (script : list (exn + dict)) : Env :=
  MkEnv (scripted script)
        (fun _ c => inr (MkCredentials (Some "fresh") (refresh_token c) (Some 4600)))
        (fun _ => inr (MkCredentials (Some "granted") (Some "r") (Some 4600)))
        1000
        (fun v => match v with VStr s => s | _ => "?" end)
        (fun _ => "YouTube API error")
        "/home/user".

Definition world0 : World :=
  MkWorld [] [] None [] false true [] [] 0.

(** A list page: its items and, when given, the cursor of the next page. *)
Definition page (items : list value) (next : option string) : dict :=
  ("items", VList items) ::
  match next with
  | Some t => [("nextPageToken", VStr t)]
  | None => []
  end.

(** A video resource as the detail endpoint returns it. *)
Definition snippet_of (title descr : string) : dict :=
  [("title", VStr title); ("description", VStr descr); ("categoryId", VStr "22")].

Definition status_of (privacy : string) : dict :=
  [("privacyStatus", VStr privacy); ("selfDeclaredMadeForKids", VBool false)].

Definition video_record (id title descr privacy : string) : dict :=
  [("id", VStr id); ("snippet", VDict (snippet_of title descr));
   ("status", VDict (status_of privacy))].

Definition video (id title descr privacy : string) : value :=
  VDict (video_record id title descr privacy).

Definition playlist_items : Method := MkMethod "playlistItems" "list".

(** ** Worked scenarios *)

(** A playlist of three uploads served in two pages. *)
Definition first_page : dict := page [VStr "a"; VStr "b"] (Some "t1").
Definition second_page : dict := page [VStr "c"] None.
Definition env_two_pages : Env := mock_env [inr first_page; inr second_page].

(** The same playlist, the second request failing on the remote side. *)
Definition backend_error : exn := HttpError 500 "backendError".
Definition env_page_then_error : Env :=
  mock_env [inr first_page; inl backend_error].

Definition list_params : dict :=
  [("part", VStr "contentDetails"); ("playlistId", VStr "UU1");
   ("maxResults", VInt 50)].

(** 120 identifiers [v0 .. v119]; the remote side knows three of them. *)
Definition ids120 : list string :=
  (fun n => "v" +:+ pretty n) <$> seq 0 120.

Definition detail_replies : list dict :=
  [ [("items", VList [video "v0" "Intro" "first" "public";
                      video "v1" "Setup" "second" "private"])];
    [("items", VList [])];
    [("items", VList [video "v119" "Outro" "last" "unlisted"])] ].

(** Their items, each under its identifier. *)
Definition detail_items : list (list (string * value)) :=
  [ [("v0", video "v0" "Intro" "first" "public");
     ("v1", video "v1" "Setup" "second" "private")];
    [];
    [("v119", video "v119" "Outro" "last" "unlisted")] ].

Definition env_details : Env := mock_env (inr <$> detail_replies).

(** A credential cache whose token ran out at 500 (the clock of [mock_env]
    reads 1000), and one that is good until 5000. *)
Definition stale_credentials : Credentials :=
  MkCredentials (Some "old") (Some "refresh-me") (Some 500).
Definition fresh_credentials : Credentials :=
  MkCredentials (Some "tok") (Some "refresh-me") (Some 5000).

Definition world_with_cache (c : Credentials) : World :=
  MkWorld [] [] (Some c) [] false true [] [] 0.

(** A credential whose token is good for one more minute, and an expired
    one that cannot be refreshed. *)
Definition soon_credentials : Credentials :=
  MkCredentials (Some "tok") (Some "refresh-me") (Some 1060).

(** [videos update abc] with no flag, and with [--title New] only. *)
Definition args_no_flags : Args.t :=
  Args.Mk "abc" None None None None None None.
Definition args_title : Args.t :=
  Args.Mk "abc" (Some "New") None None None None None.

Definition abc_fetched : dict :=
  [("items", VList [video "abc" "Old" "about" "private"])].
Definition env_update : Env := mock_env [inr abc_fetched; inr []].

(** A CSV row that leaves every optional cell empty but has the
    description column. *)
Definition row_blank : dict :=
  [("id", VStr "abc"); ("title", VStr EmptyString);
   ("description", VStr EmptyString); ("tags", VStr EmptyString);
   ("category_id", VStr EmptyString); ("status", VStr EmptyString)].

Definition bulk_state_abc : BulkState :=
  MkBulk {[ "abc" := video "abc" "Old" "about" "private" ]} 0 0.

(** ** The [json] module of the standard library

    [json.dumps(v, indent=2)] and [json.loads], modelled from the library's
    documentation on the values of this file.  Texts are handled as lists
    of characters. *)

Module json.


(** *** Writing *)













(** *** Reading *)





















End json.

(** ** Further vocabulary *)


(** A request of [method] that carries the parameters [params], apart from
    the page cursor. *)
Definition carries (method : Method) (params : dict) (c : Call) : Prop :=
  resource c = m_resource method /\ verb c = m_verb method /\
  forall k, k <> "pageToken" -> dict_get k (kwargs c) = dict_get k params.

(** An environment around an arbitrary remote side, otherwise as
    [mock_env]. *)
Definition env_of_remote (r : list Call -> Call -> exn + dict) : Env :=
  MkEnv r (auth_server (mock_env [])) (consent (mock_env [])) 1000
        (str_of (mock_env [])) (describe_error (mock_env [])) "/home/user".

(** A list endpoint that hands out a cursor with every page. *)
Definition env_endless : Env :=
  env_of_remote (fun _ _ => inr (page [VStr "a"] (Some "again"))).

(** A computation that sends nothing to the Data API, whatever its
    outcome. *)
Definition keeps_log {A : Type} (c : M A) : Prop :=
  forall w, api_log (c w).2 = api_log w.

(** The keys of the snippet and of the status that [videos update] can
    assign. *)
Definition snippet_flags : list string :=
  ["title"; "description"; "tags"; "categoryId"].
Definition status_flags : list string := ["privacyStatus"; "publishAt"].

(** The value a field has after an optional assignment. *)
Definition assigned (flag : option value) (before : option value) : option value :=
  match flag with
  | Some x => Some x
  | None => before
  end.

(** [videos update abc --privacy public --publish-at 2030-01-01T00:00:00Z]. *)
Definition args_schedule : Args.t :=
  Args.Mk "abc" None None None None (Some "public") (Some "2030-01-01T00:00:00Z").

(** A detail reply without the video. *)
Definition env_missing_video : Env := mock_env [inr [("items", VList [])]].

(** A request that reads video details. *)
Definition reads_details (part : string) (c : Call) : Prop :=
  exists id, c = videos_list part id.

(** The scenario of a two-row CSV: [abc] gets a new title, [xyz] is not on
    the channel.  The remote side answers the detail request with [abc]
    alone and accepts the update; [str()] writes integers in decimal. *)
Definition rows_abc_xyz : list dict :=
  [ [("id", VStr "abc"); ("title", VStr "New")];
    [("id", VStr "xyz"); ("title", VStr EmptyString)] ].

Definition env_bulk : Env :=
  MkEnv (scripted [inr abc_fetched; inr []])
        (auth_server (mock_env [])) (consent (mock_env [])) 1000
        (fun v => match v with
                  | VStr s => s
                  | VInt n => pretty n
                  | _ => "?"
                  end)
        (describe_error (mock_env [])) "/home/user".

(** ** More of the program: channel lookup, export, deletions *)

(** [str.lower] on one character (code points below 256). *)
Definition lower_ascii (a : ascii) : ascii :=
  let n := nat_of_ascii a in
  if ((65 <=? n) && (n <=? 90)
      || (192 <=? n) && (n <=? 222) && negb (n =? 215))%nat
  then ascii_of_nat (n + 32)
  else a.

Fixpoint lower (s : string) : string :=
  match s with
  | EmptyString => EmptyString
  | String a s' => String (lower_ascii a) (lower s')
  end.

(** [v.get(k, dflt)]: only a dict has [get]. *)
Definition get (v : value) (k : string) (dflt : value) : M value :=
  match v with
  | VDict d => ret (dict_get_default k dflt d)
  | _ => raise AttributeError
  end.

(** The elements of a list when all of them are strings. *)
Definition as_strings (l : list value) : option (list string) :=
  mapM (fun v => match v with VStr s => Some s | _ => None end) l.

(** [sep.join(v)]: [v] must be iterable and yield strings only. *)
Definition join_value (sep : string) (v : value) : M value :=
  let* items := or_raise TypeError (py_iter v) in
  let* strs := or_raise TypeError (as_strings items) in
  ret (VStr (join sep strs)).

(** [input(prompt)]: the prompt goes to standard output, the answer is the
    next line of standard input ([None] when it is at its end). *)
Definition input (prompt : string) (line : option string) : M string :=
  print prompt ;;;
  or_raise (OtherError "EOFError") line.

(** [s.rjust(n)] and [s.ljust(n)]. *)
Definition spaces (n : nat) : string := string_of_list_ascii (replicate n " "%char).

Definition rjust (n : nat) (s : string) : string :=
  spaces (n - String.length s) +:+ s.

Definition ljust (n : nat) (s : string) : string :=
  s +:+ spaces (n - String.length s).

(** The output formats of [videos list], and its arguments as argparse
    leaves them. *)
Inductive ListFormat : Type := AsTable | AsCsv | AsJson.

Module ListArgs.
Record t : Type := Mk {
  limit : option Z;
  status : option string;
  format : ListFormat;
}.
End ListArgs.

(** The output format of [export]. *)
Inductive Format : Type := Csv | Json.

Section Handlers.

Variable env : Env.

(** [json.dumps(rows, indent=2)]. *)
Variable json_dumps : value -> string.

(** One line of the [csv] writer for the given cells. *)
Variable csv_line : list value -> string.

Definition _my_channel : M value :=
  let* resp := execute env
                 (MkCall "channels" "list"
                    [("part", VStr "id,snippet,contentDetails,statistics");
                     ("mine", VBool true)]) in
  let items := dict_get_default "items" (VList []) resp in
  if negb (truthy items) then
    eprint "No YouTube channel found for this account." ;;;
    sys_exit 1
  else getitem0 items.

Definition _my_channel_id : M value :=
  let* ch := _my_channel in
  getitem ch "id".

(** [channel_id] is [VNone] when the caller leaves it out. *)
Definition _uploads_playlist_id (channel_id : value) : M value :=
  let* cid := (if truthy channel_id then ret channel_id else _my_channel_id) in
  let* resp := execute env
                 (MkCall "channels" "list"
                    [("part", VStr "contentDetails"); ("id", cid)]) in
  let* items := getitem (VDict resp) "items" in
  let* item := getitem0 items in
  let* cd := getitem item "contentDetails" in
  let* rp := getitem cd "relatedPlaylists" in
  getitem rp "uploads".

(** [_fetch_video_details] as the handlers call it, on identifiers that are
    whatever the list endpoint returned: [join] refuses a batch that holds
    anything but strings. *)
Definition fetch_batch_values (video_ids : list value) (part : string)
    (details : gmap string value) (i : nat) : M (gmap string value) :=
  let batch := take 50 (drop i video_ids) in
  let* ids := or_raise TypeError (as_strings batch) in
  let* resp := execute env (videos_list part (join "," ids)) in
  let* items := or_raise TypeError (py_iter (dict_get_default "items" (VList []) resp)) in
  for_each store_item items details.

Definition _fetch_video_details_values (video_ids : list value) (part : string)
    : M (gmap string value) :=
  for_each (fetch_batch_values video_ids part)
           (range_step (length video_ids) 50) ∅.

(** [v["contentDetails"]["videoId"]]. *)
Definition video_id_of (v : value) : M value :=
  let* cd := getitem v "contentDetails" in
  getitem cd "videoId".

(** The body of [for vid_id in video_ids] in [cmd_export].  The keys of
    [details] are strings: another hashable identifier is simply not found,
    a list or a dict cannot be looked up at all. *)
Definition export_row (details : gmap string value) (rows : list dict)
    (vid_id : value) : M (list dict) :=
  match vid_id with
  | VList _ | VDict _ => raise TypeError
  | VNone | VBool _ | VInt _ => ret rows
  | VStr vid =>
      match details !! vid with
      | None => ret rows
      | Some d =>
          if negb (truthy d) then ret rows
          else
            let* s := getitem d "snippet" in
            let* title := get s "title" (VStr EmptyString) in
            let* descr := get s "description" (VStr EmptyString) in
            let* tags := (let* t := get s "tags" (VList []) in join_value "|" t) in
            let* category := get s "categoryId" (VStr EmptyString) in
            let* published := get s "publishedAt" (VStr EmptyString) in
            let* status := (let* st := getitem d "status" in
                            get st "privacyStatus" (VStr EmptyString)) in
            let* duration := (let* cd := get d "contentDetails" (VDict []) in
                              get cd "duration" (VStr EmptyString)) in
            let* views := (let* st := get d "statistics" (VDict []) in
                           get st "viewCount" (VStr EmptyString)) in
            let* likes := (let* st := get d "statistics" (VDict []) in
                           get st "likeCount" (VStr EmptyString)) in
            let* comments := (let* st := get d "statistics" (VDict []) in
                              get st "commentCount" (VStr EmptyString)) in
            ret (rows ++
                 [[("id", vid_id); ("title", title);
                   ("description", descr); ("tags", tags);
                   ("category_id", category);
                   ("published_at", published); ("status", status);
                   ("duration", duration); ("views", views);
                   ("likes", likes); ("comments", comments);
                   ("url", VStr ("https://youtu.be/" +:+ vid))]])
      end
  end.

(** [csv.DictWriter(sys.stdout, fieldnames=...)] on one row: a key outside
    the header is refused, a missing one leaves its cell empty.  Each line
    of the writer is one entry of [stdout]. *)
Definition cells_of (fieldnames : list string) (row : dict) : list value :=
  (fun k => dict_get_default k (VStr EmptyString) row) <$> fieldnames.

Definition writerow (fieldnames : list string) (row : dict) : M unit :=
  if forallb (fun k => bool_decide (k ∈ fieldnames)) row.*1
  then print (csv_line (cells_of fieldnames row))
  else raise (OtherError "ValueError").

(** [if rows: writer = ...; writer.writeheader(); writer.writerows(rows)]:
    the header is the keys of the first row; no row, no output at all. *)
Definition write_csv (rows : list dict) : M unit :=
  match rows with
  | [] => ret tt
  | row0 :: _ =>
      let fieldnames := row0.*1 in
      print (csv_line (VStr <$> fieldnames)) ;;;
      for_each (fun _ row => writerow fieldnames row) rows tt
  end.

(** The tail of [cmd_export]: the rows go out as one JSON document or as
    CSV. *)
Definition render_export (fmt : Format) (rows : list dict) : M unit :=
  match fmt with
  | Json => print (json_dumps (VList (VDict <$> rows)))
  | Csv => write_csv rows
  end.

Definition cmd_export (fuel : nat) (fmt : Format) : M unit :=
  let* uploads_id := _uploads_playlist_id VNone in
  let* items := _paginate env fuel (MkMethod "playlistItems" "list")
                  [("part", VStr "contentDetails");
                   ("playlistId", uploads_id); ("maxResults", VInt 50)]
                  "items" None in
  let* video_ids := for_each (fun ids v =>
                                let* i := video_id_of v in ret (ids ++ [i]))
                             items [] in
  let* details := _fetch_video_details_values video_ids
                    "snippet,status,statistics,contentDetails" in
  let* rows := for_each (export_row details) video_ids [] in
  render_export fmt rows.

(** *** [cmd_videos_list] *)

(** [args.limit or 50]. *)
Definition limit_or_50 (limit : option Z) : Z :=
  match limit with
  | Some n => if n =? 0 then 50 else n
  | None => 50
  end.

(** [details.get(vid, {})]: the keys of [details] are strings, so another
    hashable identifier finds nothing; a list or a dict cannot be looked
    up. *)
Definition details_get (details : gmap string value) (vid : value) : M value :=
  match vid with
  | VList _ | VDict _ => raise TypeError
  | VStr i => ret (default (VDict []) (details !! i))
  | VNone | VBool _ | VInt _ => ret (VDict [])
  end.

(** The condition of the status filter:
    [details.get(vid, {}).get("status", {}).get("privacyStatus") == status]. *)
Definition privacy_is (details : gmap string value) (status : string)
    (vid : value) : M bool :=
  let* d := details_get details vid in
  let* st := get d "status" (VDict []) in
  let* p := get st "privacyStatus" VNone in
  ret (match p with
       | VStr s => String.eqb s status
       | _ => false
       end).

(** [f"{v}"] for an identifier. *)
Definition interpolate (v : value) : string :=
  match v with
  | VStr s => s
  | _ => str_of env v
  end.

(** The body of [for vid_id in video_ids] in [cmd_videos_list]. *)
Definition list_row (details : gmap string value) (rows : list dict)
    (vid_id : value) : M (list dict) :=
  let* d := details_get details vid_id in
  let* s := get d "snippet" (VDict []) in
  let* st := get d "status" (VDict []) in
  let* stats := get d "statistics" (VDict []) in
  let* title := get s "title" (VStr "(deleted)") in
  let* published := (let* p := get s "publishedAt" VNone in
                     slice_value (if truthy p then p else VStr EmptyString) 10) in
  let* status := get st "privacyStatus" (VStr "?") in
  let* views := get stats "viewCount" (VStr "?") in
  let* likes := get stats "likeCount" (VStr "?") in
  let* comments := get stats "commentCount" (VStr "?") in
  ret (rows ++
       [[("id", vid_id); ("title", title); ("published", published);
         ("status", status); ("views", views); ("likes", likes);
         ("comments", comments);
         ("url", VStr ("https://youtu.be/" +:+ interpolate vid_id))]]).

(** [format(v, "9")], the [{...:9}] of an f-string: text goes to the left
    of its field, a number to the right, and a boolean counts as a
    number. *)
Definition format9 (v : value) : M string :=
  match v with
  | VStr s => ret (ljust 9 s)
  | VInt n => ret (rjust 9 (pretty n))
  | VBool b => ret (rjust 9 (if b then "1" else "0"))
  | VNone | VList _ | VDict _ => raise TypeError
  end.

(** One line of the table. *)
Definition table_line (r : dict) : M string :=
  let* t := getitem (VDict r) "title" in
  let* title := slice_value t 52 in
  let* v := getitem (VDict r) "views" in
  let views := rjust 9 (str_of env v) in
  let* id := getitem (VDict r) "id" in
  let* status := getitem (VDict r) "status" in
  let* status9 := format9 status in
  let* published := getitem (VDict r) "published" in
  ret (interpolate id +:+ "  " +:+ status9 +:+ "  " +:+ views +:+ " views  "
       +:+ interpolate published +:+ "  " +:+ interpolate title).

Definition cmd_videos_list (fuel : nat) (args : ListArgs.t) : M unit :=
  let* uploads_id := _uploads_playlist_id VNone in
  let limit := limit_or_50 (ListArgs.limit args) in
  let* items := _paginate env fuel (MkMethod "playlistItems" "list")
                  [("part", VStr "snippet,contentDetails");
                   ("playlistId", uploads_id);
                   ("maxResults", VInt (Z.min 50 limit))]
                  "items" (Some limit) in
  let* video_ids := for_each (fun ids v =>
                                let* i := video_id_of v in ret (ids ++ [i]))
                             items [] in
  let* details := _fetch_video_details_values video_ids
                    "snippet,status,statistics" in
  let* video_ids :=
    match ListArgs.status args with
    | Some status =>
        if nonempty status then
          for_each (fun kept vid =>
                      let* keep := privacy_is details status vid in
                      ret (if keep then kept ++ [vid] else kept))
                   video_ids []
        else ret video_ids
    | None => ret video_ids
    end in
  let* rows := for_each (list_row details) video_ids [] in
  match ListArgs.format args with
  | AsJson => print (json_dumps (VList (VDict <$> rows)))
  | AsCsv => write_csv rows
  | AsTable =>
      for_each (fun _ r => let* line := table_line r in print line) rows tt
  end.

(** [youtube.videos().delete(id=id)] and its playlist counterparts. *)
Definition delete_call (res : string) (id : value) : Call :=
  MkCall res "delete" [("id", id)].

(** [answer] is the line typed at the prompt, if any.  The early [return]
    after [Aborted.] is the branch that ends without the request. *)
Definition cmd_videos_delete (yes : bool) (video_id : string)
    (answer : option string) : M unit :=
  let proceed :=
    execute env (delete_call "videos" (VStr video_id)) ;;;
    print ("Deleted: " +:+ video_id) in
  if negb yes then
    let* confirm := input ("Permanently delete video " +:+ video_id
                           +:+ "? This cannot be undone. [y/N] ") answer in
    if negb (String.eqb (lower (strip confirm)) "y") then print "Aborted."
    else proceed
  else proceed.

Definition cmd_playlists_delete (yes : bool) (playlist_id : string)
    (answer : option string) : M unit :=
  let proceed :=
    execute env (delete_call "playlists" (VStr playlist_id)) ;;;
    print ("Deleted playlist: " +:+ playlist_id) in
  if negb yes then
    let* confirm := input ("Delete playlist " +:+ playlist_id +:+ "? [y/N] ")
                          answer in
    if negb (String.eqb (lower (strip confirm)) "y") then print "Aborted."
    else proceed
  else proceed.

(** [youtube.playlistItems().list(part="id", playlistId=..., videoId=...)]. *)
Definition playlist_entry_lookup (playlist_id video_id : string) : Call :=
  MkCall "playlistItems" "list"
         [("part", VStr "id"); ("playlistId", VStr playlist_id);
          ("videoId", VStr video_id)].

Definition cmd_playlists_remove (playlist_id video_id : string) : M unit :=
  let* resp := execute env (playlist_entry_lookup playlist_id video_id) in
  let items := dict_get_default "items" (VList []) resp in
  if negb (truthy items) then
    eprint ("Video " +:+ video_id +:+ " not found in playlist " +:+ playlist_id) ;;;
    sys_exit 1
  else
    let* item := getitem0 items in
    let* entry := getitem item "id" in
    execute env (delete_call "playlistItems" entry) ;;;
    print ("Removed " +:+ video_id +:+ " from " +:+ playlist_id).

End Handlers.

(** The answers that the deletion prompts take for a yes. *)
Definition says_yes (line : string) : bool :=
  String.eqb (strip line) "y" || String.eqb (strip line) "Y".

(** A computation all of whose requests satisfy [P], whatever its
    outcome. *)
Definition sends_only {A : Type} (P : Call -> Prop) (c : M A) : Prop :=
  forall w, exists sent,
    api_log (c w).2 = api_log w ++ sent /\ Forall P sent.

(** The identifier a row of the export carries. *)
Definition row_id (row : dict) : option value := dict_get "id" row.

(** An identifier whose record was fetched. *)
Definition fetched (details : gmap string value) (vid_id : value) : bool :=
  match vid_id with
  | VStr vid =>
      match details !! vid with
      | Some d => truthy d
      | None => false
      end
  | _ => false
  end.

(** The uploads playlist named by a channel reply:
    [resp["items"][0]["contentDetails"]["relatedPlaylists"]["uploads"]]. *)
Definition uploads_of (resp : dict) : option value :=
  match dict_get "items" resp with
  | Some (VList (VDict ch :: _)) =>
      match dict_get "contentDetails" ch with
      | Some (VDict cd) =>
          match dict_get "relatedPlaylists" cd with
          | Some (VDict rp) => dict_get "uploads" rp
          | _ => None
          end
      | _ => None
      end
  | _ => None
  end.

(** The three requests of an export that finds no upload. *)
Definition my_channel_call : Call :=
  MkCall "channels" "list"
         [("part", VStr "id,snippet,contentDetails,statistics");
          ("mine", VBool true)].

Definition channel_details_call (cid : value) : Call :=
  MkCall "channels" "list" [("part", VStr "contentDetails"); ("id", cid)].

Definition uploads_page_call (uploads_id : value) : Call :=
  MkCall "playlistItems" "list"
         [("part", VStr "contentDetails"); ("playlistId", uploads_id);
          ("maxResults", VInt 50)].

(** The columns of the export, in the order of the rows' keys. *)
Definition export_columns : list string :=
  ["id"; "title"; "description"; "tags"; "category_id"; "published_at";
   "status"; "duration"; "views"; "likes"; "comments"; "url"].

Definition is_dict (v : value) : bool :=
  match v with
  | VDict _ => true
  | _ => false
  end.

(** A detail record as the export reads it: the snippet and the status are
    dicts, the tags (if any) are strings, the content details and the
    statistics (if any) are dicts. *)
Definition exportable (d : value) : bool :=
  match d with
  | VDict dd =>
      match dict_get "snippet" dd, dict_get "status" dd with
      | Some (VDict s), Some (VDict _) =>
          match py_iter (dict_get_default "tags" (VList []) s) with
          | Some tags =>
              match as_strings tags with
              | Some _ => true
              | None => false
              end
          | None => false
          end
          && is_dict (dict_get_default "contentDetails" (VDict []) dd)
          && is_dict (dict_get_default "statistics" (VDict []) dd)
      | _, _ => false
      end
  | _ => false
  end.

(** The video an entry of the uploads playlist names, when it is a string:
    [v["contentDetails"]["videoId"]]. *)
Definition entry_video_id (v : value) : option string :=
  match v with
  | VDict e =>
      match dict_get "contentDetails" e with
      | Some (VDict cd) =>
          match dict_get "videoId" cd with
          | Some (VStr i) => Some i
          | _ => None
          end
      | _ => None
      end
  | _ => None
  end.

(** What the export prints for its rows. *)
Definition export_lines (json_dumps : value -> string)
    (csv_line : list value -> string) (fmt : Format) (rows : list dict)
    : list string :=
  match fmt with
  | Json => [json_dumps (VList (VDict <$> rows))]
  | Csv =>
      match rows with
      | [] => []
      | _ :: _ =>
          csv_line (VStr <$> export_columns)
          :: ((fun row => csv_line (cells_of export_columns row)) <$> rows)
      end
  end.

(** The columns of [videos list]. *)
Definition list_columns : list string :=
  ["id"; "title"; "published"; "status"; "views"; "likes"; "comments"; "url"].

Definition is_str (v : value) : bool :=
  match v with
  | VStr _ => true
  | _ => false
  end.

(** A detail record as [videos list] reads it: the snippet, the status and
    the statistics (if any) are dicts, the title and the privacy status (if
    any) are strings, and so is the publication date unless it is absent
    or falsy. *)
Definition listable (d : value) : bool :=
  match d with
  | VDict dd =>
      match dict_get_default "snippet" (VDict []) dd,
            dict_get_default "status" (VDict []) dd,
            dict_get_default "statistics" (VDict []) dd with
      | VDict s, VDict st, VDict _ =>
          is_str (dict_get_default "title" (VStr "(deleted)") s)
          && (is_str (dict_get_default "publishedAt" VNone s)
              || negb (truthy (dict_get_default "publishedAt" VNone s)))
          && is_str (dict_get_default "privacyStatus" (VStr "?") st)
      | _, _, _ => false
      end
  | _ => false
  end.

(** The video [i] has a record whose privacy status is [status]. *)
Definition has_privacy (details : gmap string value) (status : string)
    (i : string) : bool :=
  match details !! i with
  | Some (VDict dd) =>
      match dict_get "status" dd with
      | Some (VDict st) =>
          match dict_get "privacyStatus" st with
          | Some (VStr s) => String.eqb s status
          | _ => false
          end
      | _ => false
      end
  | _ => false
  end.

(** The identifiers that pass the filter of [--status]. *)
Definition passes (details : gmap string value) (status : option string)
    (i : string) : bool :=
  match status with
  | Some s => if nonempty s then has_privacy details s i else true
  | None => true
  end.

(** A row the table can print: its title and its status are strings. *)
Definition printable_row (row : dict) : Prop :=
  exists id t p st v,
    dict_get "id" row = Some id /\ dict_get "title" row = Some (VStr t)
    /\ dict_get "published" row = Some p
    /\ dict_get "status" row = Some (VStr st)
    /\ dict_get "views" row = Some v.


(** ** Further scenarios *)



(** A machine without the client libraries. *)
Definition world_no_deps : World :=
  MkWorld [] [] None [] false false [] [] 0.

(** The detail endpoint answers the first batch and fails on the second. *)
Definition first_detail_reply : dict :=
  [("items", VList [video "v0" "Intro" "first" "public";
                    video "v1" "Setup" "second" "private"])].

Definition env_details_then_error : Env :=
  mock_env [inr first_detail_reply; inl backend_error].

(** The remote side fails on the first request. *)
Definition env_backend_down : Env := mock_env [inl backend_error].

(** A reply that lists nothing. *)
Definition env_nothing_listed : Env := mock_env [inr [("items", VList [])]].

(** The playlist lookup finds the entry [PLI1]; its deletion is accepted. *)
Definition entry_found : dict :=
  [("items", VList [VDict [("id", VStr "PLI1")]])].

Definition env_playlist_entry : Env := mock_env [inr entry_found; inr []].

(** Stand-ins for the library writers: cells joined by commas without
    quoting, and a JSON document abbreviated to its number of rows. *)
Definition csv_plain (cells : list value) : string :=
  join "," ((fun v => match v with VStr s => s | _ => "?" end) <$> cells).

Definition json_plain (v : value) : string :=
  match v with
  | VList l => pretty (length l) +:+ " rows"
  | _ => "?"
  end.

(** A channel [UC1] whose uploads playlist [UU1] lists [abc] and [gone];
    the detail endpoint knows [abc] only. *)
Definition own_channel : dict := [("id", VStr "UC1")].

Definition channel_reply : dict := [("items", VList [VDict own_channel])].

Definition channel_details_reply : dict :=
  [("items",
    VList [VDict [("contentDetails",
                   VDict [("relatedPlaylists",
                           VDict [("uploads", VStr "UU1")])])]])].

Definition upload_entry (id : string) : value :=
  VDict [("contentDetails", VDict [("videoId", VStr id)])].

Definition uploads_listed : list value := [upload_entry "abc"; upload_entry "gone"].

Definition env_export : Env :=
  mock_env [inr channel_reply; inr channel_details_reply;
            inr (page uploads_listed None); inr abc_fetched].

Definition export_details : gmap string value :=
  {[ "abc" := video "abc" "Old" "about" "private" ]}.

(** The requests of that export, and the states it passes through. *)
Definition export_calls : list Call :=
  [my_channel_call; channel_details_call (VStr "UC1");
   uploads_page_call (VStr "UU1");
   videos_list "snippet,status,statistics,contentDetails" "abc,gone"].

Definition export_world (n : nat) : World :=
  set_api_log (take n export_calls) world0.

(** [videos list --limit 0] on the same channel, printed as a table. *)
Definition args_list_zero : ListArgs.t := ListArgs.Mk (Some 0) None AsTable.

Definition list_calls : list Call :=
  [my_channel_call; channel_details_call (VStr "UC1");
   MkCall "playlistItems" "list"
          [("part", VStr "snippet,contentDetails"); ("playlistId", VStr "UU1");
           ("maxResults", VInt 50)];
   videos_list "snippet,status,statistics" "abc,gone"].

Definition list_world (n : nat) : World :=
  set_api_log (take n list_calls) world0.

(** * Facts *)

(** ** The monad *)

Lemma set_api_log_same w : set_api_log (api_log w) w = w.
Proof. by destruct w. Qed.

Lemma set_api_log_twice l l' w : set_api_log l (set_api_log l' w) = set_api_log l w.
Proof. done. Qed.

Lemma api_log_set l w : api_log (set_api_log l w) = l.
Proof. done. Qed.

Lemma bind_ok {A B} (c : M A) (k : A -> M B) w a w' :
  c w = (Ok a, w') -> bind c k w = k a w'.
Proof. unfold bind. by intros ->. Qed.

Lemma bind_raise {A B} (c : M A) (k : A -> M B) w e w' :
  c w = (Raise e, w') -> bind c k w = (Raise e, w').
Proof. unfold bind. by intros ->. Qed.

Lemma execute_eq env c w :
  execute env c w =
  (match remote env (api_log w) c with inl e => Raise e | inr d => Ok d end,
   set_api_log (api_log w ++ [c]) w).
Proof. done. Qed.

(** ** Dictionaries *)

Lemma dict_get_set_eq k v d : dict_get k (dict_set k v d) = Some v.
Proof.
  induction d as [|[k' v'] d IH]; simpl.
  - by rewrite String.eqb_refl.
  - destruct (String.eqb k k') eqn:E; simpl.
    + by rewrite String.eqb_refl.
    + by rewrite E.
Qed.

Lemma dict_get_set_ne k k' v d : k <> k' -> dict_get k' (dict_set k v d) = dict_get k' d.
Proof.
  intros Hne. induction d as [|[k0 v0] d IH]; simpl.
  - destruct (String.eqb k' k) eqn:E; [|done].
    apply String.eqb_eq in E. congruence.
  - destruct (String.eqb k k0) eqn:E; simpl.
    + apply String.eqb_eq in E. subst k0.
      destruct (String.eqb k' k) eqn:E'; [|done].
      apply String.eqb_eq in E'. congruence.
    + by rewrite IH.
Qed.

(** Assigning to a key that is present leaves the order of the keys alone. *)
Lemma dict_set_keys k v d :
  is_Some (dict_get k d) -> (dict_set k v d).*1 = d.*1.
Proof.
  induction d as [|[k' v'] d IH]; simpl.
  - by intros [? ?].
  - destruct (String.eqb k k') eqn:E; simpl.
    + apply String.eqb_eq in E. by subst.
    + intros H. f_equal. by apply IH.
Qed.

(** ** The paginator *)

Section PaginateFacts.

Variable env : Env.
Variable method : Method.
Variable key : string.
Variable limit : option Z.

(** One turn of the loop. *)
Lemma paginate_loop_turn fuel params collected next_page w :
  _paginate_loop env (S fuel) method params key limit collected next_page w =
  let params0 :=
    if truthy next_page then dict_set "pageToken" next_page params else params in
  let w' := set_api_log (api_log w ++ [invoke method params0]) w in
  match remote env (api_log w) (invoke method params0) with
  | inl e => (Raise e, w')
  | inr resp =>
      match page_items key resp with
      | None => (Raise TypeError, w')
      | Some items =>
          if goes_on limit (collected ++ items) resp
          then _paginate_loop env fuel method params0 key limit
                 (collected ++ items) (cursor resp) w'
          else (Ok (collected ++ items), w')
      end
  end.
Proof.
  cbn [_paginate_loop]. unfold bind at 1. rewrite execute_eq.
  destruct (remote env _ _) as [e|resp]; [done|].
  unfold bind at 1, page_items, goes_on, cursor.
  destruct (py_iter _) as [items|]; cbn; [|done].
  by destruct (truthy _), (limit_reached _ _).
Qed.

(** The loop over a run of pages that all let it go on, ended by a reply
    that stops it: every request is sent once, in order, and the outcome is
    that of the last reply. *)
Lemma paginate_loop_run pages :
  forall fuel params collected next_page w collected' last,
    gather key limit collected pages = Some collected' ->
    stops key limit collected' last ->
    answers env (api_log w) (requests method params next_page pages)
            ((inr <$> pages) ++ [last]) ->
    _paginate_loop env (length pages + S fuel) method params key limit
                   collected next_page w
    = (final key collected' last,
       set_api_log (api_log w ++ requests method params next_page pages) w).
Proof.
  induction pages as [|p ps IH];
    intros fuel params collected next_page w collected' last Hg Hs Ha.
  - cbn in Hg. injection Hg as <-.
    cbn [length Nat.add]. rewrite paginate_loop_turn. cbn zeta.
    cbn in Ha. destruct Ha as [-> _].
    cbn [requests]. destruct last as [e|resp]; [done|].
    cbn in Hs |- *. destruct (page_items key resp); [|done]. by rewrite Hs.
  - cbn [gather] in Hg.
    destruct (page_items key p) as [items|] eqn:Hi; [|done].
    destruct (goes_on limit (collected ++ items) p) eqn:Hgo; [|done].
    cbn [length Nat.add]. rewrite paginate_loop_turn. cbn zeta.
    cbn [requests fmap list_fmap app] in Ha. destruct Ha as [-> Ha].
    rewrite Hi, Hgo.
    rewrite (IH fuel _ _ _ (set_api_log _ w) collected' last Hg Hs Ha).
    cbn [requests]. rewrite api_log_set, set_api_log_twice.
    by rewrite <- app_assoc.
Qed.

End PaginateFacts.

Section PaginateTheorems.

Variable env : Env.
Variable method : Method.
Variable key : string.

Lemma gather_unlimited pages :
  forall collected itemss,
    Forall (fun p => truthy (cursor p) = true) pages ->
    mapM (page_items key) pages = Some itemss ->
    gather key None collected pages = Some (collected ++ concat itemss).
Proof.
  induction pages as [|p ps IH]; intros collected itemss Hc Hm.
  - cbn in Hm. injection Hm as <-. cbn. by rewrite app_nil_r.
  - apply Forall_cons in Hc as [Hp Hc].
    rewrite mapM_Some in Hm. apply Forall2_cons_inv_l in Hm as (its & itss & Hi & Hm & ->).
    cbn [gather]. rewrite Hi. unfold goes_on. rewrite Hp. cbn.
    rewrite (IH _ itss Hc); [by rewrite app_assoc|by apply mapM_Some].
Qed.

Lemma mapM_snoc_inv {A B} (f : A -> option B) l a r :
  mapM f (l ++ [a]) = Some r ->
  exists r' b, mapM f l = Some r' /\ f a = Some b /\ r = r' ++ [b].
Proof.
  rewrite mapM_Some. intros H.
  apply Forall2_app_inv_l in H as (r' & rb & H1 & H2 & ->).
  apply Forall2_cons_inv_l in H2 as (b & nil' & Hb & Hn & ->).
  apply Forall2_nil_inv_l in Hn as ->.
  exists r', b. by rewrite mapM_Some.
Qed.

Lemma requests_length params next_page pages :
  length (requests method params next_page pages) = S (length pages).
Proof.
  revert params next_page. induction pages as [|p ps IH]; intros; cbn; [done|].
  by rewrite IH.
Qed.

(** X1.  Pagination without a limit (the limit-free half of C1).  When the
    remote side serves the pages
    [pages ++ [last]] (all but the last carrying a cursor), [_paginate]
    with [limit = None] sends one request per page, each later one with the
    cursor of the page before, and hands back the items of all pages in
    page-then-within-page order: as many items as the page sizes sum to. *)
Theorem paginate_unlimited params pages last itemss w fuel :
  Forall (fun p => truthy (cursor p) = true) pages ->
  truthy (cursor last) = false ->
  mapM (page_items key) (pages ++ [last]) = Some itemss ->
  answers env (api_log w) (requests method params VNone pages)
          (inr <$> (pages ++ [last])) ->
  (length pages < fuel)%nat ->
  _paginate env fuel method params key None w
  = (Ok (concat itemss),
     set_api_log (api_log w ++ requests method params VNone pages) w)
  /\ length (concat itemss) = sum_list (length <$> itemss)
  /\ length (requests method params VNone pages) = length (pages ++ [last]).
Proof.
  intros Hc Hl Hm Ha Hf.
  apply mapM_snoc_inv in Hm as (its & it & Hm & Hi & ->).
  split; [|split].
  - unfold _paginate.
    replace fuel with (length pages + S (fuel - S (length pages)))%nat by lia.
    rewrite fmap_app in Ha.
    unfold bind.
    rewrite (paginate_loop_run env method key None pages _ params [] VNone w
               ([] ++ concat its) (inr last)); [| | |exact Ha].
    + cbn. rewrite Hi. cbn. by rewrite concat_app; cbn; rewrite app_nil_r.
    + by apply gather_unlimited.
    + cbn. rewrite Hi. unfold goes_on. by rewrite Hl.
  - clear. induction (its ++ [it]) as [|x l IH]; cbn; [done|].
    rewrite length_app. by rewrite IH.
  - rewrite requests_length, length_app. cbn. lia.
Qed.

End PaginateTheorems.

Section PaginateLimit.

Variable env : Env.
Variable method : Method.
Variable key : string.
Variable k : Z.

(** With a limit, the loop fetches whole pages until the limit is reached
    or the pages run out: [n] pages, the least number that will do. *)
Lemma paginate_loop_limited pages :
  forall fuel params collected next_page w last itemss,
    Forall (fun p => truthy (cursor p) = true) pages ->
    truthy (cursor last) = false ->
    mapM (page_items key) (pages ++ [last]) = Some itemss ->
    answers env (api_log w) (requests method params next_page pages)
            (inr <$> (pages ++ [last])) ->
    (length pages < fuel)%nat ->
    exists n : nat,
      (1 <= n <= S (length pages))%nat /\
      _paginate_loop env fuel method params key (Some k) collected next_page w
      = (Ok (collected ++ concat (take n itemss)),
         set_api_log
           (api_log w ++ take n (requests method params next_page pages)) w) /\
      ((n <= length pages)%nat ->
       k <= Z.of_nat (length (collected ++ concat (take n itemss)))) /\
      (forall j, (1 <= j < n)%nat ->
                 Z.of_nat (length (collected ++ concat (take j itemss))) < k).
Proof.
  induction pages as [|p ps IH];
    intros fuel params collected next_page w last itemss Hc Hl Hm Ha Hf.
  - destruct fuel as [|fuel]; [cbn in Hf; lia|].
    cbn in Hm. destruct (page_items key last) as [it|] eqn:Hi; [|done].
    cbn in Hm. injection Hm as <-.
    exists 1%nat. split; [cbn; lia|]. split; [|split].
    + rewrite paginate_loop_turn. cbn zeta.
      cbn in Ha. destruct Ha as [-> _]. rewrite Hi.
      unfold goes_on. rewrite Hl. cbn. by rewrite app_nil_r.
    + cbn. lia.
    + intros j Hj. lia.
  - destruct fuel as [|fuel]; [cbn in Hf; lia|].
    apply Forall_cons in Hc as [Hp Hc].
    cbn [app] in Hm. rewrite mapM_Some in Hm.
    apply Forall2_cons_inv_l in Hm as (its & itss & Hi & Hm & ->).
    apply mapM_Some in Hm.
    cbn [requests fmap list_fmap app] in Ha. destruct Ha as [Hr Ha].
    destruct (goes_on (Some k) (collected ++ its) p) eqn:Hgo.
    + destruct (IH fuel _ (collected ++ its) (cursor p) (set_api_log _ w)
                  last itss Hc Hl Hm Ha ltac:(cbn in Hf; lia))
        as (n & Hn & Hrun & Hreach & Hmin).
      exists (S n). split; [cbn; lia|]. split; [|split].
      * rewrite paginate_loop_turn. cbn zeta. rewrite Hr, Hi, Hgo, Hrun.
        cbn [take concat requests]. rewrite api_log_set, set_api_log_twice.
        by rewrite <- !app_assoc.
      * intros Hle. cbn [take concat]. rewrite app_assoc. apply Hreach.
        cbn in Hle. lia.
      * intros j Hj. destruct j as [|j]; [lia|].
        cbn [take concat]. rewrite app_assoc.
        destruct j as [|j].
        -- cbn. rewrite app_nil_r. unfold goes_on in Hgo. rewrite Hp in Hgo.
           cbn in Hgo. apply negb_true_iff, Z.leb_gt in Hgo. exact Hgo.
        -- apply Hmin. lia.
    + exists 1%nat. split; [cbn; lia|]. split; [|split].
      * rewrite paginate_loop_turn. cbn zeta. rewrite Hr, Hi, Hgo.
        cbn [take concat requests]. by rewrite app_nil_r.
      * intros _. cbn [take concat]. rewrite app_nil_r.
        unfold goes_on in Hgo. rewrite Hp in Hgo. cbn in Hgo.
        apply negb_false_iff, Z.leb_le in Hgo. exact Hgo.
      * intros j Hj. lia.
Qed.

End PaginateLimit.

Section PaginateClaims.

Variable env : Env.
Variable method : Method.
Variable key : string.

(** X2.  Pagination with a positive limit [k] (C1 for every limit but
    zero).  The result is the first [k]
    items of the unlimited result (all of it when there are fewer).  Whole
    pages are fetched, [n] of them, the least number that reaches [k]; the
    cut is made once, on what those pages hold together. *)
Theorem paginate_limit_prefix params pages last itemss w fuel k :
  Forall (fun p => truthy (cursor p) = true) pages ->
  truthy (cursor last) = false ->
  mapM (page_items key) (pages ++ [last]) = Some itemss ->
  answers env (api_log w) (requests method params VNone pages)
          (inr <$> (pages ++ [last])) ->
  (length pages < fuel)%nat ->
  0 < k ->
  exists n : nat,
    (1 <= n <= length (pages ++ [last]))%nat /\
    _paginate env fuel method params key (Some k) w
    = (Ok (take (Z.to_nat k) (concat itemss)),
       set_api_log
         (api_log w ++ take n (requests method params VNone pages)) w) /\
    take (Z.to_nat k) (concat itemss)
    = take (Z.to_nat k) (concat (take n itemss)) /\
    (forall j, (1 <= j < n)%nat ->
               Z.of_nat (length (concat (take j itemss))) < k) /\
    (k < Z.of_nat (length (concat itemss)) ->
     length (take (Z.to_nat k) (concat itemss)) = Z.to_nat k).
Proof.
  intros Hc Hl Hm Ha Hf Hk.
  destruct (paginate_loop_limited env method key k pages fuel params [] VNone
              w last itemss Hc Hl Hm Ha Hf) as (n & Hn & Hrun & Hreach & Hmin).
  assert (Hlen : length itemss = S (length pages)).
  { apply length_mapM in Hm. rewrite length_app in Hm. cbn in Hm. lia. }
  assert (Hcut : take (Z.to_nat k) (concat itemss)
                 = take (Z.to_nat k) (concat (take n itemss))).
  { destruct (decide (n <= length pages)%nat) as [Hle|Hgt].
    - specialize (Hreach Hle). cbn [app] in Hreach.
      rewrite <- (take_drop n itemss) at 1. rewrite concat_app.
      rewrite take_app_le; [done|lia].
    - rewrite (take_ge itemss n); [done|lia]. }
  exists n. split; [rewrite length_app; cbn; lia|]. split; [|split; [|split]].
  - unfold _paginate, bind. rewrite Hrun. cbn [app truncate ret].
    replace (k =? 0) with false by (symmetry; apply Z.eqb_neq; lia).
    unfold slice_to. replace (0 <=? k) with true by (symmetry; apply Z.leb_le; lia).
    by rewrite Hcut.
  - exact Hcut.
  - intros j Hj. exact (Hmin j Hj).
  - intros Hlt. rewrite length_take. lia.
Qed.

(** With [limit = 0] the first page is fetched and handed back whole. *)
(** C10.  Called with [limit = 0], [_paginate] sends exactly one request
    (the stop test [len(collected) >= 0] holds after the first page) and
    hands back every item of that first page: the final
    [collected[:limit] if limit else collected] takes the else branch for
    [0] and truncates nothing. *)
Theorem paginate_limit_zero params resp items w fuel :
  remote env (api_log w) (invoke method params) = inr resp ->
  page_items key resp = Some items ->
  _paginate env (S fuel) method params key (Some 0) w
  = (Ok items, set_api_log (api_log w ++ [invoke method params]) w).
Proof.
  intros Hr Hi. unfold _paginate, bind. rewrite paginate_loop_turn.
  cbn zeta. cbn [truthy]. rewrite Hr, Hi.
  unfold goes_on, limit_reached.
  replace (0 <=? Z.of_nat (length ([] ++ items))) with true
    by (symmetry; apply Z.leb_le; lia).
  by rewrite andb_false_r.
Qed.

(** C8.  When the pages [pages] come back, each letting the loop go on, and
    the next request fails with [e], [_paginate] raises [e]: the failed
    request is the last one sent (it is not retried, nothing follows it),
    and what was collected from the earlier pages is not handed out.  The
    caller sees the error, never a partial list. *)
Theorem paginate_error_propagates params limit pages collected e w fuel :
  gather key limit [] pages = Some collected ->
  answers env (api_log w) (requests method params VNone pages)
          ((inr <$> pages) ++ [inl e]) ->
  (length pages < fuel)%nat ->
  _paginate env fuel method params key limit w
  = (Raise e, set_api_log (api_log w ++ requests method params VNone pages) w)
  /\ length (requests method params VNone pages) = S (length pages).
Proof.
  intros Hg Ha Hf. split; [|apply requests_length].
  unfold _paginate, bind.
  replace fuel with (length pages + S (fuel - S (length pages)))%nat by lia.
  by rewrite (paginate_loop_run env method key limit pages _ params [] VNone w
                collected (inl e) Hg I Ha).
Qed.

End PaginateClaims.

(** ** The batch detail fetcher *)

Lemma range_step_0 step : range_step 0 (S step) = [].
Proof.
  unfold range_step. replace (0 + S step - 1)%nat with step by lia.
  by rewrite Nat.div_small by lia.
Qed.

Lemma range_step_pos n step :
  (0 < n)%nat ->
  range_step n (S step)
  = 0%nat :: ((fun i => (i + S step)%nat) <$> range_step (n - S step) (S step)).
Proof.
  intros Hn. unfold range_step.
  assert (((n + S step - 1) / S step)%nat
          = S ((n - S step + S step - 1) / S step)%nat) as ->.
  { destruct (decide (n <= S step)%nat) as [Hle|Hgt].
    - replace (n - S step)%nat with 0%nat by lia.
      replace (0 + S step - 1)%nat with step by lia.
      rewrite (Nat.div_small step) by lia.
      replace (n + S step - 1)%nat with ((n - 1) + 1 * S step)%nat by lia.
      rewrite Nat.div_add by lia. rewrite Nat.div_small by lia. done.
    - replace (n + S step - 1)%nat
        with ((n - S step + S step - 1) + 1 * S step)%nat by lia.
      rewrite Nat.div_add by lia. lia. }
  cbn [seq fmap list_fmap]. f_equal.
  rewrite <- fmap_S_seq, <- !list_fmap_compose.
  apply list_fmap_ext. intros ? j ?. cbn. lia.
Qed.

Lemma batches_nil : batches [] = [].
Proof. unfold batches. cbn [length]. by rewrite range_step_0. Qed.

Lemma batches_cons (l : list string) :
  l <> [] -> batches l = take 50 l :: batches (drop 50 l).
Proof.
  intros Hl. unfold batches.
  rewrite range_step_pos by (destruct l; [done|cbn; lia]).
  cbn [fmap list_fmap]. f_equal.
  rewrite length_drop, <- list_fmap_compose.
  apply list_fmap_ext. intros ? i ?. cbn.
  by rewrite drop_drop, (Nat.add_comm 50 i).
Qed.

(** Induction along the way the list is cut. *)
Lemma batches_ind (P : list string -> list (list string) -> Prop) :
  P [] [] ->
  (forall l, l <> [] -> P (drop 50 l) (batches (drop 50 l)) ->
             P l (take 50 l :: batches (drop 50 l))) ->
  forall l, P l (batches l).
Proof.
  intros Hnil Hcons l.
  remember (length l) as n eqn:Hn. revert l Hn.
  induction n as [n IH] using lt_wf_ind. intros l Hn.
  destruct (decide (l = [])) as [->|Hne].
  - by rewrite batches_nil.
  - rewrite batches_cons by done. apply Hcons; [done|].
    apply (IH (length (drop 50 l))); [|done].
    rewrite length_drop. destruct l; [done|]. cbn in Hn |- *. lia.
Qed.

Lemma batches_concat l : concat (batches l) = l.
Proof.
  apply (batches_ind (fun l bs => concat bs = l)); [done|].
  intros l' _ IH. cbn [concat]. rewrite IH. apply take_drop.
Qed.

Lemma batches_sizes l :
  Forall (fun b => (1 <= length b <= 50)%nat) (batches l).
Proof.
  apply (batches_ind (fun l bs => Forall (fun b => (1 <= length b <= 50)%nat) bs));
    [done|].
  intros l' Hne IH. constructor; [|done].
  rewrite length_take. destruct l'; [done|]. cbn [length]. lia.
Qed.

(** Every batch but the last holds exactly 50 identifiers. *)
Lemma batches_full l j b :
  batches l !! j = Some b -> (S j < length (batches l))%nat -> length b = 50%nat.
Proof.
  revert j b.
  apply (batches_ind (fun l bs => forall j b,
           bs !! j = Some b -> (S j < length bs)%nat -> length b = 50%nat)).
  - intros j b Hj. done.
  - intros l' Hne IH j b Hj Hlen. destruct j as [|j].
    + cbn [lookup list_lookup] in Hj. injection Hj as <-. cbn [length] in Hlen.
      rewrite length_take.
      destruct (decide (drop 50 l' = [])) as [Hd|Hd].
      * rewrite Hd, batches_nil in Hlen. cbn [length] in Hlen. lia.
      * assert (50 < length l')%nat; [|lia].
        destruct (decide (50 < length l')%nat); [done|].
        rewrite drop_ge in Hd by lia. done.
    + cbn [length] in Hlen. apply (IH j b Hj). lia.
Qed.

Lemma batches_length l : length (batches l) = ((length l + 49) / 50)%nat.
Proof.
  unfold batches, range_step. rewrite !length_fmap, length_seq.
  by replace (length l + 50 - 1)%nat with (length l + 49)%nat by lia.
Qed.

Lemma file_items_snoc m kvs kv :
  file_items m (kvs ++ [kv]) = <[kv.1 := kv.2]> (file_items m kvs).
Proof. unfold file_items. by rewrite foldl_app. Qed.

(** The record filed under an identifier is the last one that carries it. *)
Lemma file_items_lookup m kvs x :
  file_items m kvs !! x
  = match last (filter (fun kv => kv.1 = x) kvs) with
    | Some kv => Some kv.2
    | None => m !! x
    end.
Proof.
  induction kvs as [|kv kvs IH] using rev_ind; [done|].
  rewrite file_items_snoc, filter_app.
  destruct (decide (kv.1 = x)) as [<-|Hne].
  - rewrite lookup_insert_eq.
    rewrite (filter_cons_True _ kv []) by done.
    by rewrite filter_nil, last_snoc.
  - rewrite lookup_insert_ne by done.
    rewrite (filter_cons_False _ kv []) by done.
    by rewrite filter_nil, app_nil_r.
Qed.

Lemma file_items_absent m kvs x :
  x ∉ kvs.*1 -> file_items m kvs !! x = m !! x.
Proof.
  intros Hx. rewrite file_items_lookup.
  destruct (last _) as [kv|] eqn:Hl; [|done].
  apply last_Some_elem_of, list_elem_of_filter in Hl as [Hk Hin].
  exfalso. apply Hx. apply list_elem_of_fmap. by exists kv.
Qed.

Lemma file_items_app m kvs kvs' :
  file_items m (kvs ++ kvs') = file_items (file_items m kvs) kvs'.
Proof. unfold file_items. by rewrite foldl_app. Qed.

Section FetchFacts.

Variable env : Env.

Lemma store_items_ok items :
  forall kvs m w,
    mapM keyed items = Some kvs ->
    for_each store_item items m w = (Ok (file_items m kvs), w).
Proof.
  induction items as [|item items IH]; intros kvs m w Hm.
  - cbn in Hm. by injection Hm as <-.
  - rewrite mapM_Some in Hm.
    apply Forall2_cons_inv_l in Hm as (kv & kvs' & Hk & Hm & ->).
    apply mapM_Some in Hm.
    cbn [for_each]. unfold bind at 1.
    unfold keyed in Hk. unfold store_item.
    destruct item as [| | | | |d]; try done.
    destruct (dict_get "id" d) as [[| | |i| |]|]; try done.
    injection Hk as <-. cbn. by rewrite (IH kvs').
Qed.

(** The loop over the batch offsets: one request per offset, in order, the
    replies filed as they arrive. *)
Lemma fetch_loop_ok video_ids part offsets :
  forall rs kvss m w,
    answers env (api_log w)
            ((fun i => videos_list part (join "," (take 50 (drop i video_ids))))
               <$> offsets)
            (inr <$> rs) ->
    length rs = length offsets ->
    mapM keyed_items rs = Some kvss ->
    for_each (fetch_batch env video_ids part) offsets m w
    = (Ok (file_items m (concat kvss)),
       set_api_log
         (api_log w ++
            ((fun i => videos_list part (join "," (take 50 (drop i video_ids))))
               <$> offsets)) w).
Proof.
  induction offsets as [|i offsets IH]; intros rs kvss m w Ha Hlen Hm.
  - destruct rs; [|done]. cbn in Hm. injection Hm as <-.
    cbn. by rewrite app_nil_r, set_api_log_same.
  - destruct rs as [|r rs]; [done|].
    cbn [fmap list_fmap] in Ha. destruct Ha as [Hr Ha].
    rewrite mapM_Some in Hm.
    apply Forall2_cons_inv_l in Hm as (kvs & kvss' & Hk & Hm & ->).
    apply mapM_Some in Hm.
    unfold keyed_items in Hk.
    destruct (page_items "items" r) as [items|] eqn:Hi; [|done]. cbn in Hk.
    cbn [for_each]. unfold bind at 1.
    unfold fetch_batch at 1. unfold bind at 1. rewrite execute_eq, Hr.
    unfold bind at 1. unfold page_items in Hi. rewrite Hi. cbn [or_raise ret].
    rewrite (store_items_ok items kvs m _ Hk).
    rewrite (IH rs kvss' _ (set_api_log _ w) Ha ltac:(cbn in Hlen; lia) Hm).
    rewrite api_log_set, set_api_log_twice.
    cbn [concat fmap list_fmap]. rewrite file_items_app.
    by rewrite <- app_assoc.
Qed.

(** The fetcher as a whole, when every request is answered. *)
Lemma fetch_video_details_run video_ids part rs kvss w :
  answers env (api_log w)
          ((fun b => videos_list part (join "," b)) <$> batches video_ids)
          (inr <$> rs) ->
  length rs = length (batches video_ids) ->
  mapM keyed_items rs = Some kvss ->
  _fetch_video_details env video_ids part w
  = (Ok (file_items ∅ (concat kvss)),
     set_api_log
       (api_log w ++
          ((fun b => videos_list part (join "," b)) <$> batches video_ids)) w).
Proof.
  intros Ha Hlen Hm.
  unfold _fetch_video_details. unfold batches in Ha, Hlen |- *.
  rewrite <- list_fmap_compose in Ha |- *. rewrite length_fmap in Hlen.
  by apply (fetch_loop_ok _ _ _ rs).
Qed.

(** C2.  [_fetch_video_details] cuts [video_ids] into consecutive batches
    that concatenate back to [video_ids], each holding between 1 and 50
    identifiers and every one but the last exactly 50; it sends exactly one
    [videos().list] request per batch, in order, with the batch joined by
    commas; and when every request is answered it returns all the items of
    all replies in one mapping, each under its identifier (a later item
    replacing an earlier one with the same identifier). *)
Theorem fetch_video_details_batches video_ids part rs kvss w :
  answers env (api_log w)
          ((fun b => videos_list part (join "," b)) <$> batches video_ids)
          (inr <$> rs) ->
  length rs = length (batches video_ids) ->
  mapM keyed_items rs = Some kvss ->
  _fetch_video_details env video_ids part w
  = (Ok (file_items ∅ (concat kvss)),
     set_api_log
       (api_log w ++
          ((fun b => videos_list part (join "," b)) <$> batches video_ids)) w)
  /\ concat (batches video_ids) = video_ids
  /\ Forall (fun b => (1 <= length b <= 50)%nat) (batches video_ids)
  /\ (forall j b, batches video_ids !! j = Some b ->
                  (S j < length (batches video_ids))%nat -> length b = 50%nat)
  /\ length (batches video_ids) = ((length video_ids + 49) / 50)%nat
  /\ (forall x, file_items ∅ (concat kvss) !! x
                = (fun kv => kv.2) <$> last (filter (fun kv => kv.1 = x) (concat kvss))).
Proof.
  intros Ha Hlen Hm.
  split; [|split; [|split; [|split; [|split]]]].
  - by apply (fetch_video_details_run _ _ rs).
  - apply batches_concat.
  - apply batches_sizes.
  - apply batches_full.
  - apply batches_length.
  - intros x. rewrite file_items_lookup. by destruct (last _).
Qed.

End FetchFacts.

Section BulkFacts.

Variable env : Env.

(** A row whose identifier was not fetched is counted as skipped: nothing
    is sent and nothing is raised. *)
Lemma bulk_row_missing st row s w :
  dict_get "id" row = Some (VStr s) ->
  current st !! strip s = None ->
  bulk_row env st row w
  = (Ok (MkBulk (current st) (updated st) (S (skipped st))),
     set_stdout (stdout w ++ ["  Skip (not found): " +:+ strip s]) w).
Proof.
  intros Hid Hcur. unfold bulk_row, cell, dict_get_default.
  rewrite Hid. cbn [default from_option id]. unfold bind at 1, ret at 1.
  cbn beta iota. rewrite Hcur. by destruct (nonempty (strip s)).
Qed.

(** C7.  An identifier [x] that no reply carries is absent from the mapping
    [_fetch_video_details] returns, whether or not it was asked for; the
    fetcher returns normally.  The bulk update, a caller, takes the missing
    key as not found: the row is counted as skipped and nothing is raised. *)
Theorem fetch_video_details_absent video_ids part rs kvss w x :
  answers env (api_log w)
          ((fun b => videos_list part (join "," b)) <$> batches video_ids)
          (inr <$> rs) ->
  length rs = length (batches video_ids) ->
  mapM keyed_items rs = Some kvss ->
  x ∉ (concat kvss).*1 ->
  exists details,
    _fetch_video_details env video_ids part w
    = (Ok details,
       set_api_log
         (api_log w ++
            ((fun b => videos_list part (join "," b)) <$> batches video_ids)) w)
    /\ details !! x = None
    /\ (forall row n_updated n_skipped w',
          dict_get "id" row = Some (VStr x) -> strip x = x ->
          bulk_row env (MkBulk details n_updated n_skipped) row w'
          = (Ok (MkBulk details n_updated (S n_skipped)),
             set_stdout (stdout w' ++ ["  Skip (not found): " +:+ x]) w')).
Proof.
  intros Ha Hlen Hm Hx.
  pose proof (fetch_video_details_run env video_ids part rs kvss w Ha Hlen Hm)
    as Hrun.
  exists (file_items ∅ (concat kvss)). split; [exact Hrun|].
  assert (Hnone : file_items ∅ (concat kvss) !! x = None).
  { by rewrite file_items_absent. }
  split; [exact Hnone|].
  intros row n_updated n_skipped w' Hid Hs.
  rewrite (bulk_row_missing _ row x w' Hid); cbn [current updated skipped];
    rewrite Hs; done.
Qed.

End BulkFacts.

(** ** The credential store *)

Section CredentialFacts.

Variable env : Env.

Lemma check_deps_ok w : deps_installed w = true -> _check_deps w = (Ok tt, w).
Proof. unfold _check_deps. by intros ->. Qed.

(** C3, as amended.  With a credential cache on disk: if the token's
    expiry is past or at most 3 min 45 s ahead (the auth library's refresh
    threshold) and a refresh token is there, [get_service] sends exactly
    one refresh request to the authorization server and nothing to the Data
    API; when the server accepts, the refreshed credential is written over
    the cache (when it refuses, the error propagates and the cache is left
    alone).  If the cached credential has a token whose expiry lies more
    than 3 min 45 s ahead, [get_service] returns it with the world
    untouched: no request, no write. *)
Theorem get_service_cached_credential w c :
  deps_installed w = true ->
  credentials_file w = Some c ->
  (forall e rt,
      expiry c = Some e -> e <= now env + REFRESH_THRESHOLD ->
      refresh_token c = Some rt -> rt <> EmptyString ->
      exists w',
        get_service env w
        = (match auth_server env (auth_log w) c with
           | inr c' => Ok c'
           | inl err => Raise err
           end, w')
        /\ auth_log w' = auth_log w ++ [TokenRefresh c]
        /\ api_log w' = api_log w
        /\ match auth_server env (auth_log w) c with
           | inr c' => credentials_file w' = Some c'
                       /\ cache_writes w' = cache_writes w ++ [c']
           | inl _ => credentials_file w' = Some c
                      /\ cache_writes w' = cache_writes w
           end)
  /\ (forall e tk,
        expiry c = Some e -> now env + REFRESH_THRESHOLD < e ->
        token c = Some tk ->
        get_service env w = (Ok c, w)).
Proof.
  intros Hdeps Hfile. split.
  - intros e rt He Hpast Hrt Hne.
    unfold get_service, bind at 1. rewrite (check_deps_ok w Hdeps), Hfile.
    assert (Hexp : expired env c = true).
    { unfold expired. rewrite He. apply Z.leb_le. lia. }
    assert (Hval : valid env c = false).
    { unfold valid. rewrite Hexp. by destruct (token c). }
    assert (Hhas : has_refresh_token c = true).
    { unfold has_refresh_token, nonempty. rewrite Hrt.
      apply negb_true_iff, String.eqb_neq, Hne. }
    rewrite Hval, Hexp, Hhas. cbn [andb].
    unfold bind, eprint, refresh, ret. cbn.
    destruct (auth_server env (auth_log w) c) as [err|c'];
      eexists; (split; [reflexivity|]); cbn; rewrite ?Hfile; done.
  - intros e tk He Hfut Htk.
    unfold get_service, bind at 1. rewrite (check_deps_ok w Hdeps), Hfile.
    assert (Hval : valid env c = true).
    { unfold valid, expired. rewrite Htk, He.
      apply negb_true_iff, Z.leb_gt. lia. }
    by rewrite Hval.
Qed.

End CredentialFacts.

(** ** The update handler *)

Lemma writes_app l l' : writes (l ++ l') = writes l ++ writes l'.
Proof. unfold writes. apply filter_app. Qed.

Section UpdateFacts.

Variable env : Env.

(** Without a field flag the handler stops before any write: it reads the
    video once and then fails. *)
Lemma update_without_flags_run args w :
  Args.title args = None ->
  Args.description args = None ->
  Args.tags args = None ->
  Args.category args = None ->
  Args.privacy args = None ->
  Args.publish_at args = None ->
  let wl := set_api_log
              (api_log w ++ [videos_list "snippet,status" (Args.video_id args)]) w in
  exists e w',
    cmd_videos_update env args w = (Raise e, w')
    /\ api_log w' = api_log wl
    /\ (forall resp item rest sn st,
          remote env (api_log w) (videos_list "snippet,status" (Args.video_id args))
          = inr resp ->
          dict_get "items" resp = Some (VList (VDict item :: rest)) ->
          dict_get "snippet" item = Some sn ->
          dict_get "status" item = Some st ->
          e = SystemExit 1 /\
          stdout w' = stdout w ++
            ["Nothing to update. Provide at least one field to change."]).
Proof.
  intros Ht Hd Hg Hc Hp Hs wl.
  unfold cmd_videos_update. rewrite Ht, Hd, Hg, Hc, Hp, Hs.
  unfold bind at 1. rewrite execute_eq. fold wl.
  destruct (remote env _ _) as [e|resp] eqn:Hr.
  { exists e, wl. repeat split; intros; done. }
  destruct (truthy (dict_get_default "items" VNone resp)) eqn:Hi; cbn [negb].
  2:{ eexists _, _. split; [reflexivity|]. split; [done|].
      intros ? ? ? ? ? Hr' Hit'. injection Hr' as <-.
      unfold dict_get_default in Hi. by rewrite Hit' in Hi. }
  unfold dict_get_default in Hi.
  unfold getitem at 1. unfold bind at 1.
  destruct (dict_get "items" resp) as [items|] eqn:Hitems; [|done].
  cbn [or_raise ret].
  assert (Hcases :
    (exists x, getitem0 items = ret x /\
               forall y l, items = VList (y :: l) -> x = y)
    \/ (exists e, getitem0 items = raise e /\
                  forall y l, items <> VList (y :: l))).
  { destruct items as [| | |[|? ?]|[|? ?]|]; cbn;
      try (right; eexists; split; [reflexivity|]; intros; discriminate).
    - left. eexists; split; [reflexivity|]. intros; discriminate.
    - left. eexists; split; [reflexivity|]. intros ? ? H. by injection H. }
  destruct Hcases as [(item & Hit & Hhd)|(e & Hit & Hno)];
    rewrite Hit; unfold bind at 1; cbn [ret raise].
  2:{ eexists _, _. split; [reflexivity|]. split; [done|].
      intros ? ? ? ? ? Hr' Hit'. injection Hr' as <-.
      rewrite Hit' in Hitems. injection Hitems as <-. exfalso. by eapply Hno. }
  unfold getitem at 1.
  destruct item as [| | | | |item];
    try (eexists _, _; split; [reflexivity|]; split; [done|];
         intros ? ? ? ? ? Hr' Hit'; injection Hr' as <-;
         rewrite Hit' in Hitems; injection Hitems as <-; by specialize (Hhd _ _ eq_refl)).
  unfold bind at 1.
  destruct (dict_get "snippet" item) as [sn|] eqn:Hsn; cbn [or_raise ret raise].
  2:{ eexists _, _. split; [reflexivity|]. split; [done|].
      intros ? ? ? ? ? Hr' Hit' Hsn'. injection Hr' as <-.
      rewrite Hit' in Hitems. injection Hitems as <-. specialize (Hhd _ _ eq_refl).
      injection Hhd as ->. by rewrite Hsn' in Hsn. }
  unfold getitem at 1, bind at 1.
  destruct (dict_get "status" item) as [st|] eqn:Hst; cbn [or_raise ret raise].
  2:{ eexists _, _. split; [reflexivity|]. split; [done|].
      intros ? ? ? ? ? Hr' Hit' Hsn' Hst'. injection Hr' as <-.
      rewrite Hit' in Hitems. injection Hitems as <-. specialize (Hhd _ _ eq_refl).
      injection Hhd as ->. by rewrite Hst' in Hst. }
  eexists _, _. split; [reflexivity|]. split; [done|].
  intros; done.
Qed.

(** C4.  [videos update] without any field flag never succeeds and never
    writes: whatever the remote side answers, the only request sent is the
    read of the video, and no update request follows.  When that read finds
    the video, the handler fails with the nothing-to-update error and the
    process exits with status 1. *)
Theorem update_without_flags args w :
  Args.title args = None ->
  Args.description args = None ->
  Args.tags args = None ->
  Args.category args = None ->
  Args.privacy args = None ->
  Args.publish_at args = None ->
  (exists e, (cmd_videos_update env args w).1 = Raise e)
  /\ api_log (cmd_videos_update env args w).2
     = api_log w ++ [videos_list "snippet,status" (Args.video_id args)]
  /\ writes (api_log (cmd_videos_update env args w).2) = writes (api_log w)
  /\ (forall resp item rest sn st,
        remote env (api_log w) (videos_list "snippet,status" (Args.video_id args))
        = inr resp ->
        dict_get "items" resp = Some (VList (VDict item :: rest)) ->
        dict_get "snippet" item = Some sn ->
        dict_get "status" item = Some st ->
        NoOpUpdateError w (cmd_videos_update env args w)
        /\ exit_status (cmd_videos_update env args w).1 = Some 1).
Proof.
  intros Ht Hd Hg Hc Hp Hs.
  destruct (update_without_flags_run args w Ht Hd Hg Hc Hp Hs)
    as (e & w' & -> & Hlog & Hfound).
  cbn [fst snd]. rewrite Hlog. cbn [api_log set_api_log].
  split; [by exists e|]. split; [done|]. split.
  - rewrite writes_app. cbn. by rewrite app_nil_r.
  - intros resp item rest sn st Hr Hit Hsn Hst.
    destruct (Hfound resp item rest sn st Hr Hit Hsn Hst) as [-> Hout].
    unfold NoOpUpdateError. by cbn.
Qed.

End UpdateFacts.

Lemma bind_ext {A B} (c : M A) (k k' : A -> M B) w :
  (forall a w', k a w' = k' a w') -> bind c k w = bind c k' w.
Proof. intros H. unfold bind. destruct (c w) as [[| |] ?]; auto. Qed.

Section UpdateTitle.

Variable env : Env.

(** C5.  [videos update --title t] with no other flag, on a video the read
    finds: exactly one update request is sent, right after the read, and its
    body is the fetched record with only the title replaced.  Every other
    snippet field reads as fetched, the status record goes out verbatim.
    When the remote side accepts it the handler ends normally. *)
Theorem update_title_only args w t resp item rest sn st :
  Args.title args = Some t ->
  Args.description args = None ->
  Args.tags args = None ->
  Args.category args = None ->
  Args.privacy args = None ->
  Args.publish_at args = None ->
  remote env (api_log w) (videos_list "snippet,status" (Args.video_id args))
  = inr resp ->
  dict_get "items" resp = Some (VList (VDict item :: rest)) ->
  dict_get "snippet" item = Some (VDict sn) ->
  dict_get "status" item = Some st ->
  let sn' := dict_set "title" (VStr t) sn in
  let fetch := videos_list "snippet,status" (Args.video_id args) in
  let upd :=
    videos_update "snippet,status"
      (VDict [("id", VStr (Args.video_id args));
              ("snippet", VDict sn'); ("status", st)]) in
  api_log (cmd_videos_update env args w).2 = api_log w ++ [fetch; upd]
  /\ writes (api_log (cmd_videos_update env args w).2)
     = writes (api_log w) ++ [upd]
  /\ dict_get "title" sn' = Some (VStr t)
  /\ (forall k, k <> "title" -> dict_get k sn' = dict_get k sn)
  /\ (forall reply p,
        remote env (api_log w ++ [fetch]) upd = inr reply ->
        dict_get "privacyStatus" (match st with VDict d => d | _ => [] end)
        = Some p ->
        (cmd_videos_update env args w).1 = Ok tt).
Proof.
  intros Ht Hd Hg Hc Hp Hs Hr Hit Hsn Hst sn' fetch upd.
  assert (Hrun :
    cmd_videos_update env args w
    = (let* _ := execute env upd in
       let* _ := print ("Updated: https://youtu.be/" +:+ Args.video_id args) in
       let* _ := print ("  Title:  " +:+ str_of env (VStr t)) in
       let* p := getitem st "privacyStatus" in
       print ("  Status: " +:+ str_of env p))
        (set_api_log (api_log w ++ [fetch]) w)).
  { unfold cmd_videos_update. rewrite Ht, Hd, Hg, Hc, Hp, Hs.
    unfold bind at 1. rewrite execute_eq, Hr.
    unfold dict_get_default. rewrite Hit. cbn [default from_option id truthy negb].
    unfold getitem at 1. rewrite Hit. cbn [or_raise]. unfold bind at 1, ret at 1.
    cbn [getitem0]. unfold bind at 1, ret at 1.
    unfold getitem at 1. rewrite Hsn. cbn [or_raise]. unfold bind at 1, ret at 1.
    unfold getitem at 1. rewrite Hst. cbn [or_raise]. unfold bind at 1, ret at 1.
    cbn [fmap option_fmap option_map overlay fst setitem].
    unfold bind at 1, ret at 1. unfold bind at 1, ret at 1.
    unfold bind at 1, ret at 1. unfold bind at 1, ret at 1.
    unfold bind at 1, ret at 1. unfold bind at 1, ret at 1.
    unfold bind at 1, ret at 1. cbn [negb].
    fold sn'. fold upd. fold fetch.
    apply bind_ext; intros _ w1. apply bind_ext; intros _ w2.
    unfold bind at 1. unfold getitem at 1. unfold sn'.
    by rewrite dict_get_set_eq. }
  rewrite Hrun. clear Hrun.
  assert (Hw : writes ((api_log w ++ [fetch]) ++ [upd])
               = writes (api_log w) ++ [upd]).
  { rewrite !writes_app. cbn. by rewrite app_nil_r. }
  unfold bind, execute, print, getitem. cbn [api_log set_api_log].
  split; [|split; [|split; [|split]]].
  - destruct (remote env _ upd); [by rewrite <- app_assoc|].
    destruct st as [| | | | |d]; cbn; try by rewrite <- app_assoc.
    destruct (dict_get "privacyStatus" d); cbn; by rewrite <- app_assoc.
  - destruct (remote env _ upd); [exact Hw|].
    destruct st as [| | | | |d]; cbn -[writes]; try exact Hw.
    destruct (dict_get "privacyStatus" d); cbn -[writes]; exact Hw.
  - apply dict_get_set_eq.
  - intros k Hk. by apply dict_get_set_ne.
  - intros reply p Hrep Hpriv. rewrite Hrep.
    destruct st as [| | | | |d]; try done.
    by rewrite Hpriv.
Qed.

End UpdateTitle.

(** ** The bulk update *)

Section BulkRowFacts.

Variable env : Env.

(** What one optional column does to the object it is overlaid on. *)
Lemma overlay_cell_run row col f k d changed :
  text_row row ->
  exists d' changed',
    (forall w, overlay_cell row col f k (VDict d, changed) w
               = (Ok (VDict d', changed'), w))
    /\ (blank_cell row col -> d' = d /\ changed' = changed)
    /\ (forall k', k <> k' -> dict_get k' d' = dict_get k' d)
    /\ (changed = true -> changed' = true).
Proof.
  intros Htext. unfold overlay_cell, cell, dict_get_default, blank_cell.
  destruct (dict_get col row) as [v|] eqn:Hv.
  - destruct (Htext col v Hv) as [s ->]. cbn [default from_option id].
    destruct (nonempty (strip s)) eqn:Hne.
    + exists (dict_set k (f (strip s)) d), true.
      split; [|split; [|split]].
      * intros w. unfold bind, ret. cbn. by rewrite Hne.
      * intros Hb. unfold nonempty in Hne. rewrite Hb in Hne. done.
      * intros k' Hk. by apply dict_get_set_ne.
      * done.
    + exists d, changed. split; [|split; [|split]]; try done.
      intros w. unfold bind, ret. cbn. by rewrite Hne.
  - exists d, changed. cbn [default from_option id].
    split; [|split; [|split]]; try done.
Qed.

(** The [tags] column. *)
Lemma overlay_tags_run row d changed :
  text_row row ->
  exists d' changed',
    (forall w,
        (let* c := cell row "tags" in
         if nonempty c then
           let* raw := getitem (VDict row) "tags" in
           match raw with
           | VStr s => overlay (Some (split_tags "|" s)) "tags" (VDict d, changed)
           | _ => raise AttributeError
           end
         else ret (VDict d, changed)) w
        = (Ok (VDict d', changed'), w))
    /\ (blank_cell row "tags" -> d' = d /\ changed' = changed)
    /\ (forall k', "tags" <> k' -> dict_get k' d' = dict_get k' d)
    /\ (changed = true -> changed' = true).
Proof.
  intros Htext. unfold cell, dict_get_default, blank_cell, getitem.
  destruct (dict_get "tags" row) as [v|] eqn:Hv.
  - destruct (Htext _ v Hv) as [s ->]. cbn [default from_option id].
    destruct (nonempty (strip s)) eqn:Hne.
    + exists (dict_set "tags" (split_tags "|" s) d), true.
      split; [|split; [|split]].
      * intros w. unfold bind, ret. cbn. by rewrite Hne.
      * intros Hb. unfold nonempty in Hne. rewrite Hb in Hne. done.
      * intros k' Hk. by apply dict_get_set_ne.
      * done.
    + exists d, changed. split; [|split; [|split]]; try done.
      intros w. unfold bind, ret. cbn. by rewrite Hne.
  - exists d, changed. cbn [default from_option id].
    split; [|split; [|split]]; try done.
Qed.

(** The [description] column: written whenever the column is there. *)
Lemma overlay_description_run row d changed :
  exists d' changed',
    (forall w,
        (if dict_mem "description" row then
           let* x := getitem (VDict row) "description" in
           overlay (Some x) "description" (VDict d, changed)
         else ret (VDict d, changed)) w
        = (Ok (VDict d', changed'), w))
    /\ (forall x, dict_get "description" row = Some x ->
                  changed' = true /\ dict_get "description" d' = Some x)
    /\ (dict_get "description" row = None -> d' = d /\ changed' = changed)
    /\ (forall k', "description" <> k' -> dict_get k' d' = dict_get k' d)
    /\ (changed = true -> changed' = true).
Proof.
  unfold dict_mem, getitem.
  destruct (dict_get "description" row) as [x|] eqn:Hx.
  - exists (dict_set "description" x d), true.
    split; [|split; [|split; [|split]]]; try done.
    + intros y Hy. injection Hy as <-. split; [done|]. apply dict_get_set_eq.
    + intros k' Hk. by apply dict_get_set_ne.
  - exists d, changed. split; [|split; [|split; [|split]]]; try done.
Qed.

End BulkRowFacts.

Section BulkRowClaim.

Variable env : Env.

(** C6.  One row of the bulk update, for a video that was fetched.  At most
    one update request goes out.  An empty cell (or a missing column) for
    title, tags, category_id or status leaves the matching field of the
    outgoing record as the fetched record has it when the row is reached.  The description column is different:
    whenever the row has it, even with an empty cell, an update goes out and
    carries the cell as the description. *)
Theorem bulk_row_blank_cells st row w rid item sn stt :
  text_row row ->
  dict_get "id" row = Some (VStr rid) ->
  strip rid <> EmptyString ->
  current st !! strip rid = Some (VDict item) ->
  dict_get "snippet" item = Some (VDict sn) ->
  dict_get "status" item = Some (VDict stt) ->
  exists sn' stt' (changed : bool),
    api_log (bulk_row env st row w).2
    = api_log w ++
      (if changed
       then [videos_update "snippet,status"
               (VDict [("id", VStr (strip rid));
                       ("snippet", VDict sn'); ("status", VDict stt')])]
       else [])
    /\ (blank_cell row "title" -> dict_get "title" sn' = dict_get "title" sn)
    /\ (blank_cell row "tags" -> dict_get "tags" sn' = dict_get "tags" sn)
    /\ (blank_cell row "category_id" ->
        dict_get "categoryId" sn' = dict_get "categoryId" sn)
    /\ (blank_cell row "status" ->
        dict_get "privacyStatus" stt' = dict_get "privacyStatus" stt)
    /\ (forall d, dict_get "description" row = Some (VStr d) ->
                  changed = true /\ dict_get "description" sn' = Some (VStr d))
    /\ (dict_get "description" row = None ->
        dict_get "description" sn' = dict_get "description" sn).
Proof.
  intros Htext Hid Hne Hcur Hsn Hst.
  destruct (overlay_cell_run row "title" VStr "title" sn false Htext)
    as (sn1 & ch1 & H1 & B1 & K1 & _).
  destruct (overlay_description_run row sn1 ch1)
    as (sn2 & ch2 & H2 & D2 & N2 & K2 & C2).
  destruct (overlay_tags_run row sn2 ch2 Htext)
    as (sn3 & ch3 & H3 & B3 & K3 & C3).
  destruct (overlay_cell_run row "category_id" VStr "categoryId" sn3 ch3 Htext)
    as (sn4 & ch4 & H4 & B4 & K4 & C4).
  destruct (overlay_cell_run row "status" VStr "privacyStatus" stt ch4 Htext)
    as (stt' & ch5 & H5 & B5 & K5 & C5).
  exists sn4, stt', ch5.
  split; [|split; [|split; [|split; [|split; [|split]]]]].
  - unfold bulk_row. unfold cell at 1, dict_get_default at 1. rewrite Hid.
    cbn [default from_option id]. unfold bind at 1, ret at 1.
    assert (nonempty (strip rid) = true) as ->.
    { unfold nonempty. apply negb_true_iff, String.eqb_neq, Hne. }
    rewrite Hcur. unfold getitem at 1. rewrite Hsn. cbn [or_raise].
    unfold bind at 1, ret at 1.
    unfold getitem at 1. rewrite Hst. cbn [or_raise].
    unfold bind at 1, ret at 1.
    unfold bind at 1. rewrite H1.
    unfold bind at 1. rewrite H2.
    unfold bind at 1. rewrite H3.
    unfold bind at 1. rewrite H4.
    unfold bind at 1. rewrite H5.
    destruct ch5; cbn [negb].
    + unfold setitem, bind at 1, ret at 1. unfold bind at 1, ret at 1.
      unfold bind at 1. rewrite execute_eq.
      destruct (remote env _ _); [done|].
      unfold bind, getitem, slice_value, print, sleep, or_raise, ret, raise.
      destruct (dict_get "title" sn4) as [[| | |?|?|]|]; done.
    + cbn. by rewrite app_nil_r.
  - intros Hb. destruct (B1 Hb) as [-> _].
    rewrite K4, K3, K2; done.
  - intros Hb. destruct (B3 Hb) as [-> _].
    rewrite K4, K2, K1; done.
  - intros Hb. destruct (B4 Hb) as [-> _].
    rewrite K3, K2, K1; done.
  - intros Hb. by destruct (B5 Hb) as [-> _].
  - intros d Hd. destruct (D2 _ Hd) as [-> Hdesc].
    split; [by apply C5, C4, C3|].
    rewrite K4, K3; done.
  - intros Hd. destruct (N2 Hd) as [-> _].
    rewrite K4, K3, K1; done.
Qed.

End BulkRowClaim.

(** ** The JSON round trip *)


Section JsonFacts.

Import json.



(** *** Strings *)



(** *** Numbers *)









(** *** Values *)







Section Sequences.

Variable pv : list ascii -> option (value * list ascii).
Variable lvl : nat.



End Sequences.

End JsonFacts.

Section JsonRoundTrip.

Import json.












End JsonRoundTrip.

Section RenderJson.


End RenderJson.

(** * Worked instances *)

Lemma paginate_unlimited_two_pages :
  _paginate env_two_pages 2 playlist_items list_params "items" None world0
  = (Ok [VStr "a"; VStr "b"; VStr "c"],
     set_api_log
       [invoke playlist_items list_params;
        invoke playlist_items (list_params ++ [("pageToken", VStr "t1")])]
       world0).
Proof.
  destruct (paginate_unlimited env_two_pages playlist_items "items" list_params
              [first_page] second_page [[VStr "a"; VStr "b"]; [VStr "c"]]
              world0 2) as (Hrun & _ & _).
  - repeat constructor.
  - reflexivity.
  - reflexivity.
  - repeat split.
  - cbn. lia.
  - exact Hrun.
Defined.

Lemma paginate_limit_prefix_two_pages :
  _paginate env_two_pages 2 playlist_items list_params "items" (Some 1) world0
  = (Ok [VStr "a"],
     set_api_log [invoke playlist_items list_params] world0).
Proof.
  destruct (paginate_limit_prefix env_two_pages playlist_items "items" list_params
              [first_page] second_page [[VStr "a"; VStr "b"]; [VStr "c"]]
              world0 2 1) as (n & Hn & Hrun & _ & Hmin & _).
  - repeat constructor.
  - reflexivity.
  - reflexivity.
  - repeat split.
  - cbn. lia.
  - lia.
  - assert (n = 1%nat) as ->.
    { destruct n as [|[|n]]; [lia|done|].
      specialize (Hmin 1%nat ltac:(lia)). cbn in Hmin. lia. }
    exact Hrun.
Defined.

Lemma paginate_limit_zero_first_page :
  _paginate env_two_pages 1 playlist_items list_params "items" (Some 0) world0
  = (Ok [VStr "a"; VStr "b"],
     set_api_log [invoke playlist_items list_params] world0).
Proof.
  exact (paginate_limit_zero env_two_pages playlist_items "items" list_params
           first_page [VStr "a"; VStr "b"] world0 0 eq_refl eq_refl).
Defined.

Lemma paginate_error_after_first_page :
  _paginate env_page_then_error 2 playlist_items list_params "items" None world0
  = (Raise backend_error,
     set_api_log
       [invoke playlist_items list_params;
        invoke playlist_items (list_params ++ [("pageToken", VStr "t1")])]
       world0).
Proof.
  destruct (paginate_error_propagates env_page_then_error playlist_items "items"
              list_params None [first_page] [VStr "a"; VStr "b"] backend_error
              world0 2) as (Hrun & _).
  - reflexivity.
  - repeat split.
  - cbn. lia.
  - exact Hrun.
Defined.

Lemma fetch_120_identifiers :
  length <$> batches ids120 = [50; 50; 20]%nat
  /\ length (api_log (_fetch_video_details env_details ids120 "snippet,status" world0).2)
     = 3%nat
  /\ exists details,
       (_fetch_video_details env_details ids120 "snippet,status" world0).1
       = Ok details
       /\ details !! "v1" = Some (video "v1" "Setup" "second" "private").
Proof.
  destruct (fetch_video_details_batches env_details ids120 "snippet,status"
              detail_replies detail_items world0)
    as (Hrun & _ & _ & _ & _ & Hlook).
  - repeat split.
  - reflexivity.
  - reflexivity.
  - rewrite Hrun. split; [reflexivity|]. split; [reflexivity|].
    eexists. split; [reflexivity|]. rewrite Hlook. reflexivity.
Defined.

Lemma fetch_unknown_identifier :
  exists details,
    (_fetch_video_details env_details ids120 "snippet,status" world0).1 = Ok details
    /\ details !! "v7" = None.
Proof.
  destruct (fetch_video_details_absent env_details ids120 "snippet,status"
              detail_replies detail_items world0 "v7")
    as (details & Hrun & Hnone & _).
  - repeat split.
  - reflexivity.
  - reflexivity.
  - cbn. intros H. repeat (apply elem_of_cons in H as [H|H]; [discriminate H|]).
    by apply elem_of_nil in H.
  - exists details. rewrite Hrun. by split.
Defined.

Lemma get_service_stale_then_fresh :
  (exists w',
     get_service (mock_env []) (world_with_cache stale_credentials)
     = (Ok (MkCredentials (Some "fresh") (Some "refresh-me") (Some 4600)), w')
     /\ auth_log w' = [TokenRefresh stale_credentials]
     /\ cache_writes w'
        = [MkCredentials (Some "fresh") (Some "refresh-me") (Some 4600)])
  /\ get_service (mock_env []) (world_with_cache fresh_credentials)
     = (Ok fresh_credentials, world_with_cache fresh_credentials)
  /\ (exists w',
        get_service (mock_env []) (world_with_cache soon_credentials)
        = (Ok (MkCredentials (Some "fresh") (Some "refresh-me") (Some 4600)), w')
        /\ auth_log w' = [TokenRefresh soon_credentials]).
Proof.
  split; [|split].
  - destruct (get_service_cached_credential (mock_env [])
                (world_with_cache stale_credentials) stale_credentials
                eq_refl eq_refl) as [Hstale _].
    destruct (Hstale 500 "refresh-me" eq_refl
                ltac:(unfold REFRESH_THRESHOLD; cbn; lia) eq_refl
                ltac:(discriminate))
      as (w' & Hrun & Hauth & _ & Hfile & Hwrites).
    exists w'. split; [exact Hrun|]. split; [exact Hauth|exact Hwrites].
  - destruct (get_service_cached_credential (mock_env [])
                (world_with_cache fresh_credentials) fresh_credentials
                eq_refl eq_refl) as [_ Hfresh].
    exact (Hfresh 5000 "tok" eq_refl
             ltac:(unfold REFRESH_THRESHOLD; cbn; lia) eq_refl).
  - destruct (get_service_cached_credential (mock_env [])
                (world_with_cache soon_credentials) soon_credentials
                eq_refl eq_refl) as [Hsoon _].
    destruct (Hsoon 1060 "refresh-me" eq_refl
                ltac:(unfold REFRESH_THRESHOLD; cbn; lia) eq_refl
                ltac:(discriminate))
      as (w' & Hrun & Hauth & _).
    exists w'. split; [exact Hrun|exact Hauth].
Defined.

Lemma update_abc_without_flags :
  NoOpUpdateError world0 (cmd_videos_update env_update args_no_flags world0)
  /\ exit_status (cmd_videos_update env_update args_no_flags world0).1 = Some 1
  /\ writes (api_log (cmd_videos_update env_update args_no_flags world0).2) = [].
Proof.
  destruct (update_without_flags env_update args_no_flags world0
              eq_refl eq_refl eq_refl eq_refl eq_refl eq_refl)
    as (_ & _ & Hw & Hfound).
  destruct (Hfound abc_fetched (video_record "abc" "Old" "about" "private") []
              (VDict (snippet_of "Old" "about")) (VDict (status_of "private"))
              eq_refl eq_refl eq_refl eq_refl)
    as [Hnoop Hexit].
  exact (conj Hnoop (conj Hexit Hw)).
Defined.

Lemma update_abc_title :
  writes (api_log (cmd_videos_update env_update args_title world0).2)
  = [videos_update "snippet,status"
       (VDict [("id", VStr "abc");
               ("snippet", VDict [("title", VStr "New");
                                  ("description", VStr "about");
                                  ("categoryId", VStr "22")]);
               ("status", VDict [("privacyStatus", VStr "private");
                                 ("selfDeclaredMadeForKids", VBool false)])])]
  /\ (cmd_videos_update env_update args_title world0).1 = Ok tt.
Proof.
  destruct (update_title_only env_update args_title world0 "New" abc_fetched
              (video_record "abc" "Old" "about" "private") []
              (snippet_of "Old" "about") (VDict (status_of "private"))
              eq_refl eq_refl eq_refl eq_refl eq_refl eq_refl
              eq_refl eq_refl eq_refl eq_refl)
    as (_ & Hw & _ & _ & Hok).
  split; [exact Hw|].
  exact (Hok [] (VStr "private") eq_refl eq_refl).
Defined.

Lemma bulk_row_blank_cells_abc :
  exists sn' stt' (changed : bool),
    api_log (bulk_row env_update bulk_state_abc row_blank world0).2
    = (if changed
       then [videos_update "snippet,status"
               (VDict [("id", VStr "abc");
                       ("snippet", VDict sn'); ("status", VDict stt')])]
       else [])
    /\ dict_get "title" sn' = Some (VStr "Old")
    /\ dict_get "privacyStatus" stt' = Some (VStr "private")
    /\ changed = true
    /\ dict_get "description" sn' = Some (VStr EmptyString).
Proof.
  destruct (bulk_row_blank_cells env_update bulk_state_abc row_blank world0
              "abc" (video_record "abc" "Old" "about" "private")
              (snippet_of "Old" "about") (status_of "private"))
    as (sn' & stt' & changed & Hlog & Htitle & _ & _ & Hstatus & Hdescr & _).
  - intros col v Hv. cbn in Hv.
    repeat (destruct (String.eqb col _);
            [injection Hv as <-; eexists; reflexivity|]).
    discriminate.
  - reflexivity.
  - discriminate.
  - reflexivity.
  - reflexivity.
  - reflexivity.
  - exists sn', stt', changed.
    split; [exact Hlog|].
    split; [exact (Htitle eq_refl)|].
    split; [exact (Hstatus eq_refl)|].
    exact (Hdescr EmptyString eq_refl).
Defined.


(** C1, at an input where the code departs from it.  Two pages hold three
    items; with [limit = 0] the call hands back the two items of the first
    page where the claim asks for none. *)
Theorem paginate_limit_zero_overshoots :
  (_paginate env_two_pages 2 playlist_items list_params "items" None world0).1
  = Ok [VStr "a"; VStr "b"; VStr "c"]
  /\ (_paginate env_two_pages 2 playlist_items list_params "items" (Some 0) world0).1
     = Ok [VStr "a"; VStr "b"].
Proof. split; reflexivity. Qed.

(** C3, as first stated, at an input where the code departs from it.  The
    cached credential carries a token whose expiry lies one minute ahead of
    the clock.  [get_service] all the same sends a refresh request and
    rewrites the cache: the auth library counts a token as expired from
    3 min 45 s before its expiry. *)
Theorem get_service_refreshes_ahead_of_expiry :
  deps_installed (world_with_cache soon_credentials) = true
  /\ credentials_file (world_with_cache soon_credentials) = Some soon_credentials
  /\ token soon_credentials = Some "tok"
  /\ expiry soon_credentials = Some 1060
  /\ now (mock_env []) < 1060
  /\ auth_log (get_service (mock_env []) (world_with_cache soon_credentials)).2
     = [TokenRefresh soon_credentials]
  /\ cache_writes (get_service (mock_env []) (world_with_cache soon_credentials)).2
     = [MkCredentials (Some "fresh") (Some "refresh-me") (Some 4600)].
Proof. repeat split. Qed.

(** * Further properties *)

(** ** The credential store, all branches *)

(** Split a postcondition and read the outcome equations in it. *)
Ltac settle :=
  repeat match goal with
         | |- _ /\ _ => split
         | |- forall _, _ => intro
         | H : Raise _ = Ok _ |- _ => discriminate H
         | H : Ok _ = Raise _ |- _ => discriminate H
         | H : OutOfFuel = Ok _ |- _ => discriminate H
         | H : OutOfFuel = Raise _ |- _ => discriminate H
         | H : Ok _ = Ok _ |- _ => injection H as <-
         | H : Raise _ = Raise _ |- _ => injection H as <-
         end;
  eauto.

Section CredentialStore.

Variable env : Env.

(** X3.  What [get_service] does to the world, on every path and whatever
    the authorization server answers: it sends nothing to the Data API and
    prints nothing on standard output; it makes at most one authorization
    request; when it returns a credential, the cache file holds exactly that
    credential, written at most once; when it fails, the cache is as it
    was. *)
Theorem get_service_postcondition w :
  api_log (get_service env w).2 = api_log w
  /\ stdout (get_service env w).2 = stdout w
  /\ (auth_log (get_service env w).2 = auth_log w
      \/ exists q, auth_log (get_service env w).2 = auth_log w ++ [q])
  /\ (forall c, (get_service env w).1 = Ok c ->
        credentials_file (get_service env w).2 = Some c
        /\ (cache_writes (get_service env w).2 = cache_writes w
            \/ cache_writes (get_service env w).2 = cache_writes w ++ [c]))
  /\ (forall e, (get_service env w).1 = Raise e ->
        credentials_file (get_service env w).2 = credentials_file w
        /\ cache_writes (get_service env w).2 = cache_writes w).
Proof.
  unfold get_service, _check_deps, interactive_consent, refresh,
    run_local_server, bind, eprint, sys_exit, raise, ret.
  destruct (deps_installed w) eqn:Hdeps; cbn; [|by settle].
  destruct (credentials_file w) as [c0|] eqn:Hfile; cbn.
  - destruct (valid env c0); cbn; [by settle|].
    destruct (expired env c0 && has_refresh_token c0); cbn.
    + destruct (auth_server env (auth_log w) c0); cbn; by settle.
    + destruct (client_secrets_file w); cbn; [|by settle].
      destruct (consent env (auth_log w)); cbn; by settle.
  - destruct (client_secrets_file w); cbn; [|by settle].
    destruct (consent env (auth_log w)); cbn; by settle.
Qed.

End CredentialStore.

Section CredentialBootstrap.

Variable env : Env.



End CredentialBootstrap.

(** ** More on the paginator *)

Section PaginateMore.

Variable env : Env.
Variable method : Method.
Variable key : string.

Lemma paginate_loop_sent fuel :
  forall limit params0 params collected next_page w,
    (forall k, k <> "pageToken" -> dict_get k params = dict_get k params0) ->
    exists sent,
      api_log (_paginate_loop env fuel method params key limit collected next_page w).2
      = api_log w ++ sent
      /\ (length sent <= fuel)%nat
      /\ Forall (carries method params0) sent.
Proof.
  induction fuel as [|fuel IH]; intros limit params0 params collected next_page w Hp.
  - exists []. cbn. by rewrite app_nil_r.
  - rewrite paginate_loop_turn. cbn zeta.
    set (params1 := if truthy next_page
                    then dict_set "pageToken" next_page params else params).
    assert (Hp1 : forall k, k <> "pageToken" ->
                            dict_get k params1 = dict_get k params0).
    { intros k Hk. unfold params1. destruct (truthy next_page); [|by apply Hp].
      rewrite dict_get_set_ne by done. by apply Hp. }
    assert (Hc : carries method params0 (invoke method params1)).
    { by repeat split. }
    destruct (remote env (api_log w) (invoke method params1)) as [e|resp].
    { exists [invoke method params1]. cbn. split; [done|]. split; [lia|].
      by constructor. }
    destruct (page_items key resp) as [items|].
    2:{ exists [invoke method params1]. cbn. split; [done|]. split; [lia|].
        by constructor. }
    destruct (goes_on limit (collected ++ items) resp).
    2:{ exists [invoke method params1]. cbn. split; [done|]. split; [lia|].
        by constructor. }
    destruct (IH limit params0 params1 (collected ++ items) (cursor resp)
                (set_api_log (api_log w ++ [invoke method params1]) w) Hp1)
      as (sent & Hlog & Hlen & Hall).
    exists (invoke method params1 :: sent).
    rewrite Hlog. cbn [api_log set_api_log length].
    split; [by rewrite <- app_assoc|]. split; [lia|]. by constructor.
Qed.

(** X6.  Every request [_paginate] sends, on every path and for every limit
    and remote behaviour, goes to the given list method and carries the
    caller's parameters unchanged; only the page cursor is added.  The first
    request carries exactly the caller's parameters. *)
Theorem paginate_requests_carry_params fuel params limit w :
  exists sent,
    api_log (_paginate env fuel method params key limit w).2 = api_log w ++ sent
    /\ Forall (carries method params) sent
    /\ (forall c, head sent = Some c -> c = invoke method params).
Proof.
  destruct (paginate_loop_sent fuel limit params params [] VNone w)
    as (sent & Hlog & Hlen & Hall); [done|].
  exists sent.
  assert (Hsame : api_log (_paginate env fuel method params key limit w).2
                  = api_log (_paginate_loop env fuel method params key limit
                               [] VNone w).2).
  { unfold _paginate, bind.
    by destruct (_paginate_loop env fuel method params key limit [] VNone w)
      as [[| |] ?]. }
  rewrite Hsame. split; [done|]. split; [done|].
  intros c Hc.
  destruct fuel as [|fuel].
  { cbn in Hlog. rewrite <- (app_nil_r (api_log w)) in Hlog at 1.
    apply app_inv_head in Hlog. subst sent. done. }
  rewrite paginate_loop_turn in Hlog. cbn zeta in Hlog. cbn [truthy] in Hlog.
  assert (Hhead : exists rest, sent = invoke method params :: rest).
  { destruct (remote env (api_log w) (invoke method params)) as [e|resp].
    { cbn in Hlog. apply app_inv_head in Hlog. eauto. }
    destruct (page_items key resp) as [items|].
    2:{ cbn in Hlog. apply app_inv_head in Hlog. eauto. }
    destruct (goes_on limit ([] ++ items) resp).
    2:{ cbn in Hlog. apply app_inv_head in Hlog. eauto. }
    destruct (paginate_loop_sent fuel limit params params ([] ++ items)
                (cursor resp)
                (set_api_log (api_log w ++ [invoke method params]) w))
      as (rest & Hlog' & _); [done|].
    rewrite Hlog' in Hlog. cbn [api_log set_api_log] in Hlog.
    rewrite <- app_assoc in Hlog. apply app_inv_head in Hlog. eauto. }
  destruct Hhead as [rest ->]. cbn in Hc. by injection Hc as <-.
Qed.

(** A list endpoint that never stops handing out cursors keeps the
    unlimited loop going for ever: whatever the fuel, it is used up, one
    request per unit. *)
Lemma paginate_loop_endless fuel :
  (forall log c, exists p items,
      remote env log c = inr p /\ truthy (cursor p) = true
      /\ page_items key p = Some items) ->
  forall params collected next_page w,
    (_paginate_loop env fuel method params key None collected next_page w).1
    = OutOfFuel
    /\ length (api_log (_paginate_loop env fuel method params key None
                          collected next_page w).2)
       = (length (api_log w) + fuel)%nat.
Proof.
  intros Hremote.
  induction fuel as [|fuel IH]; intros params collected next_page w.
  - cbn. split; [done|lia].
  - rewrite paginate_loop_turn. cbn zeta.
    destruct (Hremote (api_log w)
                (invoke method (if truthy next_page
                                then dict_set "pageToken" next_page params
                                else params)))
      as (p & items & -> & Hc & ->).
    unfold goes_on. rewrite Hc. cbn [limit_reached negb andb].
    destruct (IH (if truthy next_page
                  then dict_set "pageToken" next_page params else params)
                (collected ++ items) (cursor p)
                (set_api_log (api_log w ++ [invoke method
                   (if truthy next_page
                    then dict_set "pageToken" next_page params else params)]) w))
      as [-> ->].
    split; [done|]. cbn [api_log set_api_log]. rewrite length_app. cbn. lia.
Qed.

(** X7.  [_paginate] has no bound of its own on the number of pages: against
    a list endpoint that hands out a cursor with every page, the unlimited
    loop never ends by itself; whatever the fuel, all of it is used, one
    request per unit. *)
Theorem paginate_endless_cursor params w :
  (forall log c, exists p items,
      remote env log c = inr p /\ truthy (cursor p) = true
      /\ page_items key p = Some items) ->
  forall fuel,
    (_paginate env fuel method params key None w).1 = OutOfFuel
    /\ length (api_log (_paginate env fuel method params key None w).2)
       = (length (api_log w) + fuel)%nat.
Proof.
  intros Hremote fuel.
  destruct (paginate_loop_endless fuel Hremote params [] VNone w) as [Ho Hl].
  unfold _paginate, bind.
  destruct (_paginate_loop env fuel method params key None [] VNone w)
    as [o w'] eqn:Hrun.
  cbn in Ho, Hl. subst o. by cbn.
Qed.

(** X8.  A negative limit [k]: the first page already ends the loop, and
    the slice [results[:k]] drops the last [-k] items of that page (all of
    them when the page has fewer). *)
Theorem paginate_negative_limit params resp items w fuel k :
  remote env (api_log w) (invoke method params) = inr resp ->
  page_items key resp = Some items ->
  k < 0 ->
  _paginate env (S fuel) method params key (Some k) w
  = (Ok (take (length items - Z.to_nat (- k)) items),
     set_api_log (api_log w ++ [invoke method params]) w).
Proof.
  intros Hr Hi Hk. unfold _paginate, bind. rewrite paginate_loop_turn.
  cbn zeta. cbn [truthy]. rewrite Hr, Hi.
  unfold goes_on, limit_reached.
  replace (k <=? Z.of_nat (length ([] ++ items))) with true
    by (symmetry; apply Z.leb_le; lia).
  rewrite andb_false_r. cbn [negb app ret truncate].
  replace (k =? 0) with false by (symmetry; apply Z.eqb_neq; lia).
  unfold slice_to. replace (0 <=? k) with false by (symmetry; apply Z.leb_gt; lia).
  replace (Z.to_nat (Z.of_nat (length items) + k))
    with (length items - Z.to_nat (- k))%nat by lia.
  done.
Qed.

End PaginateMore.

(** ** More on the batch fetcher *)

Lemma for_each_app {A S : Type} (body : S -> A -> M S) l1 l2 s w :
  for_each body (l1 ++ l2) s w
  = (let* s' := for_each body l1 s in for_each body l2 s') w.
Proof.
  revert s w. induction l1 as [|a l1 IH]; intros s w; cbn [app for_each].
  - done.
  - unfold bind in *. destruct (body s a w) as [[s1| |] w1]; auto.
Qed.

Section FetchErrors.

Variable env : Env.

(** X9.  A batch request that fails ends [_fetch_video_details]: the error
    propagates, the batches after it are never asked for, and nothing is
    returned of what the earlier batches brought. *)
Theorem fetch_video_details_error video_ids part rs kvss e w :
  (length rs < length (batches video_ids))%nat ->
  answers env (api_log w)
          ((fun b => videos_list part (join "," b)) <$> batches video_ids)
          ((inr <$> rs) ++ [inl e]) ->
  mapM keyed_items rs = Some kvss ->
  _fetch_video_details env video_ids part w
  = (Raise e,
     set_api_log
       (api_log w ++
          take (S (length rs))
               ((fun b => videos_list part (join "," b)) <$> batches video_ids))
       w).
Proof.
  intros Hlen Ha Hm.
  unfold _fetch_video_details. unfold batches in Hlen, Ha |- *.
  rewrite <- list_fmap_compose in Ha |- *. rewrite length_fmap in Hlen.
  set (offsets := range_step (length video_ids) 50) in *. clearbody offsets.
  set (call := fun i => videos_list part (join "," (take 50 (drop i video_ids)))).
  change ((fun b => videos_list part (join "," b)) ∘
          (fun i => take 50 (drop i video_ids))) with call in *.
  rewrite <- (take_drop (length rs) offsets) in Ha |- * at 1.
  destruct (drop (length rs) offsets) as [|i rest] eqn:Hdrop.
  { apply (f_equal length) in Hdrop. rewrite length_drop in Hdrop.
    cbn in Hdrop. lia. }
  assert (Hpre : length (take (length rs) offsets) = length rs).
  { rewrite length_take. lia. }
  rewrite for_each_app.
  assert (Hcalls : take (S (length rs)) (call <$> offsets)
                   = (call <$> take (length rs) offsets) ++ [call i]).
  { rewrite <- fmap_take.
    rewrite <- (take_drop (length rs) offsets) at 1. rewrite Hdrop.
    rewrite take_app_ge by lia. rewrite Hpre.
    replace (S (length rs) - length rs)%nat with 1%nat by lia.
    by rewrite fmap_app. }
  rewrite Hcalls.
  assert (Ha1 : answers env (api_log w) (call <$> take (length rs) offsets)
                        (inr <$> rs)
                /\ remote env (api_log w ++ (call <$> take (length rs) offsets))
                          (call i) = inl e).
  { clear Hcalls Hdrop Hlen. rewrite fmap_app in Ha.
    revert Ha Hpre. generalize (take (length rs) offsets) as pre.
    generalize (api_log w) as log. clear Hm.
    induction rs as [|r rs IH]; intros log pre Ha Hpre.
    - destruct pre; [|done]. cbn in Ha |- *. rewrite app_nil_r.
      by destruct Ha as [-> _].
    - destruct pre as [|j pre]; [done|]. cbn in Ha. destruct Ha as [Hr Ha].
      destruct (IH (log ++ [call j]) pre Ha ltac:(cbn in Hpre; lia))
        as [H1 H2].
      cbn. rewrite <- app_assoc in H2. done. }
  destruct Ha1 as [Ha1 Hfail].
  unfold bind at 1.
  rewrite (fetch_loop_ok env video_ids part (take (length rs) offsets) rs kvss
             ∅ w Ha1 ltac:(lia) Hm).
  cbn [for_each]. unfold bind at 1. unfold fetch_batch at 1. unfold bind at 1.
  rewrite execute_eq. cbn [api_log set_api_log].
  fold call. change (videos_list part (join "," (take 50 (drop i video_ids))))
    with (call i).
  rewrite Hfail. by rewrite set_api_log_twice, <- app_assoc.
Qed.

End FetchErrors.

(** ** Computations that send nothing *)

Lemma keeps_log_ret {A} (a : A) : keeps_log (ret a).
Proof. done. Qed.

Lemma keeps_log_raise {A} e : keeps_log (@raise A e).
Proof. done. Qed.

Lemma keeps_log_print s : keeps_log (print s).
Proof. done. Qed.

Lemma keeps_log_eprint s : keeps_log (eprint s).
Proof. done. Qed.

Lemma keeps_log_sleep : keeps_log sleep.
Proof. done. Qed.

Lemma keeps_log_or_raise {A} e (o : option A) : keeps_log (or_raise e o).
Proof. by destruct o. Qed.

Lemma keeps_log_getitem v k : keeps_log (getitem v k).
Proof. destruct v; try done. apply keeps_log_or_raise. Qed.

Lemma keeps_log_getitem0 v : keeps_log (getitem0 v).
Proof. by destruct v as [| | |[|? ?]|[|? ?]|]. Qed.

Lemma keeps_log_setitem v k x : keeps_log (setitem v k x).
Proof. by destruct v. Qed.

Lemma keeps_log_slice_value v n : keeps_log (slice_value v n).
Proof. by destruct v. Qed.

Lemma keeps_log_bind {A B} (c : M A) (k : A -> M B) :
  keeps_log c -> (forall a, keeps_log (k a)) -> keeps_log (bind c k).
Proof.
  intros Hc Hk w. unfold bind. specialize (Hc w).
  destruct (c w) as [[a| |] w1]; cbn in Hc |- *; [|done|done].
  by rewrite Hk.
Qed.

Lemma keeps_log_cell row col : keeps_log (cell row col).
Proof. unfold cell. by destruct (dict_get_default _ _ _). Qed.

Lemma keeps_log_overlay flag k st : keeps_log (overlay flag k st).
Proof.
  destruct flag; [|done]. apply keeps_log_bind; [apply keeps_log_setitem|done].
Qed.

Lemma keeps_log_overlay_cell row col f k st : keeps_log (overlay_cell row col f k st).
Proof.
  apply keeps_log_bind; [apply keeps_log_cell|]. intros c.
  destruct (nonempty c); [|done].
  apply keeps_log_bind; [apply keeps_log_cell|]. intros raw.
  apply keeps_log_bind; [apply keeps_log_setitem|done].
Qed.

Create HintDb keeps.

#[local] Hint Resolve keeps_log_ret keeps_log_raise keeps_log_print
  keeps_log_eprint keeps_log_sleep keeps_log_or_raise keeps_log_getitem
  keeps_log_getitem0 keeps_log_setitem keeps_log_slice_value keeps_log_cell
  keeps_log_overlay keeps_log_overlay_cell : keeps.

(** Break a computation down to its steps. *)
Ltac keeps :=
  repeat first
    [ progress intros
    | apply keeps_log_bind
    | solve [eauto with keeps]
    | match goal with
      | |- keeps_log (match ?x with _ => _ end) => destruct x
      | |- keeps_log (if ?b then _ else _) => destruct b
      end ].

(** A request followed by steps that send nothing: the log grows by that
    one request. *)
Lemma execute_then_keeps {A} env c (k : dict -> M A) w :
  (forall d, keeps_log (k d)) ->
  api_log ((let* d := execute env c in k d) w).2 = api_log w ++ [c].
Proof.
  intros Hk. unfold bind. rewrite execute_eq.
  destruct (remote env (api_log w) c); [done|]. by rewrite Hk.
Qed.

(** ** More on the update handler *)

Section UpdateMore.

Variable env : Env.

(** X10.  [videos update] on a video the read does not find: whatever the
    flags, the handler says so on standard error and ends the process with
    status 1, having sent the read and no write. *)
Theorem update_video_not_found args w resp :
  remote env (api_log w) (videos_list "snippet,status" (Args.video_id args))
  = inr resp ->
  truthy (dict_get_default "items" VNone resp) = false ->
  cmd_videos_update env args w
  = (Raise (SystemExit 1),
     set_stderr (stderr w ++ ["Video not found: " +:+ Args.video_id args])
       (set_api_log
          (api_log w ++ [videos_list "snippet,status" (Args.video_id args)]) w)).
Proof.
  intros Hr Hi. unfold cmd_videos_update, bind at 1. rewrite execute_eq, Hr, Hi.
  reflexivity.
Qed.

Lemma overlay_dict flag k d changed w :
  overlay flag k (VDict d, changed) w
  = (Ok (match flag with
         | Some x => (VDict (dict_set k x d), true)
         | None => (VDict d, changed)
         end), w).
Proof. by destruct flag. Qed.

(** X11.  [videos update] with any combination of flags (at least one), on
    a video the read finds.  One update goes out after the read and carries
    the fetched snippet and status with the supplied fields assigned and
    every other field as fetched.  A publication date always sends the
    video out as private, whatever [--privacy] says. *)
Theorem update_assigns_only_flags args w resp item rest sn st :
  remote env (api_log w) (videos_list "snippet,status" (Args.video_id args))
  = inr resp ->
  dict_get "items" resp = Some (VList (VDict item :: rest)) ->
  dict_get "snippet" item = Some (VDict sn) ->
  dict_get "status" item = Some (VDict st) ->
  is_Some (Args.title args) \/ is_Some (Args.description args)
  \/ is_Some (Args.tags args) \/ is_Some (Args.category args)
  \/ is_Some (Args.privacy args) \/ is_Some (Args.publish_at args) ->
  exists sn' st',
    api_log (cmd_videos_update env args w).2
    = api_log w ++
      [videos_list "snippet,status" (Args.video_id args);
       videos_update "snippet,status"
         (VDict [("id", VStr (Args.video_id args));
                 ("snippet", VDict sn'); ("status", VDict st')])]
    /\ (forall k, k ∉ snippet_flags -> dict_get k sn' = dict_get k sn)
    /\ (forall k, k ∉ status_flags -> dict_get k st' = dict_get k st)
    /\ dict_get "title" sn'
       = assigned (VStr <$> Args.title args) (dict_get "title" sn)
    /\ dict_get "description" sn'
       = assigned (VStr <$> Args.description args) (dict_get "description" sn)
    /\ dict_get "tags" sn'
       = assigned (split_tags "," <$> Args.tags args) (dict_get "tags" sn)
    /\ dict_get "categoryId" sn'
       = assigned (VStr <$> Args.category args) (dict_get "categoryId" sn)
    /\ dict_get "publishAt" st'
       = assigned (VStr <$> Args.publish_at args) (dict_get "publishAt" st)
    /\ dict_get "privacyStatus" st'
       = match Args.publish_at args with
         | Some _ => Some (VStr "private")
         | None => assigned (VStr <$> Args.privacy args)
                            (dict_get "privacyStatus" st)
         end.
Proof.
  intros Hr Hit Hsn Hst Hflag.
  set (put := fun (flag : option value) k (d : dict) =>
                match flag with Some x => dict_set k x d | None => d end).
  set (sn' := put (VStr <$> Args.category args) "categoryId"
               (put (split_tags "," <$> Args.tags args) "tags"
                 (put (VStr <$> Args.description args) "description"
                   (put (VStr <$> Args.title args) "title" sn)))).
  set (st1 := put (VStr <$> Args.privacy args) "privacyStatus" st).
  set (st' := match Args.publish_at args with
              | Some p => dict_set "privacyStatus" (VStr "private")
                            (dict_set "publishAt" (VStr p) st1)
              | None => st1
              end).
  exists sn', st'.
  split; [|split; [|split; [|split; [|split; [|split; [|split; [|split]]]]]]].
  - unfold cmd_videos_update, bind at 1. rewrite execute_eq, Hr.
    unfold dict_get_default. rewrite Hit.
    cbn [default from_option id truthy negb].
    unfold getitem at 1. rewrite Hit. cbn [or_raise]. unfold bind at 1, ret at 1.
    cbn [getitem0]. unfold bind at 1, ret at 1.
    unfold getitem at 1. rewrite Hsn. cbn [or_raise]. unfold bind at 1, ret at 1.
    unfold getitem at 1. rewrite Hst. cbn [or_raise]. unfold bind at 1, ret at 1.
    unfold bind at 1. rewrite overlay_dict.
    assert (Hstep : forall flag k d ch,
               (match flag with
                | Some x => (VDict (dict_set k x d), true)
                | None => (VDict d, ch)
                end)
               = (VDict (put flag k d),
                  match flag with Some _ => true | None => ch end)).
    { by intros [x|] k d ch. }
    rewrite Hstep. unfold bind at 1. rewrite overlay_dict, Hstep.
    unfold bind at 1. rewrite overlay_dict, Hstep.
    unfold bind at 1. rewrite overlay_dict, Hstep.
    unfold bind at 1. rewrite overlay_dict, Hstep.
    fold sn'. fold st1.
    assert (Hchanged :
      (match Args.publish_at args with
       | Some _ => true
       | None =>
           match VStr <$> Args.privacy args with
           | Some _ => true
           | None =>
               match VStr <$> Args.category args with
               | Some _ => true
               | None =>
                   match split_tags "," <$> Args.tags args with
                   | Some _ => true
                   | None =>
                       match VStr <$> Args.description args with
                       | Some _ => true
                       | None =>
                           match VStr <$> Args.title args with
                           | Some _ => true
                           | None => false
                           end
                       end
                   end
               end
           end
       end) = true).
    { destruct Hflag as [[? H]|[[? H]|[[? H]|[[? H]|[[? H]|[? H]]]]]];
        rewrite H; cbn;
        repeat match goal with |- context [match ?o with _ => _ end] =>
                 destruct o end; done. }
    unfold bind at 1.
    destruct (Args.publish_at args) as [p|] eqn:Hp.
    + unfold setitem, bind at 1, ret at 1. unfold bind at 1, ret at 1.
      unfold ret at 1. cbn [negb].
      rewrite execute_then_keeps by keeps.
      cbn [api_log set_api_log]. by rewrite <- app_assoc.
    + unfold ret at 1. rewrite Hchanged. cbn [negb].
      rewrite execute_then_keeps by keeps.
      cbn [api_log set_api_log]. by rewrite <- app_assoc.
  - clear Hflag. intros k Hk. unfold sn', put, snippet_flags in *.
    repeat match goal with |- context [match ?o with _ => _ end] =>
             destruct o end;
      rewrite ?dict_get_set_ne; try done; intros <-; apply Hk; solve [repeat constructor].
  - clear Hflag. intros k Hk. unfold st', st1, put, status_flags in *.
    repeat match goal with |- context [match ?o with _ => _ end] =>
             destruct o end;
      rewrite ?dict_get_set_ne; try done; intros <-; apply Hk; solve [repeat constructor].
  - unfold sn', put. destruct (Args.title args), (Args.description args),
      (Args.tags args), (Args.category args); cbn;
      rewrite ?dict_get_set_ne by done; rewrite ?dict_get_set_eq; done.
  - unfold sn', put. destruct (Args.title args), (Args.description args),
      (Args.tags args), (Args.category args); cbn;
      rewrite ?dict_get_set_ne by done; rewrite ?dict_get_set_eq;
      rewrite ?dict_get_set_ne by done; done.
  - unfold sn', put. destruct (Args.title args), (Args.description args),
      (Args.tags args), (Args.category args); cbn;
      rewrite ?dict_get_set_ne by done; rewrite ?dict_get_set_eq;
      rewrite ?dict_get_set_ne by done; done.
  - unfold sn', put. destruct (Args.title args), (Args.description args),
      (Args.tags args), (Args.category args); cbn;
      rewrite ?dict_get_set_eq; rewrite ?dict_get_set_ne by done; done.
  - unfold st', st1, put. destruct (Args.publish_at args), (Args.privacy args);
      cbn; rewrite ?dict_get_set_ne by done; rewrite ?dict_get_set_eq;
      rewrite ?dict_get_set_ne by done; done.
  - unfold st', st1, put. destruct (Args.publish_at args), (Args.privacy args);
      cbn; rewrite ?dict_get_set_eq; done.
Qed.

End UpdateMore.

(** ** More on the bulk update *)

Lemma bind_Ok_inv {A B} (c : M A) (k : A -> M B) w b w' :
  bind c k w = (Ok b, w') ->
  exists a w1, c w = (Ok a, w1) /\ k a w1 = (Ok b, w').
Proof.
  unfold bind. destruct (c w) as [[a| |] w1]; [|done|done]. eauto.
Qed.

(** A computation that leaves the world alone, whatever its outcome. *)
Lemma pure_cell row col w o w' : cell row col w = (o, w') -> w' = w.
Proof. unfold cell. destruct (dict_get_default _ _ _); by intros [= _ <-]. Qed.

Lemma pure_getitem v k w o w' : getitem v k w = (o, w') -> w' = w.
Proof.
  destruct v; cbn; try by intros [= _ <-].
  destruct (dict_get k d); by intros [= _ <-].
Qed.

Lemma pure_setitem v k x w o w' : setitem v k x w = (o, w') -> w' = w.
Proof. destruct v; by intros [= _ <-]. Qed.

Lemma pure_slice_value v n w o w' : slice_value v n w = (o, w') -> w' = w.
Proof. destruct v; by intros [= _ <-]. Qed.

Lemma pure_overlay flag k st w o w' : overlay flag k st w = (o, w') -> w' = w.
Proof.
  destruct flag as [x|]; cbn; [|by intros [= _ <-]].
  unfold bind. destruct (setitem st.1 k x w) as [[| |] w1] eqn:H;
    apply pure_setitem in H; subst; by intros [= _ <-].
Qed.

Lemma pure_overlay_cell row col f k st w o w' :
  overlay_cell row col f k st w = (o, w') -> w' = w.
Proof.
  unfold overlay_cell, bind.
  destruct (cell row col w) as [[c| |] w1] eqn:H1; apply pure_cell in H1;
    subst; try by intros [= _ <-].
  destruct (nonempty c); [|by intros [= _ <-]].
  destruct (cell row col w) as [[c'| |] w1] eqn:H2; apply pure_cell in H2;
    subst; try by intros [= _ <-].
  destruct (setitem st.1 k (f c') w) as [[| |] w1] eqn:H3;
    apply pure_setitem in H3; subst; by intros [= _ <-].
Qed.

Section BulkAccounting.

Variable env : Env.

(** One row, when the loop gets past it: it is either skipped, with no
    request, or updated, with exactly one update request and one pause. *)
Lemma bulk_row_accounted st row w st' w' :
  bulk_row env st row w = (Ok st', w') ->
  dom (current st') = dom (current st) /\
  ((updated st' = updated st /\ skipped st' = S (skipped st)
    /\ api_log w' = api_log w /\ sleeps w' = sleeps w)
   \/ (updated st' = S (updated st) /\ skipped st' = skipped st
       /\ sleeps w' = S (sleeps w)
       /\ exists body, api_log w'
                       = api_log w ++ [videos_update "snippet,status" body])).
Proof.
  unfold bulk_row. intros H.
  apply bind_Ok_inv in H as (vid & w1 & Hc & H). apply pure_cell in Hc as ->.
  destruct (if nonempty vid then current st !! vid else None) as [item|] eqn:Hcur.
  2:{ unfold bind, print, ret in H. injection H as <- <-. cbn.
      split; [done|]. by left. }
  apply bind_Ok_inv in H as (sn & w1 & Hc & H). apply pure_getitem in Hc as ->.
  apply bind_Ok_inv in H as (stt & w1 & Hc & H). apply pure_getitem in Hc as ->.
  apply bind_Ok_inv in H as ([sn1 ch1] & w1 & Hc & H).
  apply pure_overlay_cell in Hc as ->.
  apply bind_Ok_inv in H as ([sn2 ch2] & w1 & Hc & H).
  assert (w1 = w) as ->.
  { destruct (dict_mem "description" row); [|by injection Hc as _ <-].
    unfold bind in Hc.
    destruct (getitem (VDict row) "description" w) as [[d| |] w2] eqn:Hd;
      apply pure_getitem in Hd; subst; [|done|done].
    by apply pure_overlay in Hc. }
  clear Hc.
  apply bind_Ok_inv in H as ([sn3 ch3] & w1 & Hc & H).
  assert (w1 = w) as ->.
  { unfold bind in Hc.
    destruct (cell row "tags" w) as [[c| |] w2] eqn:Hd;
      apply pure_cell in Hd; subst; [|done|done].
    destruct (nonempty c); [|by injection Hc as _ <-].
    destruct (getitem (VDict row) "tags" w) as [[raw| |] w2] eqn:Hd;
      apply pure_getitem in Hd; subst; [|done|done].
    destruct raw; try done. by apply pure_overlay in Hc. }
  clear Hc.
  apply bind_Ok_inv in H as ([sn4 ch4] & w1 & Hc & H).
  apply pure_overlay_cell in Hc as ->.
  apply bind_Ok_inv in H as ([stt' ch5] & w1 & Hc & H).
  apply pure_overlay_cell in Hc as ->.
  destruct ch5; cbn [negb] in H.
  2:{ injection H as <- <-. cbn. split; [done|]. by left. }
  apply bind_Ok_inv in H as (item1 & w1 & Hc & H). apply pure_setitem in Hc as ->.
  apply bind_Ok_inv in H as (item2 & w1 & Hc & H). apply pure_setitem in Hc as ->.
  apply bind_Ok_inv in H as (reply & w1 & Hc & H).
  rewrite execute_eq in Hc.
  assert (w1 = set_api_log (api_log w ++ [videos_update "snippet,status"
            (VDict [("id", VStr vid); ("snippet", sn4); ("status", stt')])]) w)
    as ->.
  { by destruct (remote env _ _); injection Hc as _ <-. }
  clear Hc.
  apply bind_Ok_inv in H as (t & w1 & Hc & H). apply pure_getitem in Hc as ->.
  apply bind_Ok_inv in H as (t' & w1 & Hc & H). apply pure_slice_value in Hc as ->.
  unfold bind, print, sleep, ret in H. injection H as <- <-. cbn.
  split.
  - rewrite dom_insert_L.
    destruct (nonempty vid); [|done].
    apply (elem_of_dom_2 (D := gset string)) in Hcur.
    apply set_eq. intros x. rewrite elem_of_union, elem_of_singleton.
    split; [intros [->|?]; done|auto].
  - right. eauto 10.
Qed.

(** The loop as a whole: every row is counted once, as updated or as
    skipped; there are as many update requests and as many pauses as rows
    counted as updated; no identifier is added to or dropped from the
    fetched records. *)
Lemma bulk_rows_accounted rows :
  forall st w st' w',
    for_each (bulk_row env) rows st w = (Ok st', w') ->
    (updated st' + skipped st' = updated st + skipped st + length rows)%nat
    /\ (updated st <= updated st')%nat
    /\ dom (current st') = dom (current st)
    /\ sleeps w' = (sleeps w + (updated st' - updated st))%nat
    /\ exists sent,
         api_log w' = api_log w ++ sent
         /\ length sent = (updated st' - updated st)%nat
         /\ Forall (fun c => exists body,
                      c = videos_update "snippet,status" body) sent.
Proof.
  induction rows as [|row rows IH]; intros st w st' w' H.
  - cbn in H. injection H as <- <-. cbn [length].
    split; [lia|]. split; [lia|]. split; [done|]. split; [lia|].
    exists []. rewrite app_nil_r. split; [done|]. split; [cbn; lia|done].
  - cbn [for_each] in H. apply bind_Ok_inv in H as (st1 & w1 & Hrow & H).
    apply bulk_row_accounted in Hrow as [Hdom Hrow].
    apply IH in H as (Hsum & Hle & Hdom' & Hsl & sent & Hlog & Hlen & Hall).
    destruct Hrow as [(Hu & Hs & Hl & Hp)|(Hu & Hs & Hp & body & Hl)].
    + cbn [length].
      split; [lia|]. split; [lia|]. split; [congruence|]. split; [lia|].
      exists sent. rewrite Hlog, Hl. split; [done|]. split; [lia|done].
    + cbn [length].
      split; [lia|]. split; [lia|]. split; [congruence|]. split; [lia|].
      exists (videos_update "snippet,status" body :: sent).
      rewrite Hlog, Hl, <- app_assoc. split; [done|]. split; [cbn; lia|].
      constructor; eauto.
Qed.

End BulkAccounting.

Section BulkRun.

Variable env : Env.

Lemma pure_store_item m item w o w' : store_item m item w = (o, w') -> w' = w.
Proof.
  unfold store_item.
  destruct item as [| | | | |d]; try by intros [= _ <-].
  destruct (dict_get "id" d) as [[| | |i| |]|]; by intros [= _ <-].
Qed.

Lemma store_items_pure items :
  forall m w o w', for_each store_item items m w = (o, w') -> w' = w.
Proof.
  induction items as [|item items IH]; intros m w o w' H.
  - by injection H as _ <-.
  - cbn [for_each] in H. unfold bind in H.
    destruct (store_item m item w) as [[m1| |] w1] eqn:H1;
      apply pure_store_item in H1; subst;
      [by eapply IH|by injection H as _ <-..].
Qed.

(** The step that collects the identifier of one row. *)
Lemma pure_collect_id (ids : list string) r w o w' :
  (let* c := cell r "id" in
   if nonempty c then
     let* raw := getitem (VDict r) "id" in
     match raw with
     | VStr s => ret (ids ++ [strip s])
     | _ => raise AttributeError
     end
   else ret ids) w = (o, w') -> w' = w.
Proof.
  unfold bind.
  destruct (cell r "id" w) as [[c| |] w2] eqn:Hc; apply pure_cell in Hc;
    subst; try by intros [= _ <-].
  destruct (nonempty c); [|by intros [= _ <-]].
  destruct (getitem (VDict r) "id" w) as [[raw| |] w2] eqn:Hg;
    apply pure_getitem in Hg; subst; try by intros [= _ <-].
  destruct raw; by intros [= _ <-].
Qed.

(** Whatever happens, the fetcher only sends detail reads and touches
    nothing else of the world. *)
Lemma fetch_loop_sends video_ids part offsets :
  forall m w,
    exists sent,
      (for_each (fetch_batch env video_ids part) offsets m w).2
      = set_api_log (api_log w ++ sent) w
      /\ Forall (reads_details part) sent.
Proof.
  induction offsets as [|i offsets IH]; intros m w.
  - exists []. cbn. by rewrite app_nil_r, set_api_log_same.
  - cbn [for_each]. unfold bind at 1.
    set (c := videos_list part (join "," (take 50 (drop i video_ids)))).
    assert (Hb : exists o,
               fetch_batch env video_ids part m i w
               = (o, set_api_log (api_log w ++ [c]) w)).
    { unfold fetch_batch, bind. rewrite execute_eq. fold c.
      destruct (remote env (api_log w) c); [by eexists|].
      destruct (py_iter _) as [items|]; cbn; [|by eexists].
      destruct (for_each store_item items m _) as [o w1] eqn:Hs.
      apply store_items_pure in Hs as ->. by eexists. }
    destruct Hb as [o ->].
    assert (Hc : reads_details part c) by by eexists.
    destruct o as [m1| |]; [|by exists [c]; split; [|constructor]..].
    destruct (IH m1 (set_api_log (api_log w ++ [c]) w)) as (sent & -> & Hall).
    exists (c :: sent). cbn [api_log set_api_log].
    rewrite set_api_log_twice, <- app_assoc. split; [done|by constructor].
Qed.

Lemma bulk_ids_pure rows :
  forall ids w o w',
    for_each (fun ids r =>
                let* c := cell r "id" in
                if nonempty c then
                  let* raw := getitem (VDict r) "id" in
                  match raw with
                  | VStr s => ret (ids ++ [strip s])
                  | _ => raise AttributeError
                  end
                else ret ids) rows ids w = (o, w') -> w' = w.
Proof.
  induction rows as [|r rows IH]; intros ids w o w' H.
  - by injection H as _ <-.
  - cbn [for_each] in H. unfold bind at 1 in H.
    match type of H with
    | context [let (_, _) := ?step in _] =>
        destruct step as [[ids1| |] w1] eqn:H1
    end; apply pure_collect_id in H1; subst;
      [by eapply IH|by injection H as _ <-..].
Qed.

(** X12.  A bulk update that runs to its end.  Every row of the CSV is
    counted once, as updated or as skipped, and the closing line reports
    these two numbers.  All detail reads come before the first update;
    there is one update request and one pause per row counted as
    updated. *)
Theorem bulk_update_accounted csv_file rows w w' :
  cmd_bulk_update env csv_file (Some rows) w = (Ok tt, w') ->
  rows <> [] ->
  exists (u s : nat) reads updates,
    (u + s = length rows)%nat
    /\ last (stdout w')
       = Some (nl +:+ "Done. Updated " +:+ str_of env (VInt (Z.of_nat u))
               +:+ " videos, skipped " +:+ str_of env (VInt (Z.of_nat s)) +:+ ".")
    /\ api_log w' = api_log w ++ reads ++ updates
    /\ Forall (reads_details "snippet,status") reads
    /\ Forall (fun c => exists body, c = videos_update "snippet,status" body)
              updates
    /\ length updates = u
    /\ sleeps w' = (sleeps w + u)%nat.
Proof.
  intros H Hne. unfold cmd_bulk_update in H.
  destruct rows as [|row0 rows0] eqn:Hrows; [done|]. rewrite <- Hrows in *.
  destruct (dict_mem "id" row0); cbn [negb] in H; [|done].
  apply bind_Ok_inv in H as (ids & w1 & Hids & H).
  apply bulk_ids_pure in Hids as ->.
  apply bind_Ok_inv in H as ([] & w1 & Hp & H).
  unfold print in Hp. injection Hp as <-.
  apply bind_Ok_inv in H as (cur & w1 & Hf & H).
  destruct (fetch_loop_sends ids "snippet,status"
              (range_step (length ids) 50) ∅
              (set_stdout (stdout w ++ ["Fetching current metadata for " +:+
                 str_of env (VInt (Z.of_nat (length ids))) +:+ " videos..."]) w))
    as (reads & Hw1 & Hreads).
  unfold _fetch_video_details in Hf. rewrite Hf in Hw1. cbn [snd] in Hw1.
  subst w1. clear Hf.
  apply bind_Ok_inv in H as (st' & w2 & Hloop & H).
  apply bulk_rows_accounted in Hloop
    as (Hsum & Hle & _ & Hsl & updates & Hlog & Hlen & Hupd).
  unfold print in H. injection H as <-.
  cbn [updated skipped] in Hsum, Hle, Hsl, Hlen.
  exists (updated st'), (skipped st'), reads, updates.
  cbn [stdout set_stdout api_log sleeps].
  split; [lia|]. split; [by rewrite last_snoc|].
  split; [by rewrite Hlog, app_assoc|].
  split; [done|]. split; [done|]. split; [lia|].
  rewrite Hsl. cbn. lia.
Qed.

End BulkRun.

(** ** Deletions *)

Lemma lower_is_y s : String.eqb (lower s) "y" = String.eqb s "y" || String.eqb s "Y".
Proof.
  destruct s as [|a s]; [done|].
  destruct s as [|b s].
  - cbn [lower]. destruct a as [[] [] [] [] [] [] [] []]; reflexivity.
  - cbn [lower]. transitivity false.
    + apply String.eqb_neq. intros H. discriminate H.
    + symmetry. apply orb_false_intro; apply String.eqb_neq; intros H;
        discriminate H.
Qed.

Section Deletions.

Variable env : Env.

(** The script shared by the two deletion handlers. *)
Ltac asks_first :=
  cbn [negb];
  split; [|split; [|split; [|split]]];
  [ intros answer; by rewrite execute_then_keeps by keeps
  | intros line Hyes; unfold bind at 1; unfold bind at 1, print at 1;
    cbn [or_raise ret]; rewrite lower_is_y; fold (says_yes line);
    rewrite Hyes; cbn [negb];
    by rewrite execute_then_keeps by keeps
  | intros line Hno; unfold bind at 1; unfold bind at 1, print at 1;
    cbn [or_raise ret]; rewrite lower_is_y; fold (says_yes line);
    rewrite Hno; cbn [negb]; unfold print; cbn;
    eexists; by rewrite <- app_assoc
  | done
  | done ].

(** X13.  Deleting a video: with [--yes] the request goes out whatever the
    input holds; without it the request goes out only for the answer [y]
    or [Y] (white space around it aside).  Any other answer ends the
    handler normally after the prompt and [Aborted.], with nothing sent; a
    closed input raises before anything is sent. *)
Theorem delete_video_asks_first video_id w :
  (forall answer,
      api_log (cmd_videos_delete env true video_id answer w).2
      = api_log w ++ [delete_call "videos" (VStr video_id)])
  /\ (forall line, says_yes line = true ->
        api_log (cmd_videos_delete env false video_id (Some line) w).2
        = api_log w ++ [delete_call "videos" (VStr video_id)])
  /\ (forall line, says_yes line = false ->
        exists prompt,
          cmd_videos_delete env false video_id (Some line) w
          = (Ok tt, set_stdout (stdout w ++ [prompt; "Aborted."]) w))
  /\ (cmd_videos_delete env false video_id None w).1
     = Raise (OtherError "EOFError")
  /\ api_log (cmd_videos_delete env false video_id None w).2 = api_log w.
Proof. unfold cmd_videos_delete, input. asks_first. Qed.

(** X14.  Deleting a playlist: with [--yes] the request goes out whatever
    the input holds; without it the request goes out only for the answer
    [y] or [Y] (white space around it aside).  Any other answer ends the
    handler normally after the prompt and [Aborted.], with nothing sent; a
    closed input raises before anything is sent. *)
Theorem delete_playlist_asks_first playlist_id w :
  (forall answer,
      api_log (cmd_playlists_delete env true playlist_id answer w).2
      = api_log w ++ [delete_call "playlists" (VStr playlist_id)])
  /\ (forall line, says_yes line = true ->
        api_log (cmd_playlists_delete env false playlist_id (Some line) w).2
        = api_log w ++ [delete_call "playlists" (VStr playlist_id)])
  /\ (forall line, says_yes line = false ->
        exists prompt,
          cmd_playlists_delete env false playlist_id (Some line) w
          = (Ok tt, set_stdout (stdout w ++ [prompt; "Aborted."]) w))
  /\ (cmd_playlists_delete env false playlist_id None w).1
     = Raise (OtherError "EOFError")
  /\ api_log (cmd_playlists_delete env false playlist_id None w).2 = api_log w.
Proof. unfold cmd_playlists_delete, input. asks_first. Qed.

(** X15.  Removing a video that is not in the playlist: the lookup finds no
    entry, the handler says so on standard error and ends the process with
    status 1; no deletion is sent. *)
Theorem playlists_remove_not_found playlist_id video_id w resp :
  remote env (api_log w) (playlist_entry_lookup playlist_id video_id) = inr resp ->
  truthy (dict_get_default "items" (VList []) resp) = false ->
  cmd_playlists_remove env playlist_id video_id w
  = (Raise (SystemExit 1),
     set_stderr
       (stderr w ++ ["Video " +:+ video_id +:+ " not found in playlist "
                     +:+ playlist_id])
       (set_api_log (api_log w ++ [playlist_entry_lookup playlist_id video_id]) w)).
Proof.
  intros Hr Hf.
  unfold cmd_playlists_remove, bind at 1. by rewrite execute_eq, Hr, Hf.
Qed.

(** X16.  Removing a video from a playlist: the entry is looked up first,
    and the single deletion that follows names the identifier of the first
    playlist entry found, not the video.  When the deletion is accepted the
    handler confirms it on standard output; when it fails the error
    propagates and nothing is printed.  Nothing else is sent either way. *)
Theorem playlists_remove_entry playlist_id video_id w resp item rest entry :
  remote env (api_log w) (playlist_entry_lookup playlist_id video_id) = inr resp ->
  dict_get "items" resp = Some (VList (VDict item :: rest)) ->
  dict_get "id" item = Some entry ->
  api_log (cmd_playlists_remove env playlist_id video_id w).2
  = api_log w ++ [playlist_entry_lookup playlist_id video_id;
                  delete_call "playlistItems" entry]
  /\ match remote env (api_log w ++ [playlist_entry_lookup playlist_id video_id])
                 (delete_call "playlistItems" entry) with
     | inr _ =>
         (cmd_playlists_remove env playlist_id video_id w).1 = Ok tt
         /\ stdout (cmd_playlists_remove env playlist_id video_id w).2
            = stdout w ++ ["Removed " +:+ video_id +:+ " from " +:+ playlist_id]
     | inl e =>
         (cmd_playlists_remove env playlist_id video_id w).1 = Raise e
         /\ stdout (cmd_playlists_remove env playlist_id video_id w).2 = stdout w
     end.
Proof.
  intros Hr Hit Hid.
  assert (Hrun : cmd_playlists_remove env playlist_id video_id w
                 = (execute env (delete_call "playlistItems" entry) ;;;
                    print ("Removed " +:+ video_id +:+ " from " +:+ playlist_id))
                     (set_api_log
                        (api_log w ++ [playlist_entry_lookup playlist_id video_id])
                        w)).
  { unfold cmd_playlists_remove. unfold bind at 1. rewrite execute_eq, Hr.
    unfold dict_get_default. rewrite Hit.
    cbn [default from_option id truthy negb getitem0].
    unfold bind at 1, ret at 1. unfold getitem at 1. rewrite Hid.
    cbn [or_raise]. unfold bind at 1, ret at 1. reflexivity. }
  rewrite Hrun. unfold bind. rewrite execute_eq. rewrite api_log_set.
  destruct (remote env _ (delete_call "playlistItems" entry)) as [e|r];
    cbn; rewrite <- app_assoc; done.
Qed.

End Deletions.

(** ** What the reading handlers send *)

Lemma sends_only_keeps {A} P (c : M A) : keeps_log c -> sends_only P c.
Proof. intros H w. exists []. by rewrite H, app_nil_r. Qed.

Lemma sends_only_execute env (P : Call -> Prop) c :
  P c -> sends_only P (execute env c).
Proof. intros H w. exists [c]. split; [done|by constructor]. Qed.

Lemma sends_only_bind {A B} P (c : M A) (k : A -> M B) :
  sends_only P c -> (forall a, sends_only P (k a)) -> sends_only P (bind c k).
Proof.
  intros Hc Hk w. unfold bind. destruct (Hc w) as (sent & Hlog & Hall).
  destruct (c w) as [[a| |] w1]; cbn in Hlog; [|by exists sent..].
  destruct (Hk a w1) as (sent' & Hlog' & Hall').
  exists (sent ++ sent'). rewrite Hlog', Hlog, app_assoc.
  split; [done|by apply Forall_app].
Qed.

Lemma sends_only_for_each {A S} P (body : S -> A -> M S) l :
  (forall s a, sends_only P (body s a)) ->
  forall s, sends_only P (for_each body l s).
Proof.
  intros Hb. induction l as [|a l IH]; intros s.
  - by apply sends_only_keeps.
  - cbn [for_each]. by apply sends_only_bind.
Qed.

Lemma writes_sends_only {A} (c : M A) w :
  sends_only (fun c => is_write c = false) c ->
  writes (api_log (c w).2) = writes (api_log w).
Proof.
  intros H. destruct (H w) as (sent & -> & Hall).
  rewrite writes_app. unfold writes at 2.
  replace (filter _ sent) with (@nil Call); [by rewrite app_nil_r|].
  symmetry. induction Hall as [|c' l Hc _ IH]; [done|].
  rewrite filter_cons_False; [done|]. by rewrite Hc.
Qed.

Lemma keeps_log_get v k dflt : keeps_log (get v k dflt).
Proof. by destruct v. Qed.

Lemma keeps_log_join_value sep v : keeps_log (join_value sep v).
Proof.
  unfold join_value. apply keeps_log_bind; [apply keeps_log_or_raise|].
  intros items. apply keeps_log_bind; [apply keeps_log_or_raise|done].
Qed.

#[local] Hint Resolve keeps_log_get keeps_log_join_value : keeps.

Lemma keeps_log_for_each {A S} (body : S -> A -> M S) l :
  (forall s a, keeps_log (body s a)) -> forall s, keeps_log (for_each body l s).
Proof.
  intros Hb. induction l as [|a l IH]; intros s; [done|].
  cbn [for_each]. by apply keeps_log_bind.
Qed.

Lemma keeps_log_store_item m item : keeps_log (store_item m item).
Proof.
  unfold store_item. destruct item as [| | | | |d]; try done.
  by destruct (dict_get "id" d) as [[| | |i| |]|].
Qed.

Lemma keeps_log_export_row details rows v : keeps_log (export_row details rows v).
Proof.
  unfold export_row. destruct v; try done.
  destruct (details !! s) as [d|]; [|done].
  destruct (negb (truthy d)); [done|]. keeps.
Qed.

Lemma keeps_log_write_csv csv_line rows : keeps_log (write_csv csv_line rows).
Proof.
  unfold write_csv. destruct rows as [|row0 rows]; [done|].
  apply keeps_log_bind; [done|]. intros _.
  apply keeps_log_for_each. intros _ row. unfold writerow.
  by destruct (forallb _ _).
Qed.

Lemma keeps_log_render_export json_dumps csv_line fmt rows :
  keeps_log (render_export json_dumps csv_line fmt rows).
Proof.
  unfold render_export. destruct fmt; [apply keeps_log_write_csv|done].
Qed.

Lemma keeps_log_details_get details vid : keeps_log (details_get details vid).
Proof. by destruct vid. Qed.

Lemma keeps_log_format9 v : keeps_log (format9 v).
Proof. by destruct v. Qed.

#[local] Hint Resolve keeps_log_details_get keeps_log_format9 : keeps.

Lemma keeps_log_list_row env details rows v :
  keeps_log (list_row env details rows v).
Proof. unfold list_row. keeps. Qed.

Lemma keeps_log_privacy_is details status vid :
  keeps_log (privacy_is details status vid).
Proof. unfold privacy_is. keeps. Qed.

Lemma keeps_log_table_line env r : keeps_log (table_line env r).
Proof. unfold table_line. keeps. Qed.

Section ReadOnly.

Variable env : Env.
Variable P : Call -> Prop.

Lemma sends_only_paginate fuel method params key limit :
  (forall c, carries method params c -> P c) ->
  sends_only P (_paginate env fuel method params key limit).
Proof.
  intros Hm w.
  destruct (paginate_loop_sent env method key fuel limit params params [] VNone w)
    as (sent & Hlog & _ & Hall); [done|].
  exists sent. split.
  - unfold _paginate, bind.
    by destruct (_paginate_loop env fuel method params key limit [] VNone w)
      as [[| |] ?].
  - eapply Forall_impl; [exact Hall|]. exact Hm.
Qed.

Lemma sends_only_uploads_playlist_id channel_id :
  (forall params, P (MkCall "channels" "list" params)) ->
  sends_only P (_uploads_playlist_id env channel_id).
Proof.
  intros Hch. unfold _uploads_playlist_id. apply sends_only_bind.
  - destruct (truthy channel_id); [by apply sends_only_keeps|].
    unfold _my_channel_id, _my_channel.
    apply sends_only_bind; [|intros ch; apply sends_only_keeps; keeps].
    apply sends_only_bind; [by apply sends_only_execute|].
    intros resp. apply sends_only_keeps. keeps.
  - intros cid. apply sends_only_bind; [by apply sends_only_execute|].
    intros resp. apply sends_only_keeps. keeps.
Qed.

Lemma sends_only_fetch_values video_ids part :
  (forall id, P (videos_list part id)) ->
  sends_only P (_fetch_video_details_values env video_ids part).
Proof.
  intros Hv. unfold _fetch_video_details_values. apply sends_only_for_each.
  intros m i. unfold fetch_batch_values.
  apply sends_only_bind; [apply sends_only_keeps; keeps|]. intros ids.
  apply sends_only_bind; [by apply sends_only_execute|]. intros resp.
  apply sends_only_bind; [apply sends_only_keeps; keeps|]. intros items.
  apply sends_only_keeps. apply keeps_log_for_each. apply keeps_log_store_item.
Qed.

End ReadOnly.

Lemma carries_read method params c :
  is_write (invoke method []) = false -> carries method params c ->
  is_write c = false.
Proof.
  intros Hm (_ & Hv & _). unfold is_write in *. cbn in Hm. by rewrite Hv.
Qed.

Section ExportReads.

Variable env : Env.

(** X17.  The export is read-only: however the remote side answers and
    however far the export gets, none of the requests it sends creates,
    changes or deletes anything. *)
Theorem export_sends_no_write json_dumps csv_line fuel fmt w :
  writes (api_log (cmd_export env json_dumps csv_line fuel fmt w).2)
  = writes (api_log w)
  /\ exists sent,
       api_log (cmd_export env json_dumps csv_line fuel fmt w).2
       = api_log w ++ sent
       /\ Forall (fun c => is_write c = false) sent.
Proof.
  assert (H : sends_only (fun c => is_write c = false)
                (cmd_export env json_dumps csv_line fuel fmt)).
  { unfold cmd_export.
    apply sends_only_bind; [by apply sends_only_uploads_playlist_id|]. intros up.
    apply sends_only_bind.
    { apply sends_only_paginate. intros c. by apply carries_read. }
    intros items. apply sends_only_bind.
    { apply sends_only_keeps, keeps_log_for_each. intros ids v.
      unfold video_id_of. keeps. }
    intros ids.
    apply sends_only_bind; [by apply sends_only_fetch_values|]. intros details.
    apply sends_only_bind.
    { apply sends_only_keeps, keeps_log_for_each. intros rows v.
      apply keeps_log_export_row. }
    intros rows. apply sends_only_keeps, keeps_log_render_export. }
  split; [by apply writes_sends_only|apply H].
Qed.

End ExportReads.

(** ** The rows of the export *)

Lemma export_row_run details rows vid d w :
  details !! vid = Some d -> truthy d = true -> exportable d = true ->
  exists row,
    export_row details rows (VStr vid) w = (Ok (rows ++ [row]), w)
    /\ row_id row = Some (VStr vid)
    /\ row.*1 = export_columns.
Proof.
  intros Hd Ht He. unfold export_row. rewrite Hd, Ht. cbn [negb].
  destruct d as [| | | | |dd]; try done. cbn in He.
  destruct (dict_get "snippet" dd) as [[| | | | |s]|] eqn:Hs; try done.
  destruct (dict_get "status" dd) as [[| | | | |st]|] eqn:Hst; try done.
  destruct (py_iter (dict_get_default "tags" (VList []) s)) as [tags|] eqn:Htags;
    [|done].
  destruct (as_strings tags) as [strs|] eqn:Hstrs; [|done].
  destruct (dict_get_default "contentDetails" (VDict []) dd) as [| | | | |cd] eqn:Hcd;
    try done.
  destruct (dict_get_default "statistics" (VDict []) dd) as [| | | | |stat] eqn:Hstat;
    try done.
  eexists. split; [|split].
  - unfold bind, getitem, get, join_value, or_raise, ret. cbn.
    rewrite Hs, Hst. cbn. rewrite Htags. cbn. rewrite Hstrs. cbn.
    rewrite Hcd, Hstat. cbn. reflexivity.
  - reflexivity.
  - reflexivity.
Qed.

Lemma export_rows_run details ids : forall rows w,
  (forall i d, details !! i = Some d -> truthy d = true -> exportable d = true) ->
  exists new,
    for_each (export_row details) (VStr <$> ids) rows w = (Ok (rows ++ new), w)
    /\ row_id <$> new
       = (Some ∘ VStr) <$> filter (fun i => fetched details (VStr i) = true) ids
    /\ Forall (fun row => row.*1 = export_columns) new.
Proof.
  induction ids as [|i ids IH]; intros rows w Hex.
  - exists []. by rewrite app_nil_r.
  - cbn [fmap list_fmap for_each]. unfold bind.
    destruct (details !! i) as [d|] eqn:Hd.
    + destruct (truthy d) eqn:Ht.
      * destruct (export_row_run details rows i d w Hd Ht (Hex i d Hd Ht))
          as (row & -> & Hid & Hcols).
        destruct (IH (rows ++ [row]) w Hex) as (new & -> & Hids & Hall).
        exists (row :: new). split; [by rewrite <- app_assoc|].
        rewrite filter_cons_True by (cbn; by rewrite Hd).
        split; [cbn; by rewrite Hid, Hids|by constructor].
      * unfold export_row at 1. rewrite Hd, Ht. cbn [negb]. unfold ret at 1.
        destruct (IH rows w Hex) as (new & -> & Hids & Hall).
        exists new. split; [done|].
        rewrite filter_cons_False by (cbn; by rewrite Hd, Ht). done.
    + unfold export_row at 1. rewrite Hd. unfold ret at 1.
      destruct (IH rows w Hex) as (new & -> & Hids & Hall).
      exists new. split; [done|].
      rewrite filter_cons_False by (cbn; by rewrite Hd). done.
Qed.

Lemma writerows_run csv_line fieldnames rows : forall w,
  Forall (fun row => row.*1 = fieldnames) rows ->
  for_each (fun _ row => writerow csv_line fieldnames row) rows tt w
  = (Ok tt,
     set_stdout
       (stdout w ++ ((fun row => csv_line (cells_of fieldnames row)) <$> rows)) w).
Proof.
  induction rows as [|row rows IH]; intros w Hall.
  - cbn. rewrite app_nil_r. by destruct w.
  - apply Forall_cons in Hall as [Hrow Hall].
    cbn [for_each]. unfold bind, writerow at 1.
    replace (forallb _ row.*1) with true.
    2:{ symmetry. apply forallb_forall. intros k Hk. apply bool_decide_eq_true.
        rewrite Hrow in Hk. by apply list_elem_of_In. }
    unfold print at 1. rewrite (IH _ Hall). cbn.
    by rewrite <- app_assoc.
Qed.

Lemma write_csv_run csv_line columns rows w :
  Forall (fun row => row.*1 = columns) rows ->
  write_csv csv_line rows w
  = (Ok tt,
     set_stdout
       (stdout w ++
        match rows with
        | [] => []
        | _ :: _ =>
            csv_line (VStr <$> columns)
            :: ((fun row => csv_line (cells_of columns row)) <$> rows)
        end) w).
Proof.
  intros Hall. unfold write_csv. destruct rows as [|row0 rows].
  - cbn. rewrite app_nil_r. by destruct w.
  - pose proof Hall as Hall'. apply Forall_cons in Hall' as [-> _].
    unfold bind, print at 1. rewrite (writerows_run _ _ _ _ Hall).
    cbn [stdout set_stdout]. by rewrite <- app_assoc.
Qed.

Lemma render_export_run json_dumps csv_line fmt rows w :
  Forall (fun row => row.*1 = export_columns) rows ->
  render_export json_dumps csv_line fmt rows w
  = (Ok tt, set_stdout (stdout w ++ export_lines json_dumps csv_line fmt rows) w).
Proof.
  intros Hall. destruct fmt; cbn [render_export export_lines]; [|done].
  by apply write_csv_run.
Qed.

Lemma as_strings_fmap ids : as_strings (VStr <$> ids) = Some ids.
Proof.
  unfold as_strings. induction ids as [|i ids IH]; [done|].
  cbn. cbn in IH. by rewrite IH.
Qed.

(** On string identifiers the handlers' call of [_fetch_video_details] is
    the one of the identifiers as strings. *)
Lemma fetch_values_strings env ids part w :
  _fetch_video_details_values env (VStr <$> ids) part w
  = _fetch_video_details env ids part w.
Proof.
  unfold _fetch_video_details_values, _fetch_video_details.
  rewrite length_fmap. generalize (range_step (length ids) 50).
  generalize (∅ : gmap string value).
  intros m l. revert m w. induction l as [|i l IH]; intros m w; [done|].
  cbn [for_each].
  assert (Hb : forall w, fetch_batch_values env (VStr <$> ids) part m i w
                         = fetch_batch env ids part m i w).
  { intros w0. unfold fetch_batch_values, fetch_batch.
    rewrite <- fmap_drop, <- fmap_take, as_strings_fmap. done. }
  unfold bind. rewrite Hb.
  destruct (fetch_batch env ids part m i w) as [[m'| |] w']; auto.
Qed.

Lemma video_ids_run items : forall ids acc w,
  mapM entry_video_id items = Some ids ->
  for_each (fun ids v => let* i := video_id_of v in ret (ids ++ [i])) items acc w
  = (Ok (acc ++ (VStr <$> ids)), w).
Proof.
  induction items as [|v items IH]; intros ids acc w Hm.
  - cbn in Hm. injection Hm as <-. cbn. by rewrite app_nil_r.
  - cbn in Hm. destruct (entry_video_id v) as [i|] eqn:Hv; [|done].
    cbn in Hm. destruct (mapM entry_video_id items) as [ids'|] eqn:Hm'; [|done].
    cbn in Hm. injection Hm as <-.
    cbn [for_each]. unfold bind at 1.
    assert (Hrun : (let* i0 := video_id_of v in ret (acc ++ [i0])) w
                   = (Ok (acc ++ [VStr i]), w)).
    { unfold entry_video_id in Hv. destruct v as [| | | | |e]; try done.
      destruct (dict_get "contentDetails" e) as [[| | | | |cd]|] eqn:Hcd; try done.
      destruct (dict_get "videoId" cd) as [[| | |s| |]|] eqn:Hvid; try done.
      injection Hv as ->.
      unfold video_id_of, bind, getitem, ret. cbn. rewrite Hcd. cbn.
      by rewrite Hvid. }
    rewrite Hrun. rewrite (IH ids' _ w eq_refl). by rewrite <- app_assoc.
Qed.

Section ExportRows.

Variable env : Env.
Variable json_dumps : value -> string.
Variable csv_line : list value -> string.

(** X18.  The export of a channel, stage by stage: when the uploads playlist
    is found, its pages list entries with string identifiers, and the
    detail requests answer with records the export can read, the export
    ends normally and prints one row per listed identifier that has a
    record, in the order of the playlist (an identifier listed twice gives
    two rows) and with the same twelve columns; identifiers without a
    record are left out. *)
Theorem export_rows_in_playlist_order fuel fmt w uploads_id w1 items w2 ids details w3 :
  _uploads_playlist_id env VNone w = (Ok uploads_id, w1) ->
  _paginate env fuel (MkMethod "playlistItems" "list")
            (kwargs (uploads_page_call uploads_id)) "items" None w1
  = (Ok items, w2) ->
  mapM entry_video_id items = Some ids ->
  _fetch_video_details env ids "snippet,status,statistics,contentDetails" w2
  = (Ok details, w3) ->
  (forall i d, details !! i = Some d -> truthy d = true -> exportable d = true) ->
  exists rows,
    cmd_export env json_dumps csv_line fuel fmt w
    = (Ok tt,
       set_stdout (stdout w3 ++ export_lines json_dumps csv_line fmt rows) w3)
    /\ row_id <$> rows
       = (Some ∘ VStr) <$> filter (fun i => fetched details (VStr i) = true) ids
    /\ Forall (fun row => row.*1 = export_columns) rows.
Proof.
  intros Hup Hpages Hids Hfetch Hex.
  destruct (export_rows_run details ids [] w3 Hex) as (rows & Hrows & Hrid & Hall).
  exists rows. split; [|done].
  unfold cmd_export. unfold bind at 1. rewrite Hup.
  unfold bind at 1. cbn [kwargs uploads_page_call] in Hpages. rewrite Hpages.
  unfold bind at 1. rewrite (video_ids_run items ids [] w2 Hids). cbn [app].
  unfold bind at 1. rewrite fetch_values_strings, Hfetch.
  unfold bind at 1. rewrite Hrows. cbn [app].
  by apply render_export_run.
Qed.

End ExportRows.

(** ** The channel lookup *)

Section ChannelLookup.

Variable env : Env.

(** X19.  Without a channel identifier the uploads playlist is found with
    two requests: the first asks for the account's own channels and the
    first channel of the reply is taken; the second asks for the content
    details of that channel's identifier, and the answer is the uploads
    playlist its first item names. *)
Theorem uploads_playlist_lookup w r1 ch rest cid r2 up :
  remote env (api_log w) my_channel_call = inr r1 ->
  dict_get "items" r1 = Some (VList (VDict ch :: rest)) ->
  dict_get "id" ch = Some cid ->
  remote env (api_log w ++ [my_channel_call]) (channel_details_call cid) = inr r2 ->
  uploads_of r2 = Some up ->
  _my_channel env w = (Ok (VDict ch), set_api_log (api_log w ++ [my_channel_call]) w)
  /\ _uploads_playlist_id env VNone w
     = (Ok up,
        set_api_log (api_log w ++ [my_channel_call; channel_details_call cid]) w).
Proof.
  intros Hr1 Hitems Hid Hr2 Hup.
  assert (Hch : _my_channel env w
                = (Ok (VDict ch), set_api_log (api_log w ++ [my_channel_call]) w)).
  { unfold _my_channel, bind. fold my_channel_call. rewrite execute_eq, Hr1.
    unfold dict_get_default. rewrite Hitems. reflexivity. }
  split; [exact Hch|].
  unfold _uploads_playlist_id, _my_channel_id. cbn [truthy].
  unfold bind at 1. unfold bind at 1. unfold bind at 1. rewrite Hch.
  unfold getitem at 1. rewrite Hid. unfold or_raise at 1, ret at 1.
  fold (channel_details_call cid). rewrite execute_eq.
  rewrite api_log_set, Hr2, set_api_log_twice, <- app_assoc. cbn [app].
  unfold uploads_of in Hup.
  destruct (dict_get "items" r2) as [[| | | |[|[| | | | |item] ?]|]|] eqn:Hi; try done.
  destruct (dict_get "contentDetails" item) as [[| | | | |cd]|] eqn:Hcd; try done.
  destruct (dict_get "relatedPlaylists" cd) as [[| | | | |rp]|] eqn:Hrp; try done.
  unfold bind, getitem, getitem0, or_raise, ret. cbn.
  rewrite Hi. cbn. rewrite Hcd. cbn. rewrite Hrp. cbn. by rewrite Hup.
Qed.

(** X20.  An account without a channel: the reply to the first request
    lists no channel, the lookup reports it on standard error and ends the
    process with status 1; the export built on it stops there, having sent
    that one request and printed nothing. *)
Theorem export_without_channel json_dumps csv_line fuel fmt w r1 :
  remote env (api_log w) my_channel_call = inr r1 ->
  truthy (dict_get_default "items" (VList []) r1) = false ->
  let w' := set_stderr (stderr w ++ ["No YouTube channel found for this account."])
              (set_api_log (api_log w ++ [my_channel_call]) w) in
  _my_channel env w = (Raise (SystemExit 1), w')
  /\ cmd_export env json_dumps csv_line fuel fmt w = (Raise (SystemExit 1), w')
  /\ stdout w' = stdout w.
Proof.
  intros Hr1 Hitems w'.
  assert (Hch : _my_channel env w = (Raise (SystemExit 1), w')).
  { unfold _my_channel, bind. fold my_channel_call. rewrite execute_eq, Hr1.
    rewrite Hitems. reflexivity. }
  split; [exact Hch|]. split; [|done].
  unfold cmd_export, _uploads_playlist_id, _my_channel_id. cbn [truthy].
  unfold bind. by rewrite Hch.
Qed.

End ChannelLookup.

(** ** [main] *)

Section Main.

Variable env : Env.

(** X21.  Without the client libraries nothing runs: whatever the handler,
    [main] prints the hint on standard error and ends with status 1; no
    request goes out to the Data API or to the authorization server, and
    the credential cache is not written. *)
Theorem main_missing_dependencies (func : M unit) w :
  deps_installed w = false ->
  main env func w
  = (Raise (SystemExit 1),
     set_stderr (stderr w ++ ["Missing dependencies. Run:  bash scripts/setup.sh"]) w).
Proof.
  intros Hdeps. unfold main, get_service, bind, _check_deps. rewrite Hdeps.
  reflexivity.
Qed.

(** X22.  An API error that a handler lets through does not leave [main] as
    an exception: its description goes to standard error and the process
    ends with status 1; the requests already sent stay sent. *)
Theorem main_reports_api_error (func : M unit) w creds w1 s c w2 :
  get_service env w = (Ok creds, w1) ->
  func w1 = (Raise (HttpError s c), w2) ->
  main env func w
  = (Raise (SystemExit 1),
     set_stderr (stderr w2 ++ [describe_error env (HttpError s c)]) w2)
  /\ exit_status (main env func w).1 = Some 1%Z.
Proof.
  intros Hs Hf.
  assert (Hrun : main env func w
                 = (Raise (SystemExit 1),
                    set_stderr (stderr w2 ++ [describe_error env (HttpError s c)]) w2)).
  { unfold main. unfold bind at 1. rewrite Hs, Hf. reflexivity. }
  by rewrite Hrun.
Qed.

End Main.

(** ** The video list *)

Section VideosList.

Variable env : Env.
Variable json_dumps : value -> string.
Variable csv_line : list value -> string.

Lemma limit_or_50_nonzero limit : limit_or_50 limit <> 0.
Proof.
  unfold limit_or_50. destruct limit as [n|]; [|done].
  destruct (n =? 0) eqn:Hn; [done|]. by apply Z.eqb_neq.
Qed.

(** X23.  What [videos list] sends, on every path: reads only, and every
    request for a page of the uploads playlist asks for [min(50, limit)]
    results, where an absent limit and [--limit 0] both count as 50.  So a
    page request never asks for more than 50 results and never for zero;
    for a limit between 1 and 50 it asks for exactly that many. *)
Theorem videos_list_requests fuel args w :
  exists sent,
    api_log (cmd_videos_list env json_dumps csv_line fuel args w).2
    = api_log w ++ sent
    /\ Forall (fun c => is_write c = false) sent
    /\ Forall (fun c =>
                 resource c = "playlistItems" ->
                 exists m,
                   dict_get "maxResults" (kwargs c) = Some (VInt m)
                   /\ m = Z.min 50 (limit_or_50 (ListArgs.limit args))
                   /\ m <= 50 /\ m <> 0
                   /\ (forall n, ListArgs.limit args = Some n ->
                                 0 < n <= 50 -> m = n))
              sent.
Proof.
  set (L := limit_or_50 (ListArgs.limit args)).
  set (P := fun c : Call =>
              is_write c = false
              /\ (resource c = "playlistItems" ->
                  exists m,
                    dict_get "maxResults" (kwargs c) = Some (VInt m)
                    /\ m = Z.min 50 L
                    /\ m <= 50 /\ m <> 0
                    /\ (forall n, ListArgs.limit args = Some n ->
                                  0 < n <= 50 -> m = n))).
  assert (H : sends_only P (cmd_videos_list env json_dumps csv_line fuel args)).
  { unfold cmd_videos_list. fold L.
    apply sends_only_bind.
    { apply sends_only_uploads_playlist_id. intros params. by split. }
    intros up. apply sends_only_bind.
    { apply sends_only_paginate. intros c Hc. split.
      - eapply carries_read; [|exact Hc]. done.
      - intros _. destruct Hc as (_ & _ & Hk).
        exists (Z.min 50 L). rewrite Hk by done. split; [done|].
        split; [done|]. split; [lia|]. split.
        + pose proof (limit_or_50_nonzero (ListArgs.limit args)). fold L in H. lia.
        + intros n Hn Hrange. unfold L, limit_or_50. rewrite Hn.
          destruct (n =? 0) eqn:H0; [apply Z.eqb_eq in H0; lia|lia]. }
    intros items. apply sends_only_bind.
    { apply sends_only_keeps, keeps_log_for_each. intros ids v.
      unfold video_id_of. keeps. }
    intros ids. apply sends_only_bind.
    { apply sends_only_fetch_values. intros id. by split. }
    intros details. apply sends_only_bind.
    { apply sends_only_keeps.
      destruct (ListArgs.status args) as [status|]; [|done].
      destruct (nonempty status); [|done].
      apply keeps_log_for_each. intros kept vid.
      apply keeps_log_bind; [apply keeps_log_privacy_is|done]. }
    intros ids'. apply sends_only_bind.
    { apply sends_only_keeps, keeps_log_for_each. intros rows v.
      apply keeps_log_list_row. }
    intros rows. apply sends_only_keeps.
    destruct (ListArgs.format args).
    - apply keeps_log_for_each. intros _ r.
      apply keeps_log_bind; [apply keeps_log_table_line|done].
    - apply keeps_log_write_csv.
    - done. }
  destruct (H w) as (sent & Hlog & Hall).
  exists sent. split; [exact Hlog|].
  split; (eapply Forall_impl; [exact Hall|]); by intros c [? ?].
Qed.

Lemma listable_record (details : gmap string value) (i : string) :
  (forall i d, details !! i = Some d -> listable d = true) ->
  listable (default (VDict []) (details !! i)) = true.
Proof.
  intros H. destruct (details !! i) as [d|] eqn:Hd; [|done]. by apply (H i).
Qed.

Lemma list_row_run (details : gmap string value) rows (i : string) w :
  listable (default (VDict []) (details !! i)) = true ->
  exists row,
    list_row env details rows (VStr i) w = (Ok (rows ++ [row]), w)
    /\ row_id row = Some (VStr i)
    /\ row.*1 = list_columns
    /\ printable_row row
    /\ (details !! i = None -> dict_get "title" row = Some (VStr "(deleted)")).
Proof.
  intros Hl. unfold list_row, details_get.
  assert (Hdel : details !! i = None ->
                 default (VDict []) (details !! i) = VDict []).
  { by intros ->. }
  destruct (default (VDict []) (details !! i)) as [| | | | |dd]; try done.
  cbn in Hl.
  destruct (dict_get_default "snippet" (VDict []) dd) as [| | | | |s] eqn:Hs;
    try done.
  destruct (dict_get_default "status" (VDict []) dd) as [| | | | |st] eqn:Hst;
    try done.
  destruct (dict_get_default "statistics" (VDict []) dd) as [| | | | |stats]
    eqn:Hstats; try done.
  apply andb_prop in Hl as [Hl Hpriv]. apply andb_prop in Hl as [Htitle Hpub].
  destruct (dict_get_default "title" (VStr "(deleted)") s) as [| | |t| |]
    eqn:Ht; try done.
  destruct (dict_get_default "privacyStatus" (VStr "?") st) as [| | |p| |]
    eqn:Hp; try done.
  assert (Hslice : exists d,
             slice_value
               (if truthy (dict_get_default "publishedAt" VNone s)
                then dict_get_default "publishedAt" VNone s
                else VStr EmptyString) 10 w = (Ok (VStr d), w)).
  { destruct (dict_get_default "publishedAt" VNone s) as [| | |d| |];
      cbn in Hpub |- *; try done; try (by eexists).
    - destruct b; [done|by eexists].
    - destruct (n =? 0); [by eexists|done].
    - destruct (negb (String.eqb d EmptyString)); by eexists.
    - destruct l; [by eexists|done].
    - destruct d; [by eexists|done]. }
  destruct Hslice as [d Hslice].
  eexists. split; [|split; [|split; [|split]]].
  - unfold bind at 1, ret at 1. unfold bind, get, ret. rewrite Hs, Hst, Hstats.
    rewrite Ht, Hslice, Hp. reflexivity.
  - reflexivity.
  - reflexivity.
  - eexists _, _, _, _, _. repeat split.
  - intros Hnone. specialize (Hdel Hnone). injection Hdel as ->.
    cbn in Hs. injection Hs as <-. cbn in Ht. by injection Ht as <-.
Qed.

Lemma list_rows_run (details : gmap string value) (ids : list string) : forall rows w,
  (forall i d, details !! i = Some d -> listable d = true) ->
  exists new,
    for_each (list_row env details) (VStr <$> ids) rows w = (Ok (rows ++ new), w)
    /\ row_id <$> new = (Some ∘ VStr) <$> ids
    /\ Forall (fun row => row.*1 = list_columns) new
    /\ Forall printable_row new
    /\ (forall row i, row ∈ new -> row_id row = Some (VStr i) ->
          details !! i = None -> dict_get "title" row = Some (VStr "(deleted)")).
Proof.
  induction ids as [|i ids IH]; intros rows w Hl.
  - exists []. rewrite app_nil_r. repeat split; try done.
    intros row i Hin. by apply elem_of_nil in Hin.
  - cbn [fmap list_fmap for_each]. unfold bind.
    destruct (list_row_run details rows i w (listable_record details i Hl))
      as (row & -> & Hid & Hcols & Hprint & Hdel).
    destruct (IH (rows ++ [row]) w Hl) as (new & -> & Hids & Hall & Hpr & Hdels).
    exists (row :: new). split; [by rewrite <- app_assoc|].
    split; [cbn; by rewrite Hid, Hids|].
    split; [by constructor|]. split; [by constructor|].
    intros row' j Hin Hj Hnone. apply elem_of_cons in Hin as [->|Hin].
    + rewrite Hid in Hj. injection Hj as <-. by apply Hdel.
    + by apply (Hdels row' j).
Qed.

Lemma privacy_is_run (details : gmap string value) status (i : string) w :
  listable (default (VDict []) (details !! i)) = true ->
  privacy_is details status (VStr i) w = (Ok (has_privacy details status i), w).
Proof.
  intros Hl. unfold privacy_is, has_privacy, details_get.
  destruct (details !! i) as [d|]; [|done].
  cbn [default from_option id] in Hl |- *.
  destruct d as [| | | | |dd]; try done. cbn in Hl.
  unfold bind at 1, ret at 1. unfold bind, get, ret.
  unfold dict_get_default in Hl |- *.
  destruct (dict_get "status" dd) as [[| | | | |st]|];
    cbn [default from_option id] in Hl |- *; try done;
    try (by destruct (default (VDict []) (dict_get "snippet" dd))).
  destruct (dict_get "privacyStatus" st) as [[| | |p| |]|]; by cbn.
Qed.

Lemma status_filter_run (details : gmap string value) status (ids : list string) : forall kept w,
  (forall i d, details !! i = Some d -> listable d = true) ->
  for_each (fun kept vid =>
              let* keep := privacy_is details status vid in
              ret (if keep then kept ++ [vid] else kept))
           (VStr <$> ids) kept w
  = (Ok (kept ++ (VStr <$> filter (fun i => has_privacy details status i = true) ids)),
     w).
Proof.
  induction ids as [|i ids IH]; intros kept w Hl.
  - cbn. by rewrite app_nil_r.
  - cbn [fmap list_fmap for_each]. unfold bind at 1. unfold bind at 1.
    rewrite (privacy_is_run details status i w (listable_record details i Hl)).
    unfold ret at 1. rewrite (IH _ w Hl).
    destruct (has_privacy details status i) eqn:Hp.
    + rewrite filter_cons_True by done. cbn. by rewrite <- app_assoc.
    + rewrite filter_cons_False by (by rewrite Hp). done.
Qed.

Lemma filter_all {A} (l : list A) : filter (fun _ => true = true) l = l.
Proof.
  induction l as [|a l IH]; [done|]. rewrite filter_cons_True by done.
  by rewrite IH.
Qed.

Lemma table_run rows : forall w,
  Forall printable_row rows ->
  exists lines,
    for_each (fun _ r => let* line := table_line env r in print line) rows tt w
    = (Ok tt, set_stdout (stdout w ++ lines) w)
    /\ length lines = length rows.
Proof.
  induction rows as [|r rows IH]; intros w Hall.
  - exists []. cbn. rewrite app_nil_r. by destruct w.
  - apply Forall_cons in Hall as [(id & t & p & st & v & Hid & Ht & Hp & Hst & Hv) Hall].
    cbn [for_each]. unfold bind at 1. unfold bind at 1.
    assert (Hline : exists line, table_line env r w = (Ok line, w)).
    { unfold table_line, bind, getitem, or_raise, slice_value, format9, ret.
      rewrite Ht, Hv, Hid, Hst, Hp. by eexists. }
    destruct Hline as [line ->]. unfold print at 1.
    destruct (IH (set_stdout (stdout w ++ [line]) w) Hall) as (lines & -> & Hlen).
    exists (line :: lines). cbn. rewrite <- app_assoc. split; [done|]. by rewrite Hlen.
Qed.

(** X24.  The rows of [videos list], stage by stage: when the uploads
    playlist is found, its pages (asked for with the limit, 50 when it is
    absent or 0) list entries with string identifiers, and the detail
    requests answer with well-formed records, the handler ends normally
    with one row of eight columns per listed identifier, in the order of
    the playlist.  An identifier without a record keeps its row, with the
    title [(deleted)]; with [--status] only the identifiers whose record
    has that privacy status stay.  JSON is one document, CSV a header and
    one line per row (nothing at all without rows), the table one line per
    row. *)
Theorem videos_list_rows fuel args w uploads_id w1 items w2 ids details w3 :
  _uploads_playlist_id env VNone w = (Ok uploads_id, w1) ->
  _paginate env fuel (MkMethod "playlistItems" "list")
            [("part", VStr "snippet,contentDetails");
             ("playlistId", uploads_id);
             ("maxResults", VInt (Z.min 50 (limit_or_50 (ListArgs.limit args))))]
            "items" (Some (limit_or_50 (ListArgs.limit args))) w1
  = (Ok items, w2) ->
  mapM entry_video_id items = Some ids ->
  _fetch_video_details env ids "snippet,status,statistics" w2 = (Ok details, w3) ->
  (forall i d, details !! i = Some d -> listable d = true) ->
  exists rows lines,
    cmd_videos_list env json_dumps csv_line fuel args w
    = (Ok tt, set_stdout (stdout w3 ++ lines) w3)
    /\ row_id <$> rows
       = (Some ∘ VStr)
           <$> filter (fun i => passes details (ListArgs.status args) i = true) ids
    /\ Forall (fun row => row.*1 = list_columns) rows
    /\ (forall row i, row ∈ rows -> row_id row = Some (VStr i) ->
          details !! i = None -> dict_get "title" row = Some (VStr "(deleted)"))
    /\ match ListArgs.format args with
       | AsJson => lines = [json_dumps (VList (VDict <$> rows))]
       | AsCsv =>
           lines = match rows with
                   | [] => []
                   | _ :: _ =>
                       csv_line (VStr <$> list_columns)
                       :: ((fun row => csv_line (cells_of list_columns row))
                             <$> rows)
                   end
       | AsTable => length lines = length rows
       end.
Proof.
  intros Hup Hpages Hids Hfetch Hl.
  set (shown := filter (fun i => passes details (ListArgs.status args) i = true) ids).
  destruct (list_rows_run details shown [] w3 Hl)
    as (rows & Hrows & Hrid & Hcols & Hprint & Hdel).
  assert (Hfilter :
    match ListArgs.status args with
    | Some status =>
        if nonempty status then
          for_each (fun kept vid =>
                      let* keep := privacy_is details status vid in
                      ret (if keep then kept ++ [vid] else kept))
                   (VStr <$> ids) []
        else ret (VStr <$> ids)
    | None => ret (VStr <$> ids)
    end w3 = (Ok (VStr <$> shown), w3)).
  { unfold shown, passes. destruct (ListArgs.status args) as [status|].
    - destruct (nonempty status).
      + by rewrite status_filter_run.
      + by rewrite filter_all.
    - by rewrite filter_all. }
  assert (Hrun : cmd_videos_list env json_dumps csv_line fuel args w
                 = match ListArgs.format args with
                   | AsJson => print (json_dumps (VList (VDict <$> rows)))
                   | AsCsv => write_csv csv_line rows
                   | AsTable =>
                       for_each (fun _ r => let* line := table_line env r in
                                            print line) rows tt
                   end w3).
  { unfold cmd_videos_list. unfold bind at 1. rewrite Hup.
    unfold bind at 1. rewrite Hpages.
    unfold bind at 1. rewrite (video_ids_run items ids [] w2 Hids). cbn [app].
    unfold bind at 1. rewrite fetch_values_strings, Hfetch.
    unfold bind at 1. rewrite Hfilter.
    unfold bind at 1. rewrite Hrows. reflexivity. }
  rewrite Hrun. destruct (ListArgs.format args).
  - destruct (table_run rows w3 Hprint) as (lines & -> & Hlen).
    by exists rows, lines.
  - rewrite (write_csv_run csv_line list_columns rows w3 Hcols).
    by eexists rows, _.
  - by eexists rows, _.
Qed.

End VideosList.

(** ** Worked instances of the further properties *)

Lemma get_service_cache_untouched_on_stale :
  api_log (get_service (mock_env []) (world_with_cache stale_credentials)).2 = []
  /\ forall c,
       (get_service (mock_env []) (world_with_cache stale_credentials)).1 = Ok c ->
       credentials_file
         (get_service (mock_env []) (world_with_cache stale_credentials)).2
       = Some c.
Proof.
  destruct (get_service_postcondition (mock_env [])
              (world_with_cache stale_credentials))
    as (Hapi & _ & _ & Hok & _).
  split; [exact Hapi|]. intros c Hc. exact (proj1 (Hok c Hc)).
Defined.



Lemma paginate_two_pages_carry_params :
  exists sent,
    api_log (_paginate env_two_pages 2 playlist_items list_params "items" None
               world0).2 = sent
    /\ Forall (carries playlist_items list_params) sent.
Proof.
  destruct (paginate_requests_carry_params env_two_pages playlist_items "items"
              2 list_params None world0) as (sent & Hlog & Hall & _).
  exists sent. split; [exact Hlog|exact Hall].
Defined.

Lemma paginate_endless_three_turns :
  (_paginate env_endless 3 playlist_items list_params "items" None world0).1
  = OutOfFuel
  /\ length (api_log (_paginate env_endless 3 playlist_items list_params "items"
                        None world0).2) = 3%nat.
Proof.
  apply (paginate_endless_cursor env_endless playlist_items "items" list_params
           world0).
  intros log c. exists (page [VStr "a"] (Some "again")), [VStr "a"].
  repeat split.
Defined.

Lemma paginate_limit_minus_one :
  _paginate env_two_pages 1 playlist_items list_params "items" (Some (-1)) world0
  = (Ok [VStr "a"], set_api_log [invoke playlist_items list_params] world0).
Proof.
  exact (paginate_negative_limit env_two_pages playlist_items "items" list_params
           first_page [VStr "a"; VStr "b"] world0 0 (-1)
           eq_refl eq_refl ltac:(lia)).
Defined.

Lemma fetch_120_second_batch_fails :
  (_fetch_video_details env_details_then_error ids120 "snippet,status" world0).1
  = Raise backend_error
  /\ length (api_log (_fetch_video_details env_details_then_error ids120
                        "snippet,status" world0).2) = 2%nat.
Proof.
  rewrite (fetch_video_details_error env_details_then_error ids120
             "snippet,status" [first_detail_reply]
             [[("v0", video "v0" "Intro" "first" "public");
               ("v1", video "v1" "Setup" "second" "private")]]
             backend_error world0).
  - split; reflexivity.
  - vm_compute. lia.
  - repeat split.
  - reflexivity.
Defined.

Lemma update_unknown_video :
  cmd_videos_update env_missing_video args_title world0
  = (Raise (SystemExit 1),
     set_stderr ["Video not found: abc"]
       (set_api_log [videos_list "snippet,status" "abc"] world0)).
Proof.
  exact (update_video_not_found env_missing_video args_title world0
           [("items", VList [])] eq_refl eq_refl).
Defined.

Lemma update_abc_schedule :
  exists sn' st',
    writes (api_log (cmd_videos_update env_update args_schedule world0).2)
    = [videos_update "snippet,status"
         (VDict [("id", VStr "abc");
                 ("snippet", VDict sn'); ("status", VDict st')])]
    /\ dict_get "title" sn' = Some (VStr "Old")
    /\ dict_get "publishAt" st' = Some (VStr "2030-01-01T00:00:00Z")
    /\ dict_get "privacyStatus" st' = Some (VStr "private")
    /\ dict_get "selfDeclaredMadeForKids" st' = Some (VBool false).
Proof.
  destruct (update_assigns_only_flags env_update args_schedule world0 abc_fetched
              (video_record "abc" "Old" "about" "private") []
              (snippet_of "Old" "about") (status_of "private")
              eq_refl eq_refl eq_refl eq_refl)
    as (sn' & st' & Hlog & _ & Hst & Htitle & _ & _ & _ & Hat & Hpriv).
  - do 4 right. left. by eexists.
  - exists sn', st'. rewrite Hlog.
    split; [reflexivity|]. split; [exact Htitle|]. split; [exact Hat|].
    split; [exact Hpriv|].
    rewrite Hst; [reflexivity|].
    unfold status_flags. intros H.
    repeat (apply elem_of_cons in H as [H|H]; [discriminate H|]).
    by apply elem_of_nil in H.
Defined.

Lemma bulk_update_abc_xyz :
  exists w',
    cmd_bulk_update env_bulk "videos.csv" (Some rows_abc_xyz) world0 = (Ok tt, w')
    /\ last (stdout w')
       = Some (nl +:+ "Done. Updated 1 videos, skipped 1.")
    /\ sleeps w' = 1%nat.
Proof.
  destruct (cmd_bulk_update env_bulk "videos.csv" (Some rows_abc_xyz) world0)
    as [o w'] eqn:Hrun.
  assert (Ho : o = Ok tt).
  { vm_compute in Hrun. by injection Hrun as <- _. }
  subst o. exists w'. split; [done|].
  destruct (bulk_update_accounted env_bulk "videos.csv" rows_abc_xyz world0 w'
              Hrun ltac:(done))
    as (u & s & reads & updates & Hsum & Hlast & Hlog & _ & _ & Hlen & Hsl).
  assert (u = 1%nat) as ->.
  { vm_compute in Hrun. injection Hrun as <-. cbn in Hsl. lia. }
  assert (s = 1%nat) as -> by (cbn in Hsum; lia).
  split; [exact Hlast|exact Hsl].
Defined.

Lemma delete_abc_declined :
  exists prompt,
    cmd_videos_delete (mock_env []) false "abc" (Some "n") world0
    = (Ok tt, set_stdout [prompt; "Aborted."] world0).
Proof.
  destruct (delete_video_asks_first (mock_env []) "abc" world0)
    as (_ & _ & Hno & _).
  exact (Hno "n" eq_refl).
Defined.

Lemma delete_playlist_confirmed :
  api_log (cmd_playlists_delete (mock_env [inr []]) false "PL1" (Some " Y ")
             world0).2
  = [delete_call "playlists" (VStr "PL1")].
Proof.
  destruct (delete_playlist_asks_first (mock_env [inr []]) "PL1" world0)
    as (_ & Hyes & _).
  exact (Hyes " Y " eq_refl).
Defined.

Lemma playlists_remove_unlisted :
  cmd_playlists_remove env_nothing_listed "PL1" "abc" world0
  = (Raise (SystemExit 1),
     set_stderr ["Video abc not found in playlist PL1"]
       (set_api_log [playlist_entry_lookup "PL1" "abc"] world0)).
Proof.
  exact (playlists_remove_not_found env_nothing_listed "PL1" "abc" world0
           [("items", VList [])] eq_refl eq_refl).
Defined.

Lemma playlists_remove_abc :
  api_log (cmd_playlists_remove env_playlist_entry "PL1" "abc" world0).2
  = [playlist_entry_lookup "PL1" "abc";
     delete_call "playlistItems" (VStr "PLI1")]
  /\ (cmd_playlists_remove env_playlist_entry "PL1" "abc" world0).1 = Ok tt.
Proof.
  destruct (playlists_remove_entry env_playlist_entry "PL1" "abc" world0
              entry_found [("id", VStr "PLI1")] [] (VStr "PLI1")
              eq_refl eq_refl eq_refl) as (Hlog & Hok & _).
  exact (conj Hlog Hok).
Defined.

Lemma export_abc_reads_only :
  writes (api_log (cmd_export env_export json_plain csv_plain 1 Csv world0).2)
  = [].
Proof.
  exact (proj1 (export_sends_no_write env_export json_plain csv_plain 1 Csv
                  world0)).
Defined.

Lemma export_abc_and_gone :
  exists rows,
    cmd_export env_export json_plain csv_plain 1 Csv world0
    = (Ok tt,
       set_stdout (export_lines json_plain csv_plain Csv rows) (export_world 4))
    /\ row_id <$> rows = [Some (VStr "abc")].
Proof.
  destruct (export_rows_in_playlist_order env_export json_plain csv_plain 1 Csv
              world0 (VStr "UU1") (export_world 2) uploads_listed
              (export_world 3) ["abc"; "gone"] export_details (export_world 4))
    as (rows & Hrun & Hids & _).
  - reflexivity.
  - reflexivity.
  - reflexivity.
  - reflexivity.
  - intros i d Hd _. unfold export_details in Hd.
    apply lookup_singleton_Some in Hd as [_ <-]. reflexivity.
  - exists rows. split; [exact Hrun|exact Hids].
Defined.

Lemma uploads_playlist_of_uc1 :
  _uploads_playlist_id env_export VNone world0
  = (Ok (VStr "UU1"), export_world 2).
Proof.
  exact (proj2 (uploads_playlist_lookup env_export world0 channel_reply
                  own_channel [] (VStr "UC1") channel_details_reply (VStr "UU1")
                  eq_refl eq_refl eq_refl eq_refl eq_refl)).
Defined.

Lemma export_no_channel :
  cmd_export env_nothing_listed json_plain csv_plain 1 Json world0
  = (Raise (SystemExit 1),
     set_stderr ["No YouTube channel found for this account."]
       (set_api_log [my_channel_call] world0)).
Proof.
  destruct (export_without_channel env_nothing_listed json_plain csv_plain 1 Json
              world0 [("items", VList [])] eq_refl eq_refl) as (_ & Hrun & _).
  exact Hrun.
Defined.

Lemma main_on_bare_machine :
  main env_update (cmd_videos_update env_update args_title) world_no_deps
  = (Raise (SystemExit 1),
     set_stderr ["Missing dependencies. Run:  bash scripts/setup.sh"]
       world_no_deps).
Proof.
  exact (main_missing_dependencies env_update
           (cmd_videos_update env_update args_title) world_no_deps eq_refl).
Defined.

Lemma main_backend_down :
  exit_status
    (main env_backend_down (cmd_videos_update env_backend_down args_title)
       (world_with_cache fresh_credentials)).1
  = Some 1%Z
  /\ stderr
       (main env_backend_down (cmd_videos_update env_backend_down args_title)
          (world_with_cache fresh_credentials)).2
     = ["YouTube API error"].
Proof.
  destruct (main_reports_api_error env_backend_down
              (cmd_videos_update env_backend_down args_title)
              (world_with_cache fresh_credentials) fresh_credentials
              (world_with_cache fresh_credentials) 500 "backendError"
              (set_api_log [videos_list "snippet,status" "abc"]
                 (world_with_cache fresh_credentials))
              eq_refl eq_refl) as (Hrun & Hexit).
  split; [exact Hexit|]. rewrite Hrun. reflexivity.
Defined.

Lemma videos_list_zero_reads_only :
  exists sent,
    api_log (cmd_videos_list env_export json_plain csv_plain 1 args_list_zero
               world0).2 = sent
    /\ Forall (fun c => is_write c = false) sent.
Proof.
  destruct (videos_list_requests env_export json_plain csv_plain 1 args_list_zero
              world0) as (sent & Hlog & Hreads & _).
  exists sent. split; [exact Hlog|exact Hreads].
Defined.

Lemma videos_list_abc_and_gone :
  exists rows lines,
    cmd_videos_list env_export json_plain csv_plain 1 args_list_zero world0
    = (Ok tt, set_stdout lines (list_world 4))
    /\ row_id <$> rows = [Some (VStr "abc"); Some (VStr "gone")]
    /\ length lines = length rows.
Proof.
  destruct (videos_list_rows env_export json_plain csv_plain 1 args_list_zero
              world0 (VStr "UU1") (list_world 2) uploads_listed
              (list_world 3) ["abc"; "gone"] export_details (list_world 4))
    as (rows & lines & Hrun & Hids & _ & _ & Hlines).
  - reflexivity.
  - reflexivity.
  - reflexivity.
  - reflexivity.
  - intros i d Hd. unfold export_details in Hd.
    apply lookup_singleton_Some in Hd as [_ <-]. reflexivity.
  - exists rows, lines. split; [exact Hrun|]. split; [exact Hids|exact Hlines].
Defined.
